(** * Osmium record builder and osm2pgsql connection strings

    A shallow embedding of [osmium::builder::Builder] (the record builder that
    writes nested, size-prefixed items into one growable buffer) and of
    [build_conninfo] from the command line parser, with the properties
    claimed about them. *)

From Stdlib Require Import ZArith Lia List String Ascii.
From Stdlib.Strings Require Import Byte.
From stdpp Require Import base list.
Import ListNotations.

(** ** Results of code that carries [assert]s *)

Inductive outcome (A : Type) : Type :=
| Done (a : A)
| AssertionFailed.

Arguments Done {A} a.
Arguments AssertionFailed {A}.

Definition bind {A B : Type} (m : outcome A) (k : A -> outcome B) : outcome B :=
match m with
| Done a => k a
| AssertionFailed => AssertionFailed
end.

Notation "x <- m ;; k" := (bind m (fun x => k))
  (at level 100, m at next level, right associativity).

(** [assert(c)]: compiled out when [NDEBUG] is defined, fatal otherwise. *)
Definition assert (NDEBUG c : bool) : outcome unit :=
if NDEBUG then Done tt else if c then Done tt else AssertionFailed.

(** ** Raw memory *)

Module Mem.

(** [unsigned char] values and their numeric reading. *)
Definition byte_of_Z (z : Z) : byte :=
match Byte.of_N (Z.to_N (z mod 256)) with
| Some b => b
| None => "000"%byte
end.

Definition Z_of_byte (b : byte) : Z := Z.of_N (Byte.to_N b).

(** [std::copy_n(src, |src|, mem + target)]: one store per element.  A store
    outside the bytes the buffer has handed out is undefined behaviour in
    the source; here it is dropped. *)
Fixpoint copy_n (src : list byte) (target : nat) (mem : list byte) : list byte :=
match src with
| [] => mem
| x :: src' => copy_n src' (S target) (<[target := x]> mem)
end.

(** [std::fill_n(mem + target, n, v)]. *)
Definition fill_n (target n : nat) (v : byte) (mem : list byte) : list byte :=
copy_n (replicate n v) target mem.

(** [uint32_t] arithmetic wraps at [2^32]. *)
Definition u32_modulus : Z := 2 ^ 32.

Definition u32 (z : Z) : Z := (z mod u32_modulus)%Z.

(** A 32-bit unsigned integer in memory, least significant byte first. *)
Definition u32_bytes (v : Z) : list byte :=
[ byte_of_Z v;
  byte_of_Z (Z.shiftr v 8);
  byte_of_Z (Z.shiftr v 16);
  byte_of_Z (Z.shiftr v 24) ].

Definition u32_of_bytes (bs : list byte) : Z :=
fold_right (fun b acc => Z_of_byte b + 256 * acc)%Z 0%Z bs.

Definition load_u32 (mem : list byte) (pos : nat) : Z :=
u32_of_bytes (take 4 (drop pos mem)).

Definition store_u32 (mem : list byte) (pos : nat) (v : Z) : list byte :=
copy_n (u32_bytes v) pos mem.

End Mem.

(** ** The record header, [osmium::memory::Item] *)

Module Item.

(** Modelled from the spec: [osmium::memory::align_bytes] is declared in
    osmium/memory/item.hpp, which is not among the sources.  The alignment
    boundary is 8, as in the spec's worked examples. *)
Definition align_bytes : Z := 8.

(** Modelled from the spec: the record header is "a small fixed-layout prefix
    at the start of every record holding a running byte-size field", with
    [size()] reading it and [grow(delta)] increasing it.  The field is the
    [item_size_type] ([uint32_t], the type [Builder::size] returns) at the
    very start of the record. *)
Definition byte_size (mem : list byte) (pos : nat) : Z := Mem.load_u32 mem pos.

(** Modelled from the spec: [Item::add_size], "grow(delta) increases recorded
    size by delta", the sum taken in [item_size_type]. *)
Definition add_size (mem : list byte) (pos : nat) (size : Z) : list byte :=
Mem.store_u32 mem pos (Mem.u32 (byte_size mem pos + size)).

(** Modelled from the spec: the header a concrete builder constructs in place
    right after [Builder::Builder] has reserved its bytes; its size field
    starts at the header size. *)
Definition init (mem : list byte) (pos : nat) (size : Z) : list byte :=
Mem.store_u32 mem pos (Mem.u32 size).

(** Modelled from the spec: [osmium::memory::padded_length], a length rounded
    up to the alignment boundary. *)
Definition padded_length (length : Z) : Z :=
((length + align_bytes - 1) / align_bytes * align_bytes)%Z.

(** Modelled from the spec: [Item::padded_size], "paddedSizeOf(record)", the
    size of the record rounded up to the alignment boundary, as an
    [item_size_type]. *)
Definition padded_size (item : list byte) : Z :=
Mem.u32 (padded_length (byte_size item 0)).

End Item.

(** ** The arena, [osmium::memory::Buffer] *)

Module Buffer.

(** Modelled from the spec: osmium/memory/buffer.hpp is not among the sources.
    The arena owns a growable byte region with a [committed] and a [written]
    offset; [m_bytes] holds the bytes below [written].  How the arena grows is
    its own business: [m_relocate n] is the address of the backing storage
    once it has to hold [n] bytes, and [m_uninit i] is whatever fresh storage
    contains at offset [i] before anything is stored there. *)
Record t : Type := mk {
  m_data : Z;
  m_bytes : list byte;
  m_committed : nat;
  m_builder_count : Z;
  m_relocate : nat -> Z;
  m_uninit : nat -> byte
}.

(** Modelled from the spec: [base()], the current address of the storage. *)
Definition data (b : t) : Z := m_data b.

(** Modelled from the spec: [written()], the end of the bytes handed out. *)
Definition written (b : t) : nat := length (m_bytes b).

(** Modelled from the spec: [committed()], the end of the finalized records. *)
Definition committed (b : t) : nat := m_committed b.

(** Modelled from the spec: the open-builder depth counter. *)
Definition builder_count (b : t) : Z := m_builder_count b.

Definition with_bytes (b : t) (bytes : list byte) : t :=
mk (m_data b) bytes (m_committed b) (m_builder_count b) (m_relocate b) (m_uninit b).

(** The arena after [tail] has been put at its end. *)
Definition extend (b : t) (tail : list byte) : t :=
mk (m_relocate b (written b + length tail)) (m_bytes b ++ tail)
   (m_committed b) (m_builder_count b) (m_relocate b) (m_uninit b).

(** [b'] is [b] with [tail] put at its end, wherever its storage now is. *)
Definition grown_by (b : t) (tail : list byte) (b' : t) : Prop :=
m_bytes b' = m_bytes b ++ tail /\
m_committed b' = m_committed b /\
m_builder_count b' = m_builder_count b /\
m_relocate b' = m_relocate b /\
m_uninit b' = m_uninit b.

(** Modelled from the spec: [is_aligned()], "whether the tail currently sits
    on the alignment boundary". *)
Definition is_aligned (b : t) : bool :=
(Z.of_nat (written b) mod Item.align_bytes =? 0)%Z.

(** Modelled from the spec: [reserve(n)], "a writable region of n bytes at the
    current tail, growing/relocating storage as needed".  Returns the offset
    of the region (the pointer is [data + offset]). *)
Definition reserve_space (size : nat) (b : t) : nat * t :=
(written b,
 mk (m_relocate b (written b + size))
    (m_bytes b ++ map (m_uninit b) (seq (written b) size))
    (m_committed b) (m_builder_count b) (m_relocate b) (m_uninit b)).

(** Modelled from the spec: the counter's increment and decrement. *)
Definition increment_builder_count (b : t) : t :=
mk (m_data b) (m_bytes b) (m_committed b) (m_builder_count b + 1)%Z
   (m_relocate b) (m_uninit b).

(** Modelled from the spec: see [increment_builder_count]. *)
Definition decrement_builder_count (b : t) : t :=
mk (m_data b) (m_bytes b) (m_committed b) (m_builder_count b - 1)%Z
   (m_relocate b) (m_uninit b).

(** Modelled from the spec: [append_record(record)], "physically copies a
    finished sub-record's bytes at the tail", [padded_size] bytes of it. *)
Definition add_item (item : list byte) (b : t) : t :=
let n := Z.to_nat (Item.padded_size item) in
let '(target, b1) := reserve_space n b in
with_bytes b1 (Mem.copy_n (take n item) target (m_bytes b1)).

End Buffer.

(** ** [osmium::builder::Builder] *)

Module Builder.

(** The buffer reference [m_buffer] is the one arena every operation below
    threads through; a builder is its parent pointer and its item offset. *)
#[local] Unset Elimination Schemes.
Inductive t : Type := mk {
  m_parent : option t;
  m_item_offset : nat
}.
#[local] Set Elimination Schemes.

(** [item_pos() = m_buffer.data() + m_buffer.committed() + m_item_offset],
    as an address, and as an offset into the arena. *)
Definition item_pos (self : t) (buffer : Buffer.t) : Z :=
(Buffer.data buffer + Z.of_nat (Buffer.committed buffer)
 + Z.of_nat (m_item_offset self))%Z.

(** [item()] dereferences that address: the bytes of the arena at the offset
    of the address from the arena's current base. *)
Definition item_index (self : t) (buffer : Buffer.t) : nat :=
Z.to_nat (item_pos self buffer - Buffer.data buffer).

Definition reserve_space (size : nat) (buffer : Buffer.t) : nat * Buffer.t :=
Buffer.reserve_space size buffer.

(** [size() = item().byte_size()] *)
Definition size (self : t) (buffer : Buffer.t) : Z :=
Item.byte_size (Buffer.m_bytes buffer) (item_index self buffer).

(** [add_size(size)]: this item, then the parent chain. *)
Fixpoint add_size (self : t) (size : Z) (buffer : Buffer.t) : Buffer.t :=
let buffer :=
  Buffer.with_bytes buffer
    (Item.add_size (Buffer.m_bytes buffer) (item_index self buffer) size) in
match m_parent self with
| Some parent => add_size parent size buffer
| None => buffer
end.

(** The constructor.  [m_item_offset] is taken before the header is
    reserved. *)
Definition ctor (NDEBUG : bool) (buffer : Buffer.t) (parent : option t) (size : Z)
  : outcome (t * Buffer.t) :=
let self := mk parent (Buffer.written buffer - Buffer.committed buffer) in
let '(_, buffer) := reserve_space (Z.to_nat size) buffer in
_ <- assert NDEBUG (Buffer.is_aligned buffer) ;;
buffer <-
  match parent with
  | Some p =>
      _ <- assert NDEBUG (Buffer.builder_count buffer =? 1)%Z ;;
      Done (add_size p size buffer)
  | None =>
      _ <- assert NDEBUG (Buffer.builder_count buffer =? 0)%Z ;;
      Done buffer
  end ;;
Done (self, if NDEBUG then buffer else Buffer.increment_builder_count buffer).

(** The destructor. *)
Definition dtor (NDEBUG : bool) (buffer : Buffer.t) : Buffer.t :=
if NDEBUG then buffer else Buffer.decrement_builder_count buffer.

(** [add_padding(self)] *)
Definition add_padding (NDEBUG : bool) (self_ : bool) (self : t) (buffer : Buffer.t)
  : outcome Buffer.t :=
let padding :=
  Mem.u32 (Item.align_bytes - size self buffer mod Item.align_bytes) in
if (padding =? Item.align_bytes)%Z then Done buffer
else
  let '(target, buffer) := reserve_space (Z.to_nat padding) buffer in
  let buffer :=
    Buffer.with_bytes buffer
      (Mem.fill_n target (Z.to_nat padding) "000"%byte (Buffer.m_bytes buffer)) in
  if self_ then Done (add_size self padding buffer)
  else
    match m_parent self with
    | Some p =>
        let buffer := add_size p padding buffer in
        _ <- assert NDEBUG (size p buffer mod Item.align_bytes =? 0)%Z ;;
        Done buffer
    | None => Done buffer
    end.

(** [append(data, length)]: [data] is the memory the pointer refers to, and
    [length] the value of the [item_size_type] parameter, [0 <= length <
    2^32]; callers convert to that type before the call. *)
Definition append (data : list byte) (length : Z) (buffer : Buffer.t) : Z * Buffer.t :=
let '(target, buffer) := reserve_space (Z.to_nat length) buffer in
(length,
 Buffer.with_bytes buffer
   (Mem.copy_n (take (Z.to_nat length) data) target (Buffer.m_bytes buffer))).

(** [append_with_zero(data, length)]: [length + 1] is computed in
    [item_size_type]. *)
Definition append_with_zero (data : list byte) (length : Z) (buffer : Buffer.t)
  : Z * Buffer.t :=
let '(target, buffer) := reserve_space (Z.to_nat (Mem.u32 (length + 1))) buffer in
let bytes := Mem.copy_n (take (Z.to_nat length) data) target (Buffer.m_bytes buffer) in
let bytes := <[target + Z.to_nat length := "000"%byte]> bytes in
(Mem.u32 (length + 1), Buffer.with_bytes buffer bytes).

(** [std::strlen]: the bytes before the first zero byte; the memory a C string
    pointer refers to is the list followed by its terminator. *)
Fixpoint strlen (str : list byte) : nat :=
match str with
| [] => 0
| c :: rest => if Byte.eqb c "000"%byte then 0 else S (strlen rest)
end.

(** [append(str)] *)
Definition append_str (str : list byte) (buffer : Buffer.t) : Z * Buffer.t :=
append (str ++ ["000"%byte]) (Mem.u32 (Z.of_nat (strlen str) + 1)) buffer.

(** [add_item(item)] *)
Definition add_item (self : t) (item : list byte) (buffer : Buffer.t) : Buffer.t :=
let buffer := Buffer.add_item item buffer in
add_size self (Item.padded_size item) buffer.

(** [reserve_space_for<T>()], [sizeof_T] standing for [sizeof(T)]; the pointer
    it returns is the offset of the reserved bytes. *)
Definition reserve_space_for (NDEBUG : bool) (sizeof_T : nat) (buffer : Buffer.t)
  : outcome (nat * Buffer.t) :=
_ <- assert NDEBUG (Buffer.is_aligned buffer) ;;
Done (reserve_space sizeof_T buffer).

(** [append_zero()] (deprecated in favour of [append_with_zero]) *)
Definition append_zero (buffer : Buffer.t) : Z * Buffer.t :=
let '(target, buffer) := reserve_space 1 buffer in
(1%Z, Buffer.with_bytes buffer (<[target := "000"%byte]> (Buffer.m_bytes buffer))).

(** Modelled from the spec: "open(arena, parent?, headerSize)" of a concrete
    builder, which is not among the sources; it runs the constructor above and
    then constructs its header in place, the size field at the header size. *)
Definition open (NDEBUG : bool) (buffer : Buffer.t) (parent : option t) (header_size : Z)
  : outcome (t * Buffer.t) :=
r <- ctor NDEBUG buffer parent header_size ;;
let '(self, buffer) := r in
Done (self,
      Buffer.with_bytes buffer
        (Item.init (Buffer.m_bytes buffer) (item_index self buffer) header_size)).

(** The builder and its ancestors, innermost first. *)
Fixpoint chain (self : t) : list t :=
self :: match m_parent self with
        | Some parent => chain parent
        | None => []
        end.

(** The size field of the builder's header lies in the bytes handed out. *)
Definition header_in (self : t) (buffer : Buffer.t) : bool :=
item_index self buffer + 4 <=? Buffer.written buffer.

(** A chain as the constructor builds it: every header's size field is in the
    arena, and a sub-builder's item starts after its parent's size field. *)
Fixpoint open_chain (self : t) (buffer : Buffer.t) : bool :=
header_in self buffer &&
match m_parent self with
| Some parent =>
    (m_item_offset parent + 4 <=? m_item_offset self) && open_chain parent buffer
| None => true
end.

(** Offset [i] of the arena lies in the size field of a builder of the
    chain. *)
Definition in_size_field (self : t) (buffer : Buffer.t) (i : nat) : bool :=
existsb (fun a => (item_index a buffer <=? i) && (i <? item_index a buffer + 4))
        (chain self).

End Builder.

(** ** Frames *)

(** From [b] to [b'] the arena only grew at its tail, [committed] stayed, and
    of the bytes [b] had handed out only those at the offsets [touch] may have
    changed. *)
Definition preserves (touch : nat -> bool) (b b' : Buffer.t) : Prop :=
Buffer.committed b' = Buffer.committed b /\
Buffer.written b <= Buffer.written b' /\
forall i, i < Buffer.written b -> touch i = false ->
          Buffer.m_bytes b' !! i = Buffer.m_bytes b !! i.

Definition nowhere (i : nat) : bool := false.

(** ** Sequences of calls *)

(** The append family. *)
Inductive append_call : Type :=
| CallAppend (data : list byte) (length : Z)
| CallAppendWithZero (data : list byte) (length : Z)
| CallAppendStr (str : list byte).

Definition do_append (c : append_call) (buffer : Buffer.t) : Z * Buffer.t :=
match c with
| CallAppend data length => Builder.append data length buffer
| CallAppendWithZero data length => Builder.append_with_zero data length buffer
| CallAppendStr str => Builder.append_str str buffer
end.

(** Runs the calls in order; the first component is the total of the lengths
    they returned. *)
Fixpoint do_appends (cs : list append_call) (buffer : Buffer.t) : Z * Buffer.t :=
match cs with
| [] => (0%Z, buffer)
| c :: cs' =>
    let '(n, buffer) := do_append c buffer in
    let '(total, buffer) := do_appends cs' buffer in
    ((n + total)%Z, buffer)
end.



(** The operations of a builder chain on one arena: the state is the
    innermost open builder, if any, and the arena. *)
Inductive op : Type :=
| Open (header_size : Z)
| Close
| Append (c : append_call)
| Pad (self_ : bool)
| Grow (delta : Z)
| Attach (item : list byte).

Definition step (NDEBUG : bool) (o : op) (st : option Builder.t * Buffer.t)
  : outcome (option Builder.t * Buffer.t) :=
let '(cur, buffer) := st in
match o, cur with
| Open header_size, _ =>
    r <- Builder.open NDEBUG buffer cur header_size ;;
    Done (Some (fst r), snd r)
| Close, Some self => Done (Builder.m_parent self, Builder.dtor NDEBUG buffer)
| Append c, Some _ => Done (cur, snd (do_append c buffer))
| Pad self_, Some self =>
    buffer <- Builder.add_padding NDEBUG self_ self buffer ;;
    Done (cur, buffer)
| Grow delta, Some self => Done (cur, Builder.add_size self delta buffer)
| Attach item, Some self => Done (cur, Builder.add_item self item buffer)
| _, None => Done st
end.

Fixpoint run (NDEBUG : bool) (ops : list op) (st : option Builder.t * Buffer.t)
  : outcome (option Builder.t * Buffer.t) :=
match ops with
| [] => Done st
| o :: ops' => st' <- step NDEBUG o st ;; run NDEBUG ops' st'
end.

(** A header is at least its size field, and its size is an
    [item_size_type]. *)
Definition header_fits (o : op) : Prop :=
match o with
| Open header_size => (4 <= header_size < Mem.u32_modulus)%Z
| _ => True
end.

(** Builders coming and going on one arena, in an instrumented build: any
    builder may be constructed, with any parent, and any live one
    destroyed. *)
Inductive event : Type :=
| Construct (parent : option Builder.t) (size : Z)
| Destroy (i : nat).

Definition lifecycle_step (e : event) (st : list Builder.t * Buffer.t)
  : outcome (list Builder.t * Buffer.t) :=
let '(live, buffer) := st in
match e with
| Construct parent size =>
    r <- Builder.ctor false buffer parent size ;;
    Done (fst r :: live, snd r)
| Destroy i =>
    match live !! i with
    | Some _ => Done (delete i live, Builder.dtor false buffer)
    | None => Done st
    end
end.

Fixpoint lifecycle (es : list event) (st : list Builder.t * Buffer.t)
  : outcome (list Builder.t * Buffer.t) :=
match es with
| [] => Done st
| e :: es' => st' <- lifecycle_step e st ;; lifecycle es' st'
end.

(** ** Connection strings: [build_conninfo] (command-line-parser.cpp) *)

Module CommandLine.

Local Open Scope string_scope.

(** [std::string::c_str()] as the C library reads it: the characters before
    the first NUL. *)
Fixpoint c_str (s : string) : string :=
match s with
| EmptyString => EmptyString
| String c rest => if Ascii.eqb c Ascii.zero then EmptyString else String c (c_str rest)
end.

Definition uchar (c : ascii) : Z := Z.of_N (N_of_ascii c).

(** [std::strncmp] on C strings: the difference of the first pair of
    characters that differ among the first [n], the end of a string reading
    as NUL. *)
Fixpoint strncmp (s1 s2 : string) (n : nat) {struct n} : Z :=
match n with
| 0 => 0%Z
| S n' =>
    match s1, s2 with
    | EmptyString, EmptyString => 0%Z
    | EmptyString, String c2 _ => (0 - uchar c2)%Z
    | String c1 _, EmptyString => (uchar c1 - 0)%Z
    | String c1 r1, String c2 r2 =>
        if Ascii.eqb c1 c2 then strncmp r1 r2 n' else (uchar c1 - uchar c2)%Z
    end
end.

(** [std::strchr] on a C string: the offset of the first occurrence, [None]
    for the null pointer; the terminator counts as part of the string. *)
Fixpoint strchr (s : string) (ch : ascii) : option nat :=
match s with
| EmptyString => if Ascii.eqb ch Ascii.zero then Some 0 else None
| String c rest =>
    if Ascii.eqb c ch then Some 0 else option_map S (strchr rest ch)
end.

(** [fmt::format] with one replacement field. *)
Fixpoint format (fmt : string) (arg : string) : string :=
match fmt with
| EmptyString => EmptyString
| String "{" (String "}" rest) => arg ++ rest
| String c rest => String c (format rest arg)
end.

Definition empty (s : string) : bool :=
match s with
| EmptyString => true
| String _ _ => false
end.

(** Modelled from the spec: [util::string_joiner_t] (util.hpp) is not among
    the sources.  It collects the items added to it and, when called, gives
    them joined by the delimiter ("a space-joined conninfo string"). *)
Record string_joiner_t : Type := mk_joiner {
  m_delim : ascii;
  m_items : list string
}.

(** Modelled from the spec: the constructor of [util::string_joiner_t], with
    its delimiter. *)
Definition joiner (delim : ascii) : string_joiner_t := mk_joiner delim [].

(** Modelled from the spec: [string_joiner_t::add]. *)
Definition add (item : string) (j : string_joiner_t) : string_joiner_t :=
mk_joiner (m_delim j) (m_items j ++ [item]).

(** Modelled from the spec: [string_joiner_t::operator()], the items joined
    by the delimiter. *)
Definition joined (j : string_joiner_t) : string :=
String.concat (String (m_delim j) EmptyString) (m_items j).

(** Modelled from the spec: [database_options_t] (options.hpp) is not among
    the sources; these are the fields [build_conninfo] reads, all of them
    [std::string]. *)
Record database_options_t : Type := mk_options {
  db : string;
  username : string;
  password : string;
  host : string;
  port : string
}.

Definition compare_prefix (str prefix : string) : bool :=
(strncmp (c_str str) (c_str prefix) (String.length prefix) =? 0)%Z.

Definition add_unless_empty (pattern value : string) (j : string_joiner_t)
  : string_joiner_t :=
if empty value then j else add (format pattern value) j.

Definition build_conninfo (opt : database_options_t) : string :=
if compare_prefix (db opt) "postgresql://" || compare_prefix (db opt) "postgres://"
then db opt
else
  let j := joiner " " in
  let j := add "fallback_application_name='osm2pgsql'" j in
  match strchr (c_str (db opt)) "=" with
  | Some _ =>
      let j := add (db opt) j in
      joined j
  | None =>
      let j := add "client_encoding='UTF8'" j in
      let j := add_unless_empty "dbname='{}'" (db opt) j in
      let j := add_unless_empty "user='{}'" (username opt) j in
      let j := add_unless_empty "password='{}'" (password opt) j in
      let j := add_unless_empty "host='{}'" (host opt) j in
      let j := add_unless_empty "port='{}'" (port opt) j in
      joined j
  end.

(** *** The other parsers of the command line *)

(** Code that throws: [Throw what] is a [std::runtime_error] with that
    message. *)
Inductive result (A : Type) : Type :=
| Ok (a : A)
| Throw (what : string).

Arguments Ok {A} a.
Arguments Throw {A} what.

(** A [char const *] argument is the string of its characters before the
    terminator: a C string, one without NUL. *)
Definition is_c_string (s : string) : bool :=
negb (existsb (Ascii.eqb Ascii.zero) (list_ascii_of_string s)).

(** [std::strrchr] on a C string: the offset of the last occurrence, [None]
    for the null pointer; the terminator counts as part of the string. *)
Fixpoint strrchr (s : string) (ch : ascii) : option nat :=
match s with
| EmptyString => if Ascii.eqb ch Ascii.zero then Some 0 else None
| String c rest =>
    match strrchr rest ch with
    | Some i => Some (S i)
    | None => if Ascii.eqb c ch then Some 0 else None
    end
end.

(** The C string at [s + n]. *)
Fixpoint advance (n : nat) (s : string) : string :=
match n, s with
| 0, _ => s
| S n', String _ rest => advance n' rest
| S _, EmptyString => EmptyString
end.

Definition program_name (name : string) : string :=
match strrchr name "/" with
| Some slash => advance (slash + 1) name
| None => name
end.

(** [std::strcmp] on C strings. *)
Fixpoint strcmp (s1 s2 : string) : Z :=
match s1, s2 with
| EmptyString, EmptyString => 0%Z
| EmptyString, String c2 _ => (0 - uchar c2)%Z
| String c1 _, EmptyString => (uchar c1 - 0)%Z
| String c1 r1, String c2 r2 =>
    if Ascii.eqb c1 c2 then strcmp r1 r2 else (uchar c1 - uchar c2)%Z
end.

(** [isspace] and [isdigit] in the C locale. *)
Definition isspace (c : ascii) : bool :=
((uchar c =? 32) || ((9 <=? uchar c) && (uchar c <=? 13)))%Z.

Definition isdigit (c : ascii) : bool :=
((48 <=? uchar c) && (uchar c <=? 57))%Z.

Fixpoint skip_spaces (s : string) : string :=
match s with
| String c rest => if isspace c then skip_spaces rest else s
| EmptyString => EmptyString
end.

(** The decimal digits at the start of [s], read onto [acc], and what
    follows them. *)
Fixpoint read_digits (s : string) (acc : Z) : Z * string :=
match s with
| String c rest =>
    if isdigit c then read_digits rest (10 * acc + (uchar c - 48))%Z else (acc, s)
| EmptyString => (acc, EmptyString)
end.

(** The character a [char const *] points at: the terminator at the end. *)
Definition first_char (s : string) : ascii :=
match s with
| String c _ => c
| EmptyString => Ascii.zero
end.

(** [long] has 64 bits (LP64), [int] 32. *)
Definition LONG_MAX : Z := 2 ^ 63 - 1.

Definition INT_MAX : Z := 2147483647.

(** [std::strtol(s, nullptr, 10)]: white space, an optional sign, decimal
    digits; a value that does not fit [long] gives [LONG_MAX] or
    [LONG_MIN]. *)
Definition strtol (s : string) : Z :=
let s := skip_spaces s in
let value :=
  if Ascii.eqb (first_char s) "-" then (- fst (read_digits (advance 1 s) 0))%Z
  else if Ascii.eqb (first_char s) "+" then fst (read_digits (advance 1 s) 0)
  else fst (read_digits s 0) in
Z.max (- LONG_MAX - 1) (Z.min LONG_MAX value).

(** The conversion of a [long] to [int]: its low 32 bits in two's
    complement. *)
Definition to_int (z : Z) : Z := ((z + 2 ^ 31) mod 2 ^ 32 - 2 ^ 31)%Z.

(** [atoi(s)] as the C library has it (glibc): [(int) strtol(s, nullptr, 10)].
    The C standard leaves the result open when the value does not fit
    [int]; this is what the program gets there. *)
Definition atoi (s : string) : Z := to_int (strtol s).

(** [parse_number_processes_param]: the number and the warnings logged. *)
Definition parse_number_processes_param (arg : string) : Z * list string :=
let num := atoi arg in
if (num <? 1)%Z
then (1%Z, ["--number-processes must be at least 1. Using 1."])
else if (32 <? num)%Z
then (32%Z, ["--number-processes too large. Set to 32."])
else (num, []).

(** [unsigned long] has 64 bits (LP64). *)
Definition ULONG_MAX : Z := 2 ^ 64 - 1.

(** [std::strtoul(s, &end, 10)]: the value and the string at [end].  Without
    digits the value is 0 and [end] is [s]; a value that does not fit
    is [ULONG_MAX]; a minus sign negates in [unsigned long]. *)
Definition strtoul (s : string) : Z * string :=
let s1 := skip_spaces s in
let negative := Ascii.eqb (first_char s1) "-" in
let s2 := if negative || Ascii.eqb (first_char s1) "+" then advance 1 s1 else s1 in
if isdigit (first_char s2)
then
  let '(v, rest) := read_digits s2 0 in
  (if (ULONG_MAX <? v)%Z then ULONG_MAX
   else if negative then ((ULONG_MAX + 1 - v) mod (ULONG_MAX + 1))%Z
   else v,
   rest)
else (0%Z, s).

(** [parse_expire_tiles_param]: [arg] may be the null pointer; the result is
    the pair written to [*expire_tiles_zoom_min] and [*expire_tiles_zoom]. *)
Definition parse_expire_tiles_param (arg : option string) : result (Z * Z) :=
match arg with
| None =>
    Throw "Missing argument for option --expire-tiles. Zoom levels must be positive."
| Some arg =>
    if Ascii.eqb (first_char arg) "-"
    then Throw "Missing argument for option --expire-tiles. Zoom levels must be positive."
    else
      let '(v, next_char) := strtoul arg in
      let expire_tiles_zoom_min := Mem.u32 v in
      if (expire_tiles_zoom_min =? 0)%Z
      then Throw "Bad argument for option --expire-tiles. Minimum zoom level must be larger than 0."
      else if Ascii.eqb (first_char next_char) "-"
      then
        let next_char := advance 1 next_char in
        if negb (Ascii.eqb (first_char next_char) "-")
           && isdigit (first_char next_char)
        then
          let '(v2, after_maxzoom) := strtoul next_char in
          let expire_tiles_zoom := Mem.u32 v2 in
          if (expire_tiles_zoom =? 0)%Z
             || negb (Ascii.eqb (first_char after_maxzoom) Ascii.zero)
          then Throw "Invalid maximum zoom level given for tile expiry."
          else Ok (expire_tiles_zoom_min, expire_tiles_zoom)
        else Throw "Invalid maximum zoom level given for tile expiry."
      else if Ascii.eqb (first_char next_char) Ascii.zero
      then Ok (expire_tiles_zoom_min, expire_tiles_zoom_min)
      else Throw "Minimum and maximum zoom level for tile expiry must be separated by '-'."
end.

(** Modelled from the spec: [log_level] (logging.hpp) is not among the
    sources; these are the levels [parse_log_level_param] sets. *)
Inductive log_level : Type :=
| log_level_debug
| log_level_info
| log_level_warn
| log_level_error.

(** [parse_log_level_param]: the level handed to [get_logger().set_level]. *)
Definition parse_log_level_param (arg : string) : result log_level :=
if (strcmp arg "debug" =? 0)%Z then Ok log_level_debug
else if (strcmp arg "info" =? 0)%Z then Ok log_level_info
else if ((strcmp arg "warn" =? 0) || (strcmp arg "warning" =? 0))%Z
then Ok log_level_warn
else if (strcmp arg "error" =? 0)%Z then Ok log_level_error
else Throw (format "Unknown value for --log-level option: {}" arg).

(** Modelled from the spec: [hstore_column] (options.hpp) is not among the
    sources. *)
Inductive hstore_column : Type :=
| hstore_column_none
| hstore_column_norm
| hstore_column_all.

Definition is_hstore_none (m : hstore_column) : bool :=
match m with
| hstore_column_none => true
| _ => false
end.

(** Modelled from the spec: [options_t] (options.hpp) is not among the
    sources; these are the fields [check_options] reads, [target_srs] being
    what [projection->target_srs()] returns. *)
Record options_t : Type := mk_options_t {
  append : bool;
  create : bool;
  slim : bool;
  droptemp : bool;
  middle_database_format : Z;
  hstore_mode : hstore_column;
  hstore_columns : list string;
  hstore_match_only : bool;
  enable_hstore_index : bool;
  cache : Z;
  flat_node_file : string;
  expire_tiles_zoom_min : Z;
  expire_tiles_zoom : Z;
  target_srs : Z;
  output_backend : string
}.

Definition set_hstore_match_only (v : bool) (o : options_t) : options_t :=
mk_options_t (append o) (create o) (slim o) (droptemp o) (middle_database_format o)
  (hstore_mode o) (hstore_columns o) v (enable_hstore_index o) (cache o)
  (flat_node_file o) (expire_tiles_zoom_min o) (expire_tiles_zoom o)
  (target_srs o) (output_backend o).

Definition set_enable_hstore_index (v : bool) (o : options_t) : options_t :=
mk_options_t (append o) (create o) (slim o) (droptemp o) (middle_database_format o)
  (hstore_mode o) (hstore_columns o) (hstore_match_only o) v (cache o)
  (flat_node_file o) (expire_tiles_zoom_min o) (expire_tiles_zoom o)
  (target_srs o) (output_backend o).

Definition set_cache (v : Z) (o : options_t) : options_t :=
mk_options_t (append o) (create o) (slim o) (droptemp o) (middle_database_format o)
  (hstore_mode o) (hstore_columns o) (hstore_match_only o) (enable_hstore_index o) v
  (flat_node_file o) (expire_tiles_zoom_min o) (expire_tiles_zoom o)
  (target_srs o) (output_backend o).

Definition set_expire_tiles_zoom_min (v : Z) (o : options_t) : options_t :=
mk_options_t (append o) (create o) (slim o) (droptemp o) (middle_database_format o)
  (hstore_mode o) (hstore_columns o) (hstore_match_only o) (enable_hstore_index o)
  (cache o) (flat_node_file o) v (expire_tiles_zoom o)
  (target_srs o) (output_backend o).

Definition set_expire_tiles_zoom (v : Z) (o : options_t) : options_t :=
mk_options_t (append o) (create o) (slim o) (droptemp o) (middle_database_format o)
  (hstore_mode o) (hstore_columns o) (hstore_match_only o) (enable_hstore_index o)
  (cache o) (flat_node_file o) (expire_tiles_zoom_min o) v
  (target_srs o) (output_backend o).

Definition no_columns (l : list string) : bool :=
match l with
| [] => true
| _ :: _ => false
end.

(** One [if] of [check_options] that may change the options and log a
    warning: the condition [c] is evaluated on the options as they are when
    control reaches it. *)
Definition adjust (c : options_t -> bool) (f : options_t -> options_t)
    (warning : string) (st : options_t * list string) : options_t * list string :=
if c (fst st) then (f (fst st), (snd st ++ [warning])%list) else st.

(** [check_options]: the options as it leaves them and the warnings it
    logs. *)
Definition check_options (options : options_t) : result (options_t * list string) :=
if append options && create options
then Throw "--append and --create options can not be used at the same time!"
else if append options && negb (slim options)
then Throw "--append can only be used with slim mode!"
else if droptemp options && negb (slim options)
then Throw "--drop only makes sense with --slim."
else if append options && negb (middle_database_format options =? 1)%Z
then Throw "Do not use --middle-database-format with --append."
else
  let st := (options, []) in
  let st :=
    adjust (fun options => is_hstore_none (hstore_mode options)
                           && no_columns (hstore_columns options)
                           && hstore_match_only options)
      (set_hstore_match_only false)
      "--hstore-match-only only makes sense with --hstore, --hstore-all, or --hstore-column; ignored."
      st in
  let st :=
    adjust (fun options => enable_hstore_index options
                           && is_hstore_none (hstore_mode options)
                           && no_columns (hstore_columns options))
      (set_enable_hstore_index false)
      "--hstore-add-index only makes sense with hstore enabled; ignored."
      st in
  let st :=
    adjust (fun options => cache options <? 0)%Z (set_cache 0)
      "RAM cache cannot be negative. Using 0 instead." st in
  if (cache (fst st) =? 0)%Z && negb (slim (fst st))
  then Throw "RAM node cache can only be disabled in slim mode."
  else
    let st :=
      adjust (fun options => (cache options =? 0)%Z
                             && empty (flat_node_file options)
                             && negb (append options))
        (fun options => options)
        "RAM cache is disabled. This will likely slow down processing a lot." st in
    let st :=
      adjust (fun options => negb (slim options)
                             && negb (empty (flat_node_file options)))
        (fun options => options)
        "Ignoring --flat-nodes/-F setting in non-slim mode" st in
    let st :=
      adjust (fun options => 31 <? expire_tiles_zoom_min options)%Z
        (set_expire_tiles_zoom_min 31)
        "Minimum zoom level for tile expiry is too large and has been set to 31."
        st in
    let st :=
      adjust (fun options => 31 <? expire_tiles_zoom options)%Z
        (set_expire_tiles_zoom 31)
        "Maximum zoom level for tile expiry is too large and has been set to 31."
        st in
    let st :=
      adjust (fun options => negb (expire_tiles_zoom options =? 0)%Z
                             && negb (target_srs options =? 3857)%Z)
        (set_expire_tiles_zoom 0)
        "Expire has been enabled (with -e or --expire-tiles) but target SRS is not Mercator (EPSG:3857). Expire disabled!"
        st in
    let st :=
      adjust (fun options => String.eqb (output_backend options) "gazetteer")
        (fun options => options)
        "The 'gazetteer' output is deprecated and will soon be removed." st in
    Ok st.

(** The options [check_options] has nothing to object to. *)
Definition settled (o : options_t) : bool :=
negb (append o && create o)
&& implb (append o) (slim o)
&& implb (droptemp o) (slim o)
&& implb (append o) (middle_database_format o =? 1)%Z
&& implb (hstore_match_only o)
     (negb (is_hstore_none (hstore_mode o) && no_columns (hstore_columns o)))
&& implb (enable_hstore_index o)
     (negb (is_hstore_none (hstore_mode o) && no_columns (hstore_columns o)))
&& (0 <=? cache o)%Z
&& implb (cache o =? 0)%Z (slim o)
&& (expire_tiles_zoom_min o <=? 31)%Z
&& (expire_tiles_zoom o <=? 31)%Z
&& implb (negb (expire_tiles_zoom o =? 0)%Z) (target_srs o =? 3857)%Z.

(** The options [check_options] throws on. *)
Definition refused (o : options_t) : bool :=
(append o && create o)
|| (append o && negb (slim o))
|| (droptemp o && negb (slim o))
|| (append o && negb (middle_database_format o =? 1)%Z)
|| ((cache o <=? 0)%Z && negb (slim o)).

(** The options in closed form, as [check_options] leaves them when it
    returns. *)
Definition checked (o : options_t) : options_t :=
let hstore_off := is_hstore_none (hstore_mode o) && no_columns (hstore_columns o) in
mk_options_t (append o) (create o) (slim o) (droptemp o) (middle_database_format o)
  (hstore_mode o) (hstore_columns o)
  (hstore_match_only o && negb hstore_off)
  (enable_hstore_index o && negb hstore_off)
  (Z.max 0 (cache o))
  (flat_node_file o)
  (Z.min 31 (expire_tiles_zoom_min o))
  (if (target_srs o =? 3857)%Z then Z.min 31 (expire_tiles_zoom o) else 0%Z)
  (target_srs o) (output_backend o).

(** The value of a string of decimal digits. *)
Definition decimal (ds : string) : Z :=
fold_left (fun acc c => (10 * acc + (uchar c - 48))%Z) (list_ascii_of_string ds) 0%Z.

Definition all_digits (ds : string) : bool :=
forallb isdigit (list_ascii_of_string ds).

(** [rest] does not go on with a digit. *)
Definition no_digit_ahead (rest : string) : bool :=
negb (isdigit (first_char rest)).

Definition ex_options : options_t :=
mk_options_t false true true false 1 hstore_column_none [] true true (-5)
  EmptyString 40 35 4326 "pgsql".

(** *** The claim, in its own words *)

Definition contains (c : ascii) (s : string) : bool :=
existsb (Ascii.eqb c) (list_ascii_of_string s).

(** [c] occurs in [s] with no NUL before it. *)
Definition occurs_before_nul (c : ascii) (s : string) : Prop :=
exists i, String.get i s = Some c /\
          forall j, j < i -> String.get j s <> Some Ascii.zero.

(** The entry of a field: nothing when the field is empty. *)
Definition entry (key value : string) : string :=
if empty value then EmptyString else " " ++ key ++ "='" ++ value ++ "'".

Definition assembled (opt : database_options_t) : string :=
"fallback_application_name='osm2pgsql' client_encoding='UTF8'"
  ++ entry "dbname" (db opt) ++ entry "user" (username opt)
  ++ entry "password" (password opt) ++ entry "host" (host opt)
  ++ entry "port" (port opt).

Definition conninfo_claimed (opt : database_options_t) : string :=
if String.prefix "postgresql://" (db opt) || String.prefix "postgres://" (db opt)
then db opt
else if contains "=" (db opt)
then "fallback_application_name='osm2pgsql' " ++ db opt
else assembled opt.

Definition ex_uri : database_options_t :=
mk_options "postgres://gis@localhost/osm" "ignored" EmptyString EmptyString EmptyString.

Definition ex_keywords : database_options_t :=
mk_options "dbname=osm host=db1" "ignored" EmptyString EmptyString EmptyString.

Definition ex_fields : database_options_t :=
mk_options "osm" "gis" EmptyString "db1" "5432".

(** A database name with a NUL before its '='. *)
Definition ex_nul : database_options_t :=
mk_options (String Ascii.zero "=") EmptyString EmptyString EmptyString EmptyString.

End CommandLine.

(** ** Vocabulary of the statements *)

(** The number of padding bytes on a size that is not aligned. *)
Definition padding_of (size : Z) : Z :=
(Item.align_bytes - size mod Item.align_bytes)%Z.

(** The size fields an operation of a chain may write: those of the chain,
    none when there is no builder. *)
Definition size_fields (cur : option Builder.t) (b : Buffer.t) : nat -> bool :=
match cur with
| Some self => Builder.in_size_field self b
| None => nowhere
end.

Definition open_chain_opt (cur : option Builder.t) (b : Buffer.t) : bool :=
match cur with
| Some self => Builder.open_chain self b
| None => true
end.

Definition well_formed (st : option Builder.t * Buffer.t) : Prop :=
Buffer.committed (snd st) <= Buffer.written (snd st) /\
open_chain_opt (fst st) (snd st) = true.

(** The call returned [ret], left the arena as it was with [tail] put at its
    end, and changed no size field. *)
Definition puts (b : Buffer.t) (tail : list byte) (ret : Z) (r : Z * Buffer.t) : Prop :=
fst r = ret /\
Buffer.grown_by b tail (snd r) /\
forall a, Builder.header_in a b = true ->
          Builder.size a (snd r) = Builder.size a b.





(** The worked example of the spec: a parent with a 16-byte header, a child
    with an 8-byte header, ten bytes appended to the child and counted, the
    child padded with [self = false], the child destroyed.  The sizes along
    the way, in order: parent after the child opened; child after
    [add_size(10)]; number of padding bytes written; parent and child after
    the padding; parent after the child is gone. *)
Definition nested_scenario (NDEBUG : bool) (arena : Buffer.t) (data : list byte)
  : outcome (list Z) :=
r1 <- Builder.open NDEBUG arena None 16 ;;
let '(parent, b1) := r1 in
r2 <- Builder.open NDEBUG b1 (Some parent) 8 ;;
let '(child, b2) := r2 in
let '(n, b3) := Builder.append data 10 b2 in
let b4 := Builder.add_size child n b3 in
b5 <- Builder.add_padding NDEBUG false child b4 ;;
let b6 := Builder.dtor NDEBUG b5 in
Done [ Builder.size parent b2;
       Builder.size child b4;
       (Z.of_nat (Buffer.written b5) - Z.of_nat (Buffer.written b4))%Z;
       Builder.size parent b5;
       Builder.size child b5;
       Builder.size parent b6 ].

(** ** Example arenas, builders and calls *)

Definition arena0 : Buffer.t :=
Buffer.mk 4096 [] 0 0
  (fun n => (4096 + 65536 * Z.of_nat (n / 32))%Z)
  (fun _ => Byte.xcd).

Definition arena_of {A : Type} (r : outcome (A * Buffer.t)) : Buffer.t :=
match r with
| Done (_, b) => b
| AssertionFailed => arena0
end.

Definition ex_parent : Builder.t := Builder.mk None 0.

Definition ex_child : Builder.t := Builder.mk (Some ex_parent) 16.

Definition ex_arena16 : Buffer.t := arena_of (Builder.open false arena0 None 16).

Definition ex_arena24 : Buffer.t :=
arena_of (Builder.open false ex_arena16 (Some ex_parent) 8).

Definition ex_top8 : Builder.t := Builder.mk None 0.

Definition ex_arena8 : Buffer.t := arena_of (Builder.open false arena0 None 8).

Definition ex_calls : list append_call :=
[ CallAppend [Byte.x68; Byte.x65; Byte.x6c; Byte.x6c; Byte.x6f] 5;
  CallAppendWithZero [Byte.x61; Byte.x62] 2;
  CallAppendStr [Byte.x78; Byte.x79; Byte.x7a] ].

(** Nearly four gigabytes of payload. *)
Definition ex_huge : list byte := replicate (Z.to_nat 4294967288) Byte.x41.

Definition ex_payload : list byte := replicate 10 Byte.x41.

Definition ex_item : list byte :=
Mem.u32_bytes 13 ++ [Byte.x01; Byte.x02; Byte.x03; Byte.x04; Byte.x05;
                     Byte.x06; Byte.x07; Byte.x08; Byte.x09;
                     Byte.x00; Byte.x00; Byte.x00].

(** A finished record of [2^32 - 8] bytes. *)
Definition ex_huge_item : list byte :=
Mem.u32_bytes 4294967288 ++ replicate (Z.to_nat 4294967284) Byte.x00.

Definition ex_hello : list byte := [Byte.x68; Byte.x65; Byte.x6c; Byte.x6c; Byte.x6f].

(** A string of [2^32 - 1] letters. *)
Definition ex_long_string : list byte := replicate (Z.to_nat 4294967295) Byte.x61.

Definition ex_ops : list op :=
[ Open 8; Append (CallAppend ex_payload 10); Grow 10; Pad false; Close;
  Attach ex_item; Pad true ].

Definition ex_events : list event :=
[ Construct None 16; Construct (Some ex_parent) 8; Destroy 0;
  Construct (Some ex_parent) 24; Destroy 0 ].

(** The child of the worked example after ten bytes were appended and
    counted: its size is 18, the parent's 34. *)
Definition ex_grown : Buffer.t :=
Builder.add_size ex_child 10 (snd (Builder.append ex_payload 10 ex_arena24)).

(** * Properties *)

(** ** Raw memory *)

Section MemFacts.
Import Mem.

Lemma Z_of_byte_of_Z (z : Z) : Z_of_byte (byte_of_Z z) = (z mod 256)%Z.
Proof.
unfold Z_of_byte, byte_of_Z.
assert (Hr : (0 <= z mod 256 < 256)%Z) by (apply Z.mod_pos_bound; lia).
destruct (Byte.of_N (Z.to_N (z mod 256))) as [b|] eqn:E.
- apply Byte.to_of_N in E. rewrite E. lia.
- apply Byte.of_N_None_iff in E. lia.
Qed.

Lemma Z_of_byte_range (b : byte) : (0 <= Z_of_byte b < 256)%Z.
Proof. unfold Z_of_byte. pose proof (Byte.to_N_bounded b). lia. Qed.

Lemma u32_of_bytes_u32_bytes (v : Z) : u32_of_bytes (u32_bytes v) = u32 v.
Proof.
unfold u32_of_bytes, u32_bytes, u32, u32_modulus. cbn [fold_right].
rewrite !Z_of_byte_of_Z, !Z.shiftr_div_pow2 by lia.
change (2 ^ 8)%Z with 256%Z. change (2 ^ 16)%Z with 65536%Z.
change (2 ^ 24)%Z with 16777216%Z. change (2 ^ 32)%Z with 4294967296%Z.
Z.div_mod_to_equations. lia.
Qed.

Lemma u32_of_bytes_range (bs : list byte) :
  length bs <= 4 -> (0 <= u32_of_bytes bs < u32_modulus)%Z.
Proof.
intros Hlen. unfold u32_modulus. change (2 ^ 32)%Z with 4294967296%Z.
destruct bs as [|b0 [|b1 [|b2 [|b3 [|b4 bs]]]]]; cbn in Hlen; try lia;
  cbn [u32_of_bytes fold_right];
  repeat match goal with
         | |- context [Z_of_byte ?b] =>
             lazymatch goal with
             | _ : (0 <= Z_of_byte b < 256)%Z |- _ => fail
             | _ => pose proof (Z_of_byte_range b)
             end
         end; lia.
Qed.

Lemma u32_range (z : Z) : (0 <= u32 z < u32_modulus)%Z.
Proof. apply Z.mod_pos_bound. reflexivity. Qed.

Lemma u32_small (z : Z) : (0 <= z < u32_modulus)%Z -> u32 z = z.
Proof. apply Z.mod_small. Qed.

Lemma length_copy_n (src : list byte) (target : nat) (mem : list byte) :
  length (copy_n src target mem) = length mem.
Proof.
revert target mem. induction src as [|x src IH]; intros target mem; cbn.
- reflexivity.
- rewrite IH. apply length_insert.
Qed.

Lemma copy_n_lookup_outside (src : list byte) (target : nat) (mem : list byte) (i : nat) :
  i < target \/ target + length src <= i ->
  copy_n src target mem !! i = mem !! i.
Proof.
revert target mem. induction src as [|x src IH]; intros target mem Hi; cbn.
- reflexivity.
- cbn in Hi. rewrite IH by lia. apply list_lookup_insert_ne. lia.
Qed.

Lemma copy_n_app (src pre region post : list byte) :
  length region = length src ->
  copy_n src (length pre) (pre ++ region ++ post) = pre ++ src ++ post.
Proof.
revert pre region. induction src as [|x src IH]; intros pre region Hlen.
- destruct region; [reflexivity | discriminate].
- destruct region as [|r region]; [discriminate|]. cbn in Hlen. cbn [copy_n].
  replace (<[length pre := x]> (pre ++ (r :: region) ++ post))
    with ((pre ++ [x]) ++ region ++ post).
  + replace (S (length pre)) with (length (pre ++ [x]))
      by (rewrite length_app; cbn; lia).
    rewrite IH by lia. rewrite <- app_assoc. reflexivity.
  + rewrite insert_app_r_alt by lia. rewrite Nat.sub_diag. cbn.
    rewrite <- app_assoc. reflexivity.
Qed.

Lemma copy_n_tail (src pre region : list byte) :
  length region = length src ->
  copy_n src (length pre) (pre ++ region) = pre ++ src.
Proof.
intros Hlen. pose proof (copy_n_app src pre region [] Hlen) as H.
rewrite !app_nil_r in H. exact H.
Qed.

Lemma load_u32_ext (m1 m2 : list byte) (pos : nat) :
  (forall i, pos <= i < pos + 4 -> m1 !! i = m2 !! i) ->
  load_u32 m1 pos = load_u32 m2 pos.
Proof.
intros H. unfold load_u32. f_equal. apply list_eq. intros i.
destruct (decide (i < 4)) as [Hi|Hi].
- rewrite !lookup_take_lt, !lookup_drop by lia. apply H. lia.
- rewrite !lookup_take_ge by lia. reflexivity.
Qed.

Lemma load_u32_range (mem : list byte) (pos : nat) :
  (0 <= load_u32 mem pos < u32_modulus)%Z.
Proof.
apply u32_of_bytes_range. rewrite length_take. lia.
Qed.

Lemma length_store_u32 (mem : list byte) (pos : nat) (v : Z) :
  length (store_u32 mem pos v) = length mem.
Proof. apply length_copy_n. Qed.

Lemma store_u32_lookup_outside (mem : list byte) (pos : nat) (v : Z) (i : nat) :
  i < pos \/ pos + 4 <= i ->
  store_u32 mem pos v !! i = mem !! i.
Proof. intros H. apply copy_n_lookup_outside. cbn. lia. Qed.

Lemma store_u32_split (mem : list byte) (pos : nat) (v : Z) :
  pos + 4 <= length mem ->
  store_u32 mem pos v = take pos mem ++ u32_bytes v ++ drop (pos + 4) mem.
Proof.
intros H. unfold store_u32.
assert (Hpos : length (take pos mem) = pos) by (rewrite length_take; lia).
assert (Hmem : mem = take pos mem ++ take 4 (drop pos mem) ++ drop (pos + 4) mem).
{ rewrite <- drop_drop, !take_drop. reflexivity. }
rewrite Hmem at 1. rewrite <- Hpos at 1.
apply copy_n_app. rewrite length_take, length_drop.
change (length (u32_bytes v)) with 4. lia.
Qed.

Lemma load_store_u32 (mem : list byte) (pos : nat) (v : Z) :
  pos + 4 <= length mem ->
  load_u32 (store_u32 mem pos v) pos = u32 v.
Proof.
intros H. rewrite store_u32_split by exact H. unfold load_u32.
rewrite drop_app_length' by (rewrite length_take; lia).
rewrite take_app_length' by reflexivity.
apply u32_of_bytes_u32_bytes.
Qed.

End MemFacts.

(** ** The builder chain *)

Section ChainFacts.
Import Mem.

Lemma Builder_ind (P : Builder.t -> Prop)
  (Hroot : forall off, P (Builder.mk None off))
  (Hsub : forall parent off, P parent -> P (Builder.mk (Some parent) off)) :
  forall self, P self.
Proof.
fix IH 1. intros [[parent|] off].
- apply Hsub. apply IH.
- apply Hroot.
Qed.

Lemma u32_idem (z : Z) : u32 (u32 z) = u32 z.
Proof. unfold u32. apply Z.mod_mod. discriminate. Qed.

Lemma item_index_eq (self : Builder.t) (buffer : Buffer.t) :
  Builder.item_index self buffer
  = Buffer.committed buffer + Builder.m_item_offset self.
Proof. unfold Builder.item_index, Builder.item_pos. lia. Qed.

Lemma item_index_same (a : Builder.t) (b b' : Buffer.t) :
  Buffer.committed b' = Buffer.committed b ->
  Builder.item_index a b' = Builder.item_index a b.
Proof. intros H. rewrite !item_index_eq, H. reflexivity. Qed.

Lemma item_index_with_bytes (self : Builder.t) (b : Buffer.t) (x : list byte) :
  Builder.item_index self (Buffer.with_bytes b x) = Builder.item_index self b.
Proof. reflexivity. Qed.

Lemma size_range (self : Builder.t) (buffer : Buffer.t) :
  (0 <= Builder.size self buffer < u32_modulus)%Z.
Proof. apply load_u32_range. Qed.

(** [add_size] touches nothing but bytes of the arena. *)
Lemma add_size_with_bytes (self : Builder.t) (d : Z) (buffer : Buffer.t) :
  Builder.add_size self d buffer
  = Buffer.with_bytes buffer (Buffer.m_bytes (Builder.add_size self d buffer)).
Proof.
revert buffer. induction self as [off|parent off IH] using Builder_ind;
  intros buffer; cbn [Builder.add_size Builder.m_parent].
- reflexivity.
- rewrite IH at 1. reflexivity.
Qed.

Lemma add_size_written (self : Builder.t) (d : Z) (buffer : Buffer.t) :
  Buffer.written (Builder.add_size self d buffer) = Buffer.written buffer.
Proof.
revert buffer. induction self as [off|parent off IH] using Builder_ind;
  intros buffer; cbn [Builder.add_size Builder.m_parent].
- apply length_store_u32.
- rewrite IH. apply length_store_u32.
Qed.

Lemma add_size_committed (self : Builder.t) (d : Z) (buffer : Buffer.t) :
  Buffer.committed (Builder.add_size self d buffer) = Buffer.committed buffer.
Proof. rewrite add_size_with_bytes. reflexivity. Qed.

(** Bytes outside the size fields of the chain keep their value. *)
Lemma add_size_lookup_outside (self : Builder.t) (d : Z) (buffer : Buffer.t) (i : nat) :
  (forall a, In a (Builder.chain self) ->
             i < Builder.item_index a buffer \/ Builder.item_index a buffer + 4 <= i) ->
  Buffer.m_bytes (Builder.add_size self d buffer) !! i = Buffer.m_bytes buffer !! i.
Proof.
revert buffer. induction self as [off|parent off IH] using Builder_ind;
  intros buffer Hout; cbn [Builder.add_size Builder.m_parent].
- apply store_u32_lookup_outside. apply Hout. left. reflexivity.
- rewrite IH.
  + apply store_u32_lookup_outside. apply Hout. left. reflexivity.
  + intros a Ha. rewrite item_index_with_bytes. apply Hout. right. exact Ha.
Qed.

Lemma in_size_field_false (self : Builder.t) (buffer : Buffer.t) (i : nat) :
  Builder.in_size_field self buffer i = false <->
  (forall a, In a (Builder.chain self) ->
             i < Builder.item_index a buffer \/ Builder.item_index a buffer + 4 <= i).
Proof.
unfold Builder.in_size_field. split.
- intros H a Ha.
  destruct (decide (i < Builder.item_index a buffer
                    \/ Builder.item_index a buffer + 4 <= i)) as [|Hn]; [assumption|].
  assert (Ht : existsb
                 (fun a => (Builder.item_index a buffer <=? i)
                           && (i <? Builder.item_index a buffer + 4))
                 (Builder.chain self) = true).
  { apply existsb_exists. exists a. split; [exact Ha|].
    apply andb_true_intro. split; [apply Nat.leb_le | apply Nat.ltb_lt]; lia. }
  congruence.
- intros H. apply not_true_is_false. intros Ht.
  apply existsb_exists in Ht. destruct Ht as [a [Ha Hb]].
  apply andb_prop in Hb. destruct Hb as [H1 H2].
  apply Nat.leb_le in H1. apply Nat.ltb_lt in H2.
  specialize (H a Ha). lia.
Qed.

Lemma in_size_field_committed (self : Builder.t) (b b' : Buffer.t) (i : nat) :
  Buffer.committed b' = Buffer.committed b ->
  Builder.in_size_field self b' i = Builder.in_size_field self b i.
Proof.
intros Hc. unfold Builder.in_size_field.
induction (Builder.chain self) as [|a l IH]; cbn [existsb]; [reflexivity|].
rewrite IH, !item_index_eq, Hc. reflexivity.
Qed.

Lemma open_chain_header_in (self : Builder.t) (buffer : Buffer.t) :
  Builder.open_chain self buffer = true ->
  Builder.item_index self buffer + 4 <= Buffer.written buffer.
Proof.
destruct self as [parent off]. cbn [Builder.open_chain]. intros H.
apply andb_prop in H. destruct H as [H _].
unfold Builder.header_in in H. apply Nat.leb_le in H. exact H.
Qed.

Lemma open_chain_parent (parent : Builder.t) (off : nat) (buffer : Buffer.t) :
  Builder.open_chain (Builder.mk (Some parent) off) buffer = true ->
  Builder.m_item_offset parent + 4 <= off /\ Builder.open_chain parent buffer = true.
Proof.
cbn [Builder.open_chain Builder.m_parent Builder.m_item_offset]. intros H.
apply andb_prop in H. destruct H as [_ H].
apply andb_prop in H. destruct H as [H1 H2].
apply Nat.leb_le in H1. split; assumption.
Qed.

Lemma open_chain_all_in (self : Builder.t) (buffer : Buffer.t) :
  Builder.open_chain self buffer = true ->
  forall a, In a (Builder.chain self) ->
            Builder.item_index a buffer + 4 <= Buffer.written buffer
            /\ Builder.m_item_offset a <= Builder.m_item_offset self.
Proof.
induction self as [off|parent off IH] using Builder_ind; intros Hc a Ha.
- destruct Ha as [<-|[]]. split; [apply open_chain_header_in; exact Hc | lia].
- destruct Ha as [<-|Ha].
  + split; [apply open_chain_header_in; exact Hc | lia].
  + apply open_chain_parent in Hc. destruct Hc as [Hoff Hc].
    destruct (IH Hc a Ha) as [H1 H2]. split; [exact H1|].
    cbn [Builder.m_item_offset]. lia.
Qed.

(** [open_chain] looks at the arena only through [committed] and
    [written]. *)
Lemma open_chain_same_extent (self : Builder.t) (b b' : Buffer.t) :
  Buffer.committed b' = Buffer.committed b ->
  Buffer.written b <= Buffer.written b' ->
  Builder.open_chain self b = true -> Builder.open_chain self b' = true.
Proof.
intros Hc Hw. induction self as [off|parent off IH] using Builder_ind; intros H.
- pose proof (open_chain_header_in _ _ H) as Hin.
  cbn [Builder.open_chain Builder.m_parent]. rewrite andb_true_r.
  apply Nat.leb_le. rewrite item_index_eq in *. cbn in *. lia.
- pose proof (open_chain_header_in _ _ H) as Hin.
  apply open_chain_parent in H. destruct H as [Hoff H].
  cbn [Builder.open_chain Builder.m_parent Builder.m_item_offset].
  apply andb_true_intro. split.
  + apply Nat.leb_le. rewrite item_index_eq in *. cbn in *. lia.
  + apply andb_true_intro. split; [apply Nat.leb_le; exact Hoff | apply IH; exact H].
Qed.

(** The size of a builder depends only on the four bytes of its size
    field. *)
Lemma size_ext (a : Builder.t) (b b' : Buffer.t) :
  Buffer.committed b' = Buffer.committed b ->
  (forall i, Builder.item_index a b <= i < Builder.item_index a b + 4 ->
             Buffer.m_bytes b' !! i = Buffer.m_bytes b !! i) ->
  Builder.size a b' = Builder.size a b.
Proof.
intros Hc H. unfold Builder.size, Item.byte_size.
assert (Hi : Builder.item_index a b' = Builder.item_index a b)
  by (rewrite !item_index_eq; congruence).
rewrite Hi. apply load_u32_ext. exact H.
Qed.

(** [add_size] adds [d], modulo [2^32], to the size field of the builder and
    of each of its ancestors. *)
Lemma add_size_chain (self : Builder.t) (d : Z) (buffer : Buffer.t) :
  Builder.open_chain self buffer = true ->
  forall a, In a (Builder.chain self) ->
            Builder.size a (Builder.add_size self d buffer)
            = u32 (Builder.size a buffer + d).
Proof.
revert buffer. induction self as [off|parent off IH] using Builder_ind;
  intros buffer Hc a Ha.
- destruct Ha as [<-|[]]. cbn [Builder.add_size Builder.m_parent].
  pose proof (open_chain_header_in _ _ Hc) as Hin.
  unfold Builder.size, Item.byte_size, Item.add_size. cbn [Buffer.m_bytes Buffer.with_bytes].
  rewrite item_index_with_bytes. rewrite load_store_u32 by exact Hin.
  apply u32_idem.
- pose proof (open_chain_header_in _ _ Hc) as Hin.
  pose proof (open_chain_parent _ _ _ Hc) as [Hoff Hp].
  cbn [Builder.add_size Builder.m_parent].
  set (self := Builder.mk (Some parent) off) in *.
  set (buffer1 := Buffer.with_bytes buffer
                    (Item.add_size (Buffer.m_bytes buffer)
                       (Builder.item_index self buffer) d)).
  assert (Hp1 : Builder.open_chain parent buffer1 = true).
  { apply (open_chain_same_extent parent buffer); [reflexivity| |exact Hp].
    unfold buffer1, Buffer.written. cbn [Buffer.m_bytes Buffer.with_bytes].
    unfold Item.add_size. rewrite length_store_u32. lia. }
  destruct Ha as [<-|Ha].
  + transitivity (Builder.size self buffer1).
    * apply size_ext; [apply add_size_committed|].
      intros i Hi. apply add_size_lookup_outside. intros a Ha.
      destruct (open_chain_all_in _ _ Hp1 a Ha) as [_ Hle].
      rewrite !item_index_eq in *. cbn in *. lia.
    * unfold Builder.size, Item.byte_size, buffer1, Item.add_size.
      cbn [Buffer.m_bytes Buffer.with_bytes]. rewrite item_index_with_bytes.
      rewrite load_store_u32 by exact Hin. apply u32_idem.
  + rewrite (IH buffer1 Hp1 a Ha). f_equal. f_equal.
    apply size_ext; [reflexivity|]. intros i Hi.
    unfold buffer1, Item.add_size. cbn [Buffer.m_bytes Buffer.with_bytes].
    apply store_u32_lookup_outside.
    destruct (open_chain_all_in _ _ Hp a Ha) as [_ Hle].
    rewrite !item_index_eq in *. cbn in *. lia.
Qed.

End ChainFacts.

(** ** Reserving and appending *)

Section AppendFacts.
Import Mem.

Lemma copy_n_app_r (src pre region : list byte) (k : nat) :
  copy_n src (length pre + k) (pre ++ region) = pre ++ copy_n src k region.
Proof.
revert k region. induction src as [|x src IH]; intros k region; cbn [copy_n].
- reflexivity.
- rewrite insert_app_r. rewrite <- Nat.add_succ_r. apply IH.
Qed.

Lemma copy_n_zero (src region : list byte) :
  length region = length src -> copy_n src 0 region = src.
Proof.
intros H. pose proof (copy_n_tail src [] region H) as E. exact E.
Qed.

Lemma reserve_space_extend (n : nat) (b : Buffer.t) :
  Buffer.reserve_space n b
  = (Buffer.written b,
     Buffer.extend b (map (Buffer.m_uninit b) (seq (Buffer.written b) n))).
Proof.
unfold Buffer.reserve_space, Buffer.extend.
rewrite length_map, length_seq. reflexivity.
Qed.

Lemma extend_with_bytes (b : Buffer.t) (region : list byte) (bytes : list byte) :
  length bytes = length region ->
  Buffer.with_bytes (Buffer.extend b region) (Buffer.m_bytes b ++ bytes)
  = Buffer.extend b bytes.
Proof.
intros H. unfold Buffer.with_bytes, Buffer.extend. cbn. rewrite H. reflexivity.
Qed.

Lemma written_extend (b : Buffer.t) (tail : list byte) :
  Buffer.written (Buffer.extend b tail) = Buffer.written b + length tail.
Proof. unfold Buffer.written. cbn. apply length_app. Qed.

Lemma copy_n_written (src region : list byte) (b : Buffer.t) :
  copy_n src (Buffer.written b) (Buffer.m_bytes b ++ region)
  = Buffer.m_bytes b ++ copy_n src 0 region.
Proof.
unfold Buffer.written. rewrite <- (Nat.add_0_r (length (Buffer.m_bytes b))).
apply copy_n_app_r.
Qed.

Lemma insert_written (region : list byte) (b : Buffer.t) (k : nat) (x : byte) :
  <[Buffer.written b + k := x]> (Buffer.m_bytes b ++ region)
  = Buffer.m_bytes b ++ <[k := x]> region.
Proof. unfold Buffer.written. apply insert_app_r. Qed.

(** Every call of the append family leaves the arena as it was, with
    something put at its end. *)
Lemma append_extends (data : list byte) (len : Z) (b : Buffer.t) :
  exists tail, length tail = Z.to_nat len /\
               tail = copy_n (take (Z.to_nat len) data) 0
                        (map (Buffer.m_uninit b) (seq (Buffer.written b) (Z.to_nat len))) /\
               Builder.append data len b = (len, Buffer.extend b tail).
Proof.
unfold Builder.append, Builder.reserve_space. rewrite reserve_space_extend.
set (region := map (Buffer.m_uninit b) (seq (Buffer.written b) (Z.to_nat len))).
assert (Hr : length region = Z.to_nat len)
  by (unfold region; rewrite length_map, length_seq; reflexivity).
exists (copy_n (take (Z.to_nat len) data) 0 region). split; [|split].
- rewrite length_copy_n. exact Hr.
- reflexivity.
- f_equal. cbn [Buffer.m_bytes Buffer.extend].
  rewrite copy_n_written. apply extend_with_bytes. apply length_copy_n.
Qed.

Lemma append_with_zero_extends (data : list byte) (len : Z) (b : Buffer.t) :
  exists tail, length tail = Z.to_nat (u32 (len + 1)) /\
               tail = <[Z.to_nat len := "000"%byte]>
                        (copy_n (take (Z.to_nat len) data) 0
                           (map (Buffer.m_uninit b)
                              (seq (Buffer.written b) (Z.to_nat (u32 (len + 1)))))) /\
               Builder.append_with_zero data len b
               = (u32 (len + 1), Buffer.extend b tail).
Proof.
unfold Builder.append_with_zero, Builder.reserve_space. rewrite reserve_space_extend.
set (n := Z.to_nat (u32 (len + 1))).
set (region := map (Buffer.m_uninit b) (seq (Buffer.written b) n)).
assert (Hr : length region = n)
  by (unfold region; rewrite length_map, length_seq; reflexivity).
exists (<[Z.to_nat len := "000"%byte]> (copy_n (take (Z.to_nat len) data) 0 region)).
split; [|split].
- rewrite length_insert, length_copy_n. exact Hr.
- reflexivity.
- f_equal. cbn [Buffer.m_bytes Buffer.extend].
  rewrite copy_n_written, insert_written.
  apply extend_with_bytes. rewrite length_insert. apply length_copy_n.
Qed.

Lemma append_str_extends (str : list byte) (b : Buffer.t) :
  exists tail, Builder.append_str str b
               = (u32 (Z.of_nat (Builder.strlen str) + 1), Buffer.extend b tail).
Proof.
unfold Builder.append_str.
destruct (append_extends (str ++ ["000"%byte])
            (u32 (Z.of_nat (Builder.strlen str) + 1)) b) as [tail [_ [_ H]]].
exists tail. exact H.
Qed.

Lemma grown_by_extend (b : Buffer.t) (tail : list byte) :
  Buffer.grown_by b tail (Buffer.extend b tail).
Proof. unfold Buffer.grown_by. cbn. auto. Qed.

Lemma grown_by_nil (b : Buffer.t) : Buffer.grown_by b [] b.
Proof. unfold Buffer.grown_by. rewrite app_nil_r. auto. Qed.

Lemma grown_by_trans (b1 b2 b3 : Buffer.t) (t1 t2 : list byte) :
  Buffer.grown_by b1 t1 b2 -> Buffer.grown_by b2 t2 b3 ->
  Buffer.grown_by b1 (t1 ++ t2) b3.
Proof.
unfold Buffer.grown_by. intros (H1 & H2 & H3 & H4 & H5) (G1 & G2 & G3 & G4 & G5).
rewrite G1, H1, app_assoc. repeat split; congruence.
Qed.

Lemma do_append_grows (c : append_call) (b : Buffer.t) :
  exists tail, Buffer.grown_by b tail (snd (do_append c b)).
Proof.
destruct c as [data len|data len|str]; cbn [do_append].
- destruct (append_extends data len b) as [tail [_ [_ H]]].
  exists tail. rewrite H. apply grown_by_extend.
- destruct (append_with_zero_extends data len b) as [tail [_ [_ H]]].
  exists tail. rewrite H. apply grown_by_extend.
- destruct (append_str_extends str b) as [tail H].
  exists tail. rewrite H. apply grown_by_extend.
Qed.

Lemma do_appends_grows (cs : list append_call) (b : Buffer.t) :
  exists tail, Buffer.grown_by b tail (snd (do_appends cs b)).
Proof.
revert b. induction cs as [|c cs IH]; intros b; cbn [do_appends].
- exists []. apply grown_by_nil.
- destruct (do_append_grows c b) as [t1 H1].
  destruct (do_append c b) as [n b1]. cbn [snd] in H1.
  destruct (IH b1) as [t2 H2].
  destruct (do_appends cs b1) as [total b2]. cbn [snd] in *.
  exists (t1 ++ t2). eapply grown_by_trans; eassumption.
Qed.

(** With a readable source of the stated length, the calls put exactly the
    source, and the terminator where there is one, at the end. *)
Lemma append_fits (data : list byte) (len : Z) (b : Buffer.t) :
  len = Z.of_nat (length data) ->
  Builder.append data len b = (len, Buffer.extend b data).
Proof.
intros Hlen. destruct (append_extends data len b) as [tail [Hl [Ht H]]].
rewrite H. f_equal. f_equal. rewrite Ht.
assert (Hn : Z.to_nat len = length data) by lia.
rewrite Hn, firstn_all. apply copy_n_zero.
rewrite length_map, length_seq. reflexivity.
Qed.

Lemma append_with_zero_fits (data : list byte) (len : Z) (b : Buffer.t) :
  len = Z.of_nat (length data) -> (len + 1 < u32_modulus)%Z ->
  Builder.append_with_zero data len b
  = ((len + 1)%Z, Buffer.extend b (data ++ ["000"%byte])).
Proof.
intros Hlen Hfit. destruct (append_with_zero_extends data len b) as [tail [Hl [Ht H]]].
rewrite H. rewrite u32_small in * by lia. f_equal. f_equal. rewrite Ht.
assert (Hn : Z.to_nat len = length data) by lia.
assert (Hn1 : Z.to_nat (len + 1) = S (length data)) by lia.
rewrite Hn, Hn1, firstn_all.
set (region := map (Buffer.m_uninit b) (seq (Buffer.written b) (S (length data)))).
assert (Hr : length region = S (length data))
  by (unfold region; rewrite length_map, length_seq; reflexivity).
clearbody region.
assert (Hsplit : region = take (length data) region ++ drop (length data) region)
  by (symmetry; apply take_drop).
destruct (drop (length data) region) as [|x [|y rest]] eqn:Hd.
- apply (f_equal length) in Hd. rewrite length_drop in Hd. cbn [length] in Hd. lia.
- rewrite Hsplit.
  pose proof (copy_n_app data [] (take (length data) region) [x]) as Hc.
  cbn [length app] in Hc. rewrite Hc by (rewrite length_take; lia).
  rewrite insert_app_r_alt by lia. rewrite Nat.sub_diag. reflexivity.
- apply (f_equal length) in Hd. rewrite length_drop in Hd. cbn [length] in Hd. lia.
Qed.

Lemma append_str_fits (str : list byte) (b : Buffer.t) :
  Builder.strlen str = length str ->
  (Z.of_nat (length str) + 1 < u32_modulus)%Z ->
  Builder.append_str str b
  = ((Z.of_nat (length str) + 1)%Z, Buffer.extend b (str ++ ["000"%byte])).
Proof.
intros Hs Hfit. unfold Builder.append_str. rewrite Hs.
rewrite u32_small by lia. apply append_fits.
rewrite length_app. cbn. lia.
Qed.



(** Growth at the tail is the strongest frame. *)
Lemma grown_by_preserves (b b' : Buffer.t) (tail : list byte) :
  Buffer.grown_by b tail b' -> preserves nowhere b b'.
Proof.
intros (H1 & H2 & _). unfold preserves, Buffer.written, Buffer.committed.
rewrite H1, length_app. repeat split; [exact H2 | lia |].
intros i Hi _. apply lookup_app_l. exact Hi.
Qed.

Lemma preserves_refl (touch : nat -> bool) (b : Buffer.t) : preserves touch b b.
Proof. unfold preserves. auto. Qed.

Lemma preserves_weaken (touch touch' : nat -> bool) (b b' : Buffer.t) :
  (forall i, i < Buffer.written b -> touch' i = false -> touch i = false) ->
  preserves touch b b' -> preserves touch' b b'.
Proof.
intros Hw (H1 & H2 & H3). repeat split; [exact H1 | exact H2 |].
intros i Hi Ht. apply H3; [exact Hi | apply Hw; assumption].
Qed.

Lemma preserves_trans (touch : nat -> bool) (b1 b2 b3 : Buffer.t) :
  preserves touch b1 b2 -> preserves touch b2 b3 -> preserves touch b1 b3.
Proof.
intros (H1 & H2 & H3) (G1 & G2 & G3). repeat split; [congruence | lia |].
intros i Hi Ht. rewrite G3 by (assumption || lia). apply H3; assumption.
Qed.

Lemma preserves_size (touch : nat -> bool) (a : Builder.t) (b b' : Buffer.t) :
  preserves touch b b' ->
  Builder.item_index a b + 4 <= Buffer.written b ->
  (forall i, Builder.item_index a b <= i < Builder.item_index a b + 4 ->
             touch i = false) ->
  Builder.size a b' = Builder.size a b.
Proof.
intros (H1 & H2 & H3) Hin Ht. apply size_ext; [exact H1|].
intros i Hi. apply H3; [lia | apply Ht; exact Hi].
Qed.

Lemma preserves_open_chain (touch : nat -> bool) (self : Builder.t) (b b' : Buffer.t) :
  preserves touch b b' ->
  Builder.open_chain self b = true -> Builder.open_chain self b' = true.
Proof.
intros (H1 & H2 & _). apply open_chain_same_extent; assumption.
Qed.

Lemma add_size_preserves (self : Builder.t) (d : Z) (b : Buffer.t) :
  preserves (Builder.in_size_field self b) b (Builder.add_size self d b).
Proof.
repeat split.
- apply add_size_committed.
- rewrite add_size_written. lia.
- intros i _ Ht. apply add_size_lookup_outside.
  apply in_size_field_false. exact Ht.
Qed.

End AppendFacts.

(** ** Padding, attaching, opening *)

Section BuilderFacts.
Import Mem.

Lemma fill_n_written (b : Buffer.t) (n : nat) (v : byte) (region : list byte) :
  length region = n ->
  fill_n (Buffer.written b) n v (Buffer.m_bytes b ++ region)
  = Buffer.m_bytes b ++ replicate n v.
Proof.
intros H. unfold fill_n. rewrite copy_n_written. f_equal.
apply copy_n_zero. rewrite length_replicate. exact H.
Qed.

(** On an aligned size, [add_padding] returns at once and hands back the
    arena it was given. *)
Lemma add_padding_aligned (NDEBUG self_ : bool) (self : Builder.t) (b : Buffer.t) :
  (Builder.size self b mod Item.align_bytes = 0)%Z ->
  Builder.add_padding NDEBUG self_ self b = Done b.
Proof.
intros H. unfold Builder.add_padding. rewrite H. reflexivity.
Qed.

Lemma add_padding_unaligned (NDEBUG self_ : bool) (self : Builder.t) (b : Buffer.t) :
  (Builder.size self b mod Item.align_bytes <> 0)%Z ->
  let p := padding_of (Builder.size self b) in
  let b1 := Buffer.extend b (replicate (Z.to_nat p) "000"%byte) in
  Builder.add_padding NDEBUG self_ self b
  = if self_ then Done (Builder.add_size self p b1)
    else match Builder.m_parent self with
         | Some parent =>
             _ <- assert NDEBUG
                    (Builder.size parent (Builder.add_size parent p b1)
                     mod Item.align_bytes =? 0)%Z ;;
             Done (Builder.add_size parent p b1)
         | None => Done b1
         end.
Proof.
intros Hmod p b1. unfold Builder.add_padding.
assert (Hr : (0 <= Builder.size self b mod Item.align_bytes < Item.align_bytes)%Z)
  by (apply Z.mod_pos_bound; reflexivity).
unfold Item.align_bytes in Hr, Hmod.
assert (Hp : u32 (Item.align_bytes - Builder.size self b mod Item.align_bytes) = p).
{ unfold p, padding_of, Item.align_bytes. apply u32_small.
  unfold u32_modulus. change (2 ^ 32)%Z with 4294967296%Z. lia. }
rewrite Hp.
assert (Hne : (p =? Item.align_bytes)%Z = false).
{ apply Z.eqb_neq. unfold p, padding_of, Item.align_bytes. lia. }
rewrite Hne. unfold Builder.reserve_space. rewrite reserve_space_extend.
cbn [Buffer.m_bytes Buffer.extend].
rewrite fill_n_written by (rewrite length_map, length_seq; reflexivity).
rewrite extend_with_bytes
  by (rewrite length_replicate, length_map, length_seq; reflexivity).
fold b1. destruct self_; [reflexivity|].
destruct (Builder.m_parent self); reflexivity.
Qed.

Lemma buffer_add_item_extend (item : list byte) (b : Buffer.t) :
  Z.to_nat (Item.padded_size item) <= length item ->
  Buffer.add_item item b
  = Buffer.extend b (take (Z.to_nat (Item.padded_size item)) item).
Proof.
intros H. unfold Buffer.add_item. rewrite reserve_space_extend.
cbn [Buffer.m_bytes Buffer.extend]. rewrite copy_n_written.
rewrite copy_n_zero
  by (rewrite length_take, length_map, length_seq; lia).
apply extend_with_bytes.
rewrite length_take, length_map, length_seq. lia.
Qed.

Lemma buffer_add_item_grows (item : list byte) (b : Buffer.t) :
  exists tail, length tail = Z.to_nat (Item.padded_size item) /\
               Buffer.add_item item b = Buffer.extend b tail.
Proof.
unfold Buffer.add_item. rewrite reserve_space_extend.
cbn [Buffer.m_bytes Buffer.extend]. rewrite copy_n_written.
eexists. split; [|apply extend_with_bytes; apply length_copy_n].
rewrite length_copy_n, length_map, length_seq. reflexivity.
Qed.

Lemma size_extend (a : Builder.t) (b : Buffer.t) (tail : list byte) :
  Builder.item_index a b + 4 <= Buffer.written b ->
  Builder.size a (Buffer.extend b tail) = Builder.size a b.
Proof.
intros H. apply (preserves_size nowhere); [|exact H|reflexivity].
eapply grown_by_preserves. apply grown_by_extend.
Qed.

Lemma open_chain_extend (self : Builder.t) (b : Buffer.t) (tail : list byte) :
  Builder.open_chain self b = true ->
  Builder.open_chain self (Buffer.extend b tail) = true.
Proof.
apply (preserves_open_chain nowhere).
eapply grown_by_preserves. apply grown_by_extend.
Qed.

(** What the constructor and the header's construction leave behind. *)
Lemma open_done (NDEBUG : bool) (b : Buffer.t) (parent : option Builder.t) (H : Z)
    (self : Builder.t) (b' : Buffer.t) :
  Builder.open NDEBUG b parent H = Done (self, b') ->
  Buffer.committed b <= Buffer.written b ->
  (4 <= H < u32_modulus)%Z ->
  open_chain_opt parent b = true ->
  self = Builder.mk parent (Buffer.written b - Buffer.committed b) /\
  Builder.open_chain self b' = true /\
  Builder.size self b' = H /\
  Buffer.written b' = Buffer.written b + Z.to_nat H /\
  Buffer.builder_count b'
  = (if NDEBUG then Buffer.builder_count b else Buffer.builder_count b + 1)%Z /\
  (forall p, parent = Some p -> forall a, In a (Builder.chain p) ->
     Builder.size a b' = u32 (Builder.size a b + H)) /\
  preserves (size_fields parent b) b b'.
Proof.
intros Hopen Hcw HH Hchain.
unfold Builder.open, Builder.ctor, Builder.reserve_space in Hopen.
rewrite reserve_space_extend in Hopen.
set (region := map (Buffer.m_uninit b) (seq (Buffer.written b) (Z.to_nat H))) in *.
assert (Hregion : length region = Z.to_nat H)
  by (unfold region; rewrite length_map, length_seq; reflexivity).
set (b1 := Buffer.extend b region) in *.
set (self0 := Builder.mk parent (Buffer.written b - Buffer.committed b)) in *.
set (b2 := match parent with
           | Some p => Builder.add_size p H b1
           | None => b1
           end).
set (b3 := if NDEBUG then b2 else Buffer.increment_builder_count b2).
assert (Hres : self = self0 /\
               b' = Buffer.with_bytes b3
                      (Item.init (Buffer.m_bytes b3) (Builder.item_index self0 b3) H)).
{ destruct (assert NDEBUG (Buffer.is_aligned b1)); [|discriminate].
  cbn [bind] in Hopen. unfold b3, b2. destruct parent as [p|].
  - destruct (assert NDEBUG (Buffer.builder_count b1 =? 1)%Z); [|discriminate].
    cbn [bind] in Hopen. injection Hopen as <- <-. split; reflexivity.
  - destruct (assert NDEBUG (Buffer.builder_count b1 =? 0)%Z); [|discriminate].
    cbn [bind] in Hopen. injection Hopen as <- <-. split; reflexivity. }
destruct Hres as [-> ->]. clear Hopen.
assert (Hb2 : b2 = Buffer.with_bytes b1 (Buffer.m_bytes b2)).
{ unfold b2. destruct parent as [p|]; [apply add_size_with_bytes|].
  destruct b1; reflexivity. }
assert (Hw1 : Buffer.written b1 = Buffer.written b + Z.to_nat H)
  by (unfold b1; rewrite written_extend; lia).
assert (Hw2 : Buffer.written b2 = Buffer.written b1).
{ unfold b2. destruct parent as [p|]; [apply add_size_written|reflexivity]. }
assert (Hb3 : Buffer.m_bytes b3 = Buffer.m_bytes b2
              /\ Buffer.committed b3 = Buffer.committed b
              /\ Buffer.builder_count b3
                 = (if NDEBUG then Buffer.builder_count b
                    else Buffer.builder_count b + 1)%Z).
{ unfold b3. rewrite Hb2. destruct NDEBUG; cbn; auto. }
destruct Hb3 as (Hbytes3 & Hc3 & Hcount3).
assert (Hidx : Builder.item_index self0 b3 = Buffer.written b).
{ rewrite item_index_eq, Hc3. unfold self0. cbn [Builder.m_item_offset]. lia. }
assert (Hw3 : Buffer.written b3 = Buffer.written b + Z.to_nat H).
{ unfold Buffer.written at 1. rewrite Hbytes3. fold (Buffer.written b2). lia. }
set (bf := Buffer.with_bytes b3
             (Item.init (Buffer.m_bytes b3) (Builder.item_index self0 b3) H)).
assert (Hwf : Buffer.written bf = Buffer.written b + Z.to_nat H).
{ unfold bf, Buffer.written at 1. cbn [Buffer.m_bytes Buffer.with_bytes].
  unfold Item.init. rewrite length_store_u32. exact Hw3. }
assert (Hcf : Buffer.committed bf = Buffer.committed b) by exact Hc3.
assert (Hpres12 : preserves (size_fields parent b) b b2).
{ apply (preserves_trans _ b b1 b2).
  - apply (preserves_weaken nowhere); [reflexivity|].
    eapply grown_by_preserves. apply grown_by_extend.
  - unfold b2. destruct parent as [p|]; [|apply preserves_refl].
    apply (preserves_weaken (Builder.in_size_field p b1)); [|apply add_size_preserves].
    intros i _ Hi. cbn [size_fields] in Hi.
    rewrite (in_size_field_committed p b b1) by reflexivity. exact Hi. }
assert (Hpres : preserves (size_fields parent b) b bf).
{ destruct Hpres12 as (P1 & P2 & P3). repeat split; [exact Hcf | lia |].
  intros i Hi Ht. unfold bf. cbn [Buffer.m_bytes Buffer.with_bytes].
  unfold Item.init. rewrite store_u32_lookup_outside by lia.
  rewrite Hbytes3. apply P3; assumption. }
split; [reflexivity|]. split; [|split; [|split; [exact Hwf|split; [exact Hcount3|split; [|exact Hpres]]]]].
- unfold self0. cbn [Builder.open_chain Builder.m_parent Builder.m_item_offset].
  apply andb_true_intro. split.
  + unfold Builder.header_in. apply Nat.leb_le.
    rewrite item_index_eq, Hcf, Hwf. cbn [Builder.m_item_offset]. lia.
  + destruct parent as [p|]; [|reflexivity]. cbn [open_chain_opt] in Hchain.
    apply andb_true_intro. split.
    * apply Nat.leb_le. pose proof (open_chain_header_in _ _ Hchain) as Hin.
      rewrite item_index_eq in Hin. lia.
    * apply (open_chain_same_extent p b); [exact Hcf | lia | exact Hchain].
- unfold Builder.size, Item.byte_size, bf. cbn [Buffer.m_bytes Buffer.with_bytes].
  rewrite item_index_with_bytes. unfold Item.init.
  rewrite load_store_u32 by (rewrite Hidx; fold (Buffer.written b3); lia).
  rewrite u32_idem. apply u32_small. lia.
- intros p -> a Ha. cbn [open_chain_opt] in Hchain.
  destruct (open_chain_all_in _ _ Hchain a Ha) as [Hin _].
  assert (Hc2 : Buffer.committed b2 = Buffer.committed b)
    by (unfold b2; rewrite add_size_committed; reflexivity).
  transitivity (Builder.size a b2).
  + apply size_ext; [rewrite Hc2; exact Hc3|]. intros i Hi.
    unfold bf. cbn [Buffer.m_bytes Buffer.with_bytes]. unfold Item.init.
    rewrite store_u32_lookup_outside.
    * rewrite Hbytes3. reflexivity.
    * rewrite Hidx. left. rewrite (item_index_same a b b2 Hc2) in Hi. lia.
  + unfold b2. rewrite add_size_chain by (try exact Ha; apply open_chain_extend; exact Hchain).
    f_equal. f_equal. apply size_extend. exact Hin.
Qed.

End BuilderFacts.

(** ** Steps of a chain *)

Section StepFacts.
Import Mem.

Lemma in_size_field_sub (parent : Builder.t) (off : nat) (b : Buffer.t) (i : nat) :
  Builder.in_size_field (Builder.mk (Some parent) off) b i
  = (Builder.item_index (Builder.mk (Some parent) off) b <=? i)
      && (i <? Builder.item_index (Builder.mk (Some parent) off) b + 4)
    || Builder.in_size_field parent b i.
Proof. reflexivity. Qed.

Lemma in_size_field_parent (self parent : Builder.t) (b : Buffer.t) (i : nat) :
  Builder.m_parent self = Some parent ->
  Builder.in_size_field self b i = false ->
  Builder.in_size_field parent b i = false.
Proof.
destruct self as [[q|] off]; cbn [Builder.m_parent]; [|discriminate].
intros [= ->]. rewrite in_size_field_sub. intros H.
apply orb_false_elim in H. apply H.
Qed.

Lemma add_size_after_extend_preserves (self a : Builder.t) (d : Z) (b : Buffer.t)
    (tail : list byte) :
  (forall i, Builder.in_size_field self b i = false ->
             Builder.in_size_field a b i = false) ->
  preserves (Builder.in_size_field self b) b
    (Builder.add_size a d (Buffer.extend b tail)).
Proof.
intros Hsub. apply (preserves_trans _ b (Buffer.extend b tail)).
- apply (preserves_weaken nowhere); [reflexivity|].
  eapply grown_by_preserves. apply grown_by_extend.
- apply (preserves_weaken (Builder.in_size_field a (Buffer.extend b tail)));
    [|apply add_size_preserves].
  intros i _ Hi. rewrite (in_size_field_committed a b) by reflexivity.
  apply Hsub. exact Hi.
Qed.

Lemma extend_preserves (touch : nat -> bool) (b : Buffer.t) (tail : list byte) :
  preserves touch b (Buffer.extend b tail).
Proof.
apply (preserves_weaken nowhere); [reflexivity|].
eapply grown_by_preserves. apply grown_by_extend.
Qed.

Lemma add_padding_preserves (NDEBUG self_ : bool) (self : Builder.t) (b b' : Buffer.t) :
  Builder.add_padding NDEBUG self_ self b = Done b' ->
  preserves (Builder.in_size_field self b) b b'.
Proof.
destruct (Z.eq_dec (Builder.size self b mod Item.align_bytes)%Z 0%Z) as [Hal|Hun].
- rewrite add_padding_aligned by exact Hal. intros [= <-]. apply preserves_refl.
- rewrite add_padding_unaligned by exact Hun. cbv zeta.
  destruct self_.
  + intros [= <-]. apply add_size_after_extend_preserves. auto.
  + destruct (Builder.m_parent self) as [parent|] eqn:Hp.
    * destruct (assert NDEBUG _); cbn [bind]; [|discriminate].
      intros [= <-]. apply add_size_after_extend_preserves.
      intros i. apply in_size_field_parent. exact Hp.
    * intros [= <-]. apply extend_preserves.
Qed.

Lemma add_item_preserves (self : Builder.t) (item : list byte) (b : Buffer.t) :
  preserves (Builder.in_size_field self b) b (Builder.add_item self item b).
Proof.
unfold Builder.add_item.
destruct (buffer_add_item_grows item b) as [tail [_ ->]].
apply add_size_after_extend_preserves. auto.
Qed.

Lemma do_append_preserves (touch : nat -> bool) (c : append_call) (b : Buffer.t) :
  preserves touch b (snd (do_append c b)).
Proof.
destruct (do_append_grows c b) as [tail H].
apply (preserves_weaken nowhere); [reflexivity|].
eapply grown_by_preserves. exact H.
Qed.

(** One operation keeps the chain well formed, writes below the old tail
    only in size fields of the chain, and leaves no size field of the new
    chain below the old tail that was not one before. *)
Lemma step_frame (NDEBUG : bool) (o : op) (cur cur' : option Builder.t)
    (b b' : Buffer.t) :
  well_formed (cur, b) -> header_fits o ->
  step NDEBUG o (cur, b) = Done (cur', b') ->
  well_formed (cur', b') /\
  preserves (size_fields cur b) b b' /\
  (forall i, i < Buffer.written b -> size_fields cur b i = false ->
             size_fields cur' b' i = false).
Proof.
intros [Hcw Hchain] Hfit Hstep. cbn [fst snd] in Hcw, Hchain.
assert (Hgen : forall bb, cur' = cur -> preserves (size_fields cur b) b bb ->
          well_formed (cur, bb) /\ preserves (size_fields cur b) b bb /\
          (forall i, i < Buffer.written b -> size_fields cur b i = false ->
                     size_fields cur bb i = false)).
{ intros bb _ Hp. pose proof Hp as (P1 & P2 & P3). split; [|split; [exact Hp|]].
  - split; cbn [fst snd]; [rewrite P1; lia|].
    destruct cur as [self|]; [|reflexivity].
    apply (preserves_open_chain _ self b bb Hp). exact Hchain.
  - intros i _ Hi. destruct cur as [self|]; [|reflexivity].
    cbn [size_fields] in *. rewrite (in_size_field_committed self b bb) by exact P1.
    exact Hi. }
destruct o as [H| |c|self_|delta|item]; cbn [step] in Hstep.
- (* Open *)
  destruct (Builder.open NDEBUG b cur H) as [[self b1]|] eqn:Hopen; [|discriminate].
  cbn [bind fst snd] in Hstep. injection Hstep as <- <-.
  cbn [header_fits] in Hfit.
  destruct (open_done _ _ _ _ _ _ Hopen Hcw Hfit Hchain)
    as (Hself & Hoc & Hsize & Hw & Hcount & Hanc & Hpres).
  pose proof Hpres as (P1 & P2 & P3).
  split; [|split; [exact Hpres|]].
  + split; cbn [fst snd]; [rewrite P1; lia | exact Hoc].
  + intros i Hi Hfalse. cbn [size_fields]. subst self.
    destruct cur as [p|].
    * rewrite in_size_field_sub. apply orb_false_intro.
      -- apply andb_false_intro1. apply Nat.leb_gt.
         rewrite item_index_eq, P1. cbn [Builder.m_item_offset]. lia.
      -- rewrite (in_size_field_committed p b b1) by exact P1. exact Hfalse.
    * unfold Builder.in_size_field. cbn [Builder.chain Builder.m_parent existsb].
      rewrite orb_false_r. apply andb_false_intro1. apply Nat.leb_gt.
      rewrite item_index_eq, P1. cbn [Builder.m_item_offset]. lia.
- (* Close *)
  destruct cur as [self|].
  + injection Hstep as <- <-.
    assert (Hd : preserves (size_fields (Some self) b) b (Builder.dtor NDEBUG b)).
    { unfold Builder.dtor. destruct NDEBUG; [apply preserves_refl|].
      repeat split; auto. }
    split; [|split; [exact Hd|]].
    * split; cbn [fst snd].
      -- destruct Hd as (P1 & P2 & _). rewrite P1. lia.
      -- destruct self as [[p|] off]; cbn [Builder.m_parent open_chain_opt];
           [|reflexivity].
         apply open_chain_parent in Hchain. destruct Hchain as [_ Hp].
         apply (preserves_open_chain _ p b _ Hd). exact Hp.
    * intros i _ Hi. destruct (Builder.m_parent self) as [p|] eqn:Hp;
        [|reflexivity].
      cbn [size_fields] in *.
      rewrite (in_size_field_committed p b)
        by (unfold Builder.dtor; destruct NDEBUG; reflexivity).
      eapply in_size_field_parent; eassumption.
  + injection Hstep as <- <-. apply Hgen; [reflexivity | apply preserves_refl].
- (* Append *)
  destruct cur as [self|]; injection Hstep as <- <-.
  + apply Hgen; [reflexivity | apply do_append_preserves].
  + apply Hgen; [reflexivity | apply preserves_refl].
- (* Pad *)
  destruct cur as [self|].
  + destruct (Builder.add_padding NDEBUG self_ self b) as [b1|] eqn:Hpad;
      [|discriminate].
    cbn [bind] in Hstep. injection Hstep as <- <-.
    apply Hgen; [reflexivity|]. eapply add_padding_preserves. exact Hpad.
  + injection Hstep as <- <-. apply Hgen; [reflexivity | apply preserves_refl].
- (* Grow *)
  destruct cur as [self|]; injection Hstep as <- <-.
  + apply Hgen; [reflexivity | apply add_size_preserves].
  + apply Hgen; [reflexivity | apply preserves_refl].
- (* Attach *)
  destruct cur as [self|]; injection Hstep as <- <-.
  + apply Hgen; [reflexivity | apply add_item_preserves].
  + apply Hgen; [reflexivity | apply preserves_refl].
Qed.

Lemma run_frame (NDEBUG : bool) (ops : list op) :
  forall (cur cur' : option Builder.t) (b b' : Buffer.t)
         (touch : nat -> bool) (W : nat),
  well_formed (cur, b) -> Forall header_fits ops ->
  run NDEBUG ops (cur, b) = Done (cur', b') ->
  W <= Buffer.written b ->
  (forall i, i < W -> touch i = false -> size_fields cur b i = false) ->
  well_formed (cur', b') /\
  Buffer.committed b' = Buffer.committed b /\
  Buffer.written b <= Buffer.written b' /\
  (forall i, i < W -> touch i = false ->
             Buffer.m_bytes b' !! i = Buffer.m_bytes b !! i).
Proof.
induction ops as [|o ops IH]; intros cur cur' b b' touch W Hwf Hfits Hrun HW Htouch.
- cbn [run] in Hrun. injection Hrun as <- <-. auto.
- cbn [run] in Hrun. inversion Hfits as [|? ? Hfit Hfits']; subst.
  destruct (step NDEBUG o (cur, b)) as [[cur1 b1]|] eqn:Hstep; [|discriminate].
  cbn [bind] in Hrun.
  destruct (step_frame _ _ _ _ _ _ Hwf Hfit Hstep) as (Hwf1 & (P1 & P2 & P3) & Hnew).
  destruct (IH cur1 cur' b1 b' touch W Hwf1 Hfits' Hrun) as (Hwf' & Q1 & Q2 & Q3).
  + lia.
  + intros i Hi Ht. apply Hnew; [lia|]. apply Htouch; assumption.
  + split; [exact Hwf'|]. split; [congruence|]. split; [lia|].
    intros i Hi Ht. rewrite Q3 by assumption.
    apply P3; [lia|]. apply Htouch; assumption.
Qed.

End StepFacts.

(** ** Size propagation (C1, C2) *)

(** C1 (amended): on an open chain, [add_size self delta] leaves in the size
    field of [self] and of every ancestor the old size plus [delta] reduced
    modulo [2^32]; the increase is exactly [delta] whenever the sum still
    fits the 32-bit field. *)
Theorem add_size_propagates (self : Builder.t) (delta : Z) (buffer : Buffer.t) :
  Builder.open_chain self buffer = true ->
  forall a, In a (Builder.chain self) ->
    Builder.size a (Builder.add_size self delta buffer)
    = Mem.u32 (Builder.size a buffer + delta) /\
    ((0 <= delta)%Z ->
     (Builder.size a buffer + delta < Mem.u32_modulus)%Z ->
     Builder.size a (Builder.add_size self delta buffer)
     = (Builder.size a buffer + delta)%Z).
Proof.
intros Hc a Ha. pose proof (add_size_chain self delta buffer Hc a Ha) as H.
split; [exact H|]. intros Hd Hfit. rewrite H. apply u32_small.
pose proof (size_range a buffer). lia.
Qed.

Lemma add_size_propagates_witness :
  Builder.open_chain ex_child ex_arena24 = true /\
  In ex_parent (Builder.chain ex_child) /\
  Builder.size ex_parent (Builder.add_size ex_child 10 ex_arena24)
  = (Builder.size ex_parent ex_arena24 + 10)%Z.
Proof.
split; [reflexivity|]. split; [right; left; reflexivity|].
apply (add_size_propagates ex_child 10 ex_arena24);
  [reflexivity | right; left; reflexivity | lia | vm_compute; reflexivity].
Defined.

(** C1 as stated fails: a record of size 8 grown by [2^32 - 1] ends at 7,
    not at [8 + 2^32 - 1]. *)
Lemma add_size_wraps :
  match Builder.open false arena0 None 8 with
  | Done (self, buffer) =>
      Builder.open_chain self buffer = true /\
      Builder.size self buffer = 8%Z /\
      Builder.size self (Builder.add_size self 4294967295 buffer) = 7%Z /\
      Builder.size self (Builder.add_size self 4294967295 buffer)
      <> (Builder.size self buffer + 4294967295)%Z
  | AssertionFailed => False
  end.
Proof. vm_compute. repeat split; discriminate. Qed.

Lemma size_after_appends (self : Builder.t) (cs : list append_call) (buffer : Buffer.t) :
  Builder.open_chain self buffer = true ->
  Builder.open_chain self (snd (do_appends cs buffer)) = true /\
  forall a, In a (Builder.chain self) ->
    Builder.size a (snd (do_appends cs buffer)) = Builder.size a buffer.
Proof.
intros Hc. destruct (do_appends_grows cs buffer) as [tail Hg].
pose proof (grown_by_preserves _ _ _ Hg) as Hp. split.
- apply (preserves_open_chain _ _ _ _ Hp Hc).
- intros a Ha. apply (preserves_size _ _ _ _ Hp); [|reflexivity].
  apply (open_chain_all_in _ _ Hc a Ha).
Qed.

Lemma grow_after_appends (self : Builder.t) (cs : list append_call) (buffer : Buffer.t) :
  Builder.open_chain self buffer = true ->
  Builder.size self
    (Builder.add_size self (fst (do_appends cs buffer)) (snd (do_appends cs buffer)))
  = Mem.u32 (Builder.size self buffer + fst (do_appends cs buffer)).
Proof.
intros Hc. destruct (size_after_appends self cs buffer Hc) as [Hc1 Hs].
assert (Hin : In self (Builder.chain self)) by (destruct self; left; reflexivity).
rewrite add_size_chain by assumption. rewrite Hs by exact Hin. reflexivity.
Qed.

(** C2 (amended): on a builder just opened with header size [H], after any
    sequence of append calls whose returned lengths total [L] and one
    [add_size(L)], [size()] returns [H + L] reduced modulo [2^32]; that is
    [H + L] whenever [H + L] fits 32 bits. *)
Theorem size_after_appends_and_grow (NDEBUG : bool) (arena : Buffer.t)
    (parent : option Builder.t) (H : Z) (self : Builder.t) (buffer : Buffer.t)
    (cs : list append_call) :
  Builder.open NDEBUG arena parent H = Done (self, buffer) ->
  Buffer.committed arena <= Buffer.written arena ->
  (4 <= H < Mem.u32_modulus)%Z ->
  open_chain_opt parent arena = true ->
  let L := fst (do_appends cs buffer) in
  let buffer' := Builder.add_size self L (snd (do_appends cs buffer)) in
  Builder.size self buffer = H /\
  Builder.size self buffer' = Mem.u32 (H + L) /\
  ((0 <= L)%Z -> (H + L < Mem.u32_modulus)%Z ->
   Builder.size self buffer' = (H + L)%Z).
Proof.
intros Hopen Hcw HH Hpar L buffer'.
destruct (open_done _ _ _ _ _ _ Hopen Hcw HH Hpar) as (_ & Hoc & Hsize & _).
assert (E : Builder.size self buffer' = Mem.u32 (H + L)).
{ unfold buffer', L. rewrite grow_after_appends by exact Hoc.
  rewrite Hsize. reflexivity. }
split; [exact Hsize|]. split; [exact E|].
intros HL Hfit. rewrite E. apply u32_small. lia.
Qed.

Lemma size_after_appends_and_grow_witness :
  Builder.open false arena0 None 8 = Done (ex_top8, ex_arena8) /\
  fst (do_appends ex_calls ex_arena8) = 12%Z /\
  Builder.size ex_top8
    (Builder.add_size ex_top8 12 (snd (do_appends ex_calls ex_arena8))) = 20%Z.
Proof.
split; [reflexivity|]. split; [reflexivity|].
apply (size_after_appends_and_grow false arena0 None 8 ex_top8 ex_arena8 ex_calls);
  [reflexivity | vm_compute; lia | vm_compute; split; [discriminate | reflexivity]
  | reflexivity | vm_compute; discriminate | reflexivity].
Defined.

Lemma grow_after_one_append (self : Builder.t) (data : list byte) (len : Z)
    (buffer : Buffer.t) :
  Builder.open_chain self buffer = true ->
  len = Z.of_nat (length data) ->
  fst (do_appends [CallAppend data len] buffer) = len /\
  Builder.size self
    (Builder.add_size self
       (fst (do_appends [CallAppend data len] buffer))
       (snd (do_appends [CallAppend data len] buffer)))
  = Mem.u32 (Builder.size self buffer + len).
Proof.
intros Hc Hlen.
assert (Hfst : fst (do_appends [CallAppend data len] buffer) = len).
{ cbn [do_appends do_append]. rewrite (append_fits data len buffer Hlen).
  cbn [fst]. lia. }
split; [exact Hfst|].
rewrite grow_after_appends by exact Hc. rewrite Hfst. reflexivity.
Qed.

(** C2 as stated fails: header size 8, one append of [2^32 - 8] bytes and
    the matching [add_size]: [size()] returns 0, not [2^32]. *)
Lemma size_after_huge_append_wraps :
  Builder.open false arena0 None 8 = Done (ex_top8, ex_arena8) /\
  Builder.size ex_top8 ex_arena8 = 8%Z /\
  Z.of_nat (length ex_huge) = 4294967288%Z /\
  fst (do_appends [CallAppend ex_huge 4294967288] ex_arena8) = 4294967288%Z /\
  Builder.size ex_top8
    (Builder.add_size ex_top8
       (fst (do_appends [CallAppend ex_huge 4294967288] ex_arena8))
       (snd (do_appends [CallAppend ex_huge 4294967288] ex_arena8))) = 0%Z /\
  (8 + 4294967288 <> 0)%Z.
Proof.
assert (Hlen : Z.of_nat (length ex_huge) = 4294967288%Z).
{ unfold ex_huge. rewrite length_replicate. apply Z2Nat.id. discriminate. }
destruct (grow_after_one_append ex_top8 ex_huge 4294967288 ex_arena8
            eq_refl (eq_sym Hlen)) as [Hfst Hsize].
split; [reflexivity|]. split; [reflexivity|]. split; [exact Hlen|].
split; [exact Hfst|]. split; [|discriminate].
rewrite Hsize. reflexivity.
Qed.

(** ** Padding (C3, C4) *)

(** C3: when the size of the record is a multiple of the alignment boundary,
    [add_padding] computes a padding equal to the boundary itself, takes it
    as "nothing to pad", and returns the very arena it was given, whatever
    [self] is: no byte is written, and the size of this builder, of its
    parent and of every ancestor is what it was. *)
Theorem add_padding_aligned_is_noop (NDEBUG self_ : bool) (self : Builder.t)
    (buffer : Buffer.t) :
  (Builder.size self buffer mod Item.align_bytes = 0)%Z ->
  Mem.u32 (Item.align_bytes - Builder.size self buffer mod Item.align_bytes)
  = Item.align_bytes /\
  Builder.add_padding NDEBUG self_ self buffer = Done buffer /\
  forall buffer',
    Builder.add_padding NDEBUG self_ self buffer = Done buffer' ->
    Buffer.written buffer' = Buffer.written buffer /\
    Buffer.m_bytes buffer' = Buffer.m_bytes buffer /\
    forall a, In a (Builder.chain self) ->
              Builder.size a buffer' = Builder.size a buffer.
Proof.
intros H. split; [rewrite H; reflexivity|].
rewrite add_padding_aligned by exact H. split; [reflexivity|].
intros buffer' [= <-]. auto.
Qed.

Lemma add_padding_aligned_is_noop_witness :
  (Builder.size ex_parent ex_arena24 mod Item.align_bytes = 0)%Z /\
  Builder.add_padding false true ex_parent ex_arena24 = Done ex_arena24 /\
  Builder.add_padding false false ex_child
    (Builder.add_size ex_child 8 ex_arena24)
  = Done (Builder.add_size ex_child 8 ex_arena24).
Proof.
split; [reflexivity|]. split.
- apply (add_padding_aligned_is_noop false true ex_parent ex_arena24 eq_refl).
- apply (add_padding_aligned_is_noop false false ex_child
           (Builder.add_size ex_child 8 ex_arena24) eq_refl).
Defined.

Section ScenarioFacts.
Import Mem.

(** When the constructor's assertions hold (or are compiled out), opening
    succeeds. *)
Lemma open_succeeds (NDEBUG : bool) (b : Buffer.t) (parent : option Builder.t) (H : Z) :
  NDEBUG = true \/
  ((Z.of_nat (Buffer.written b + Z.to_nat H) mod Item.align_bytes = 0)%Z /\
   Buffer.builder_count b = match parent with Some _ => 1%Z | None => 0%Z end) ->
  exists self b', Builder.open NDEBUG b parent H = Done (self, b').
Proof.
intros Hok. unfold Builder.open, Builder.ctor, Builder.reserve_space.
rewrite reserve_space_extend.
set (b1 := Buffer.extend b _).
assert (Ha : assert NDEBUG (Buffer.is_aligned b1) = Done tt).
{ destruct Hok as [->|[Hal _]]; [reflexivity|].
  unfold assert, Buffer.is_aligned, b1. rewrite written_extend.
  rewrite length_map, length_seq, Hal. destruct NDEBUG; reflexivity. }
rewrite Ha. cbn [bind].
destruct parent as [p|].
- assert (Hc : assert NDEBUG (Buffer.builder_count b1 =? 1)%Z = Done tt).
  { destruct Hok as [->|[_ Hc]]; [reflexivity|].
    unfold assert, b1. cbn [Buffer.builder_count Buffer.extend Buffer.m_builder_count].
    fold (Buffer.builder_count b). rewrite Hc. destruct NDEBUG; reflexivity. }
  rewrite Hc. cbn [bind]. eauto.
- assert (Hc : assert NDEBUG (Buffer.builder_count b1 =? 0)%Z = Done tt).
  { destruct Hok as [->|[_ Hc]]; [reflexivity|].
    unfold assert, b1. cbn [Buffer.builder_count Buffer.extend Buffer.m_builder_count].
    fold (Buffer.builder_count b). rewrite Hc. destruct NDEBUG; reflexivity. }
  rewrite Hc. cbn [bind]. eauto.
Qed.

Lemma add_size_parent_keeps_sub (parent : Builder.t) (off : nat) (d : Z) (b : Buffer.t) :
  Builder.open_chain (Builder.mk (Some parent) off) b = true ->
  Builder.size (Builder.mk (Some parent) off) (Builder.add_size parent d b)
  = Builder.size (Builder.mk (Some parent) off) b.
Proof.
intros Hc. destruct (open_chain_parent _ _ _ Hc) as [Hoff Hp].
apply size_ext; [apply add_size_committed|].
intros i Hi. apply add_size_lookup_outside. intros a Ha.
destruct (open_chain_all_in _ _ Hp a Ha) as [_ Hle].
rewrite !item_index_eq in *. cbn [Builder.m_item_offset] in *. lia.
Qed.

Lemma add_size_open_chain (self a : Builder.t) (d : Z) (b : Buffer.t) :
  Builder.open_chain a b = true ->
  Builder.open_chain a (Builder.add_size self d b) = true.
Proof.
apply open_chain_same_extent; [apply add_size_committed|].
rewrite add_size_written. lia.
Qed.

Lemma chain_self (self : Builder.t) : In self (Builder.chain self).
Proof. destruct self. left. reflexivity. Qed.

(** C4 (amended): in the worked example the parent stands at 24 once the
    child is open and the child at 18 after [add_size(10)], which has also
    taken the parent to 34; [add_padding(false)] writes 6 zero bytes and adds
    them to the parent only, so the parent ends at 40 and the child stays at
    18; destroying the child leaves the parent at 40. *)
Theorem nested_scenario_parent_ends_at_40 (NDEBUG : bool) (arena : Buffer.t)
    (data : list byte) :
  Buffer.committed arena <= Buffer.written arena ->
  (Z.of_nat (Buffer.written arena) mod Item.align_bytes = 0)%Z ->
  Buffer.builder_count arena = 0%Z ->
  length data = 10 ->
  nested_scenario NDEBUG arena data = Done [24; 18; 6; 40; 18; 40]%Z.
Proof.
intros Hcw Hal Hcount Hdata. unfold nested_scenario.
assert (H16 : (4 <= 16 < u32_modulus)%Z) by (split; [lia | reflexivity]).
assert (H8 : (4 <= 8 < u32_modulus)%Z) by (split; [lia | reflexivity]).
(* the parent *)
destruct (open_succeeds NDEBUG arena None 16) as (parent & b1 & Hopen1).
{ right. split; [|exact Hcount]. unfold Item.align_bytes in *.
  rewrite Nat2Z.inj_add, Z2Nat.id by lia. rewrite Z.add_mod, Hal by lia. reflexivity. }
rewrite Hopen1. cbn [bind].
destruct (open_done _ _ _ _ _ _ Hopen1 Hcw H16 eq_refl)
  as (Hparent & Hoc1 & Hsize1 & Hw1 & Hcount1 & _ & (Hc1 & _ & _)).
(* the child *)
destruct (open_succeeds NDEBUG b1 (Some parent) 8) as (child & b2 & Hopen2).
{ destruct NDEBUG; [left; reflexivity | right]. split; [|rewrite Hcount1; lia].
  rewrite Hw1. unfold Item.align_bytes in *.
  rewrite !Nat2Z.inj_add, !Z2Nat.id by lia.
  rewrite <- Z.add_assoc, Z.add_mod, Hal by lia. reflexivity. }
rewrite Hopen2. cbn [bind].
assert (Hcw1 : Buffer.committed b1 <= Buffer.written b1) by lia.
destruct (open_done _ _ _ _ _ _ Hopen2 Hcw1 H8 Hoc1)
  as (Hchild & Hoc2 & Hsize2 & Hw2 & Hcount2 & Hanc2 & _).
pose proof (Hanc2 parent eq_refl parent (chain_self parent)) as Hpsize2.
rewrite Hsize1 in Hpsize2. change (u32 (16 + 8)) with 24%Z in Hpsize2.
(* ten bytes appended and counted *)
rewrite (append_fits data 10 b2) by lia.
set (b3 := Buffer.extend b2 data).
assert (Hoc3 : Builder.open_chain child b3 = true) by (apply open_chain_extend; exact Hoc2).
assert (Hpin : In parent (Builder.chain child))
  by (rewrite Hchild; right; apply chain_self).
assert (Hs3 : forall a, In a (Builder.chain child) ->
                        Builder.size a b3 = Builder.size a b2).
{ intros a Ha. apply size_extend. apply (open_chain_all_in _ _ Hoc2 a Ha). }
set (b4 := Builder.add_size child 10 b3).
assert (Hc4 : Builder.size child b4 = 18%Z).
{ unfold b4. rewrite add_size_chain by (try exact Hoc3; apply chain_self).
  rewrite Hs3 by apply chain_self. rewrite Hsize2. reflexivity. }
assert (Hp4 : Builder.size parent b4 = 34%Z).
{ unfold b4. rewrite add_size_chain by assumption.
  rewrite Hs3 by exact Hpin. rewrite Hpsize2. reflexivity. }
assert (Hoc4 : Builder.open_chain child b4 = true)
  by (apply add_size_open_chain; exact Hoc3).
(* the padding *)
assert (Hun : (Builder.size child b4 mod Item.align_bytes <> 0)%Z)
  by (rewrite Hc4; discriminate).
rewrite (add_padding_unaligned NDEBUG false child b4 Hun). cbv zeta.
rewrite Hc4. change (padding_of 18) with 6%Z. change (Z.to_nat 6) with 6.
set (b5 := Buffer.extend b4 (replicate 6 "000"%byte)).
assert (Hoc5 : Builder.open_chain child b5 = true)
  by (apply open_chain_extend; exact Hoc4).
assert (Hs5 : forall a, In a (Builder.chain child) ->
                        Builder.size a b5 = Builder.size a b4).
{ intros a Ha. apply size_extend. apply (open_chain_all_in _ _ Hoc4 a Ha). }
assert (Hmp : Builder.m_parent child = Some parent) by (rewrite Hchild; reflexivity).
rewrite Hmp.
assert (Hocp5 : Builder.open_chain parent b5 = true).
{ rewrite Hchild in Hoc5. apply open_chain_parent in Hoc5. apply Hoc5. }
assert (Hp6 : Builder.size parent (Builder.add_size parent 6 b5) = 40%Z).
{ rewrite add_size_chain by (try exact Hocp5; apply chain_self).
  rewrite Hs5 by exact Hpin. rewrite Hp4. reflexivity. }
rewrite Hp6. change (40 mod Item.align_bytes =? 0)%Z with true.
assert (Hassert : assert NDEBUG true = Done tt) by (destruct NDEBUG; reflexivity).
rewrite Hassert. cbn [bind].
assert (Hc6 : Builder.size child (Builder.add_size parent 6 b5) = 18%Z).
{ rewrite Hchild. rewrite add_size_parent_keeps_sub by (rewrite <- Hchild; exact Hoc5).
  rewrite <- Hchild. rewrite Hs5 by apply chain_self. exact Hc4. }
assert (Hw6 : (Z.of_nat (Buffer.written (Builder.add_size parent 6 b5))
               - Z.of_nat (Buffer.written b4) = 6)%Z).
{ rewrite add_size_written. unfold b5. rewrite written_extend.
  rewrite length_replicate. lia. }
assert (Hd : Builder.size parent (Builder.dtor NDEBUG (Builder.add_size parent 6 b5))
             = 40%Z).
{ rewrite <- Hp6. unfold Builder.dtor. destruct NDEBUG; reflexivity. }
rewrite Hpsize2, Hw6, Hp6, Hc6, Hd. reflexivity.
Qed.

End ScenarioFacts.

Lemma nested_scenario_parent_ends_at_40_witness :
  nested_scenario false arena0 ex_payload = Done [24; 18; 6; 40; 18; 40]%Z.
Proof.
apply (nested_scenario_parent_ends_at_40 false arena0 ex_payload);
  [vm_compute; lia | reflexivity | reflexivity | reflexivity].
Defined.

(** C4 as stated fails: the parent does not end at 30. *)
Lemma nested_scenario_parent_not_30 :
  nested_scenario false arena0 ex_payload <> Done [24; 18; 6; 30; 18; 30]%Z.
Proof. vm_compute. discriminate. Qed.

(** ** Attaching a finished record (C5) *)

Section AttachFacts.
Import Mem.

Lemma load_u32_head (v : Z) (rest : list byte) :
  load_u32 (u32_bytes v ++ rest) 0 = u32 v.
Proof.
unfold load_u32. rewrite drop_0.
rewrite take_app_length' by reflexivity. apply u32_of_bytes_u32_bytes.
Qed.

Lemma padded_size_range (item : list byte) :
  (0 <= Item.padded_size item < u32_modulus)%Z.
Proof. apply u32_range. Qed.

Lemma add_item_chain (self : Builder.t) (item : list byte) (buffer : Buffer.t) :
  Builder.open_chain self buffer = true ->
  Z.to_nat (Item.padded_size item) <= length item ->
  Buffer.written (Builder.add_item self item buffer)
  = Buffer.written buffer + Z.to_nat (Item.padded_size item) /\
  drop (Buffer.written buffer) (Buffer.m_bytes (Builder.add_item self item buffer))
  = take (Z.to_nat (Item.padded_size item)) item /\
  forall a, In a (Builder.chain self) ->
    Builder.size a (Builder.add_item self item buffer)
    = u32 (Builder.size a buffer + Item.padded_size item).
Proof.
intros Hc Hlen. unfold Builder.add_item.
rewrite buffer_add_item_extend by exact Hlen.
set (tail := take (Z.to_nat (Item.padded_size item)) item).
set (b1 := Buffer.extend buffer tail).
assert (Hc1 : Builder.open_chain self b1 = true) by (apply open_chain_extend; exact Hc).
split; [|split].
- rewrite add_size_written. unfold b1. rewrite written_extend.
  unfold tail. rewrite length_take. lia.
- apply list_eq. intros i. rewrite lookup_drop.
  rewrite add_size_lookup_outside.
  + unfold b1. cbn [Buffer.m_bytes Buffer.extend].
    unfold Buffer.written. rewrite lookup_app_r by lia.
    f_equal. lia.
  + intros a Ha. right.
    destruct (open_chain_all_in _ _ Hc a Ha) as [Hin _].
    rewrite (item_index_same a buffer b1) by reflexivity. lia.
- intros a Ha. rewrite add_size_chain by assumption. f_equal. f_equal.
  apply size_extend. apply (open_chain_all_in _ _ Hc a Ha).
Qed.

End AttachFacts.

(** C5 (amended): [add_item] puts the bytes of the finished record, its
    padded size of them, at the tail of the arena through the arena's own
    [add_item], and leaves in the size field of the builder and of every
    ancestor the old size plus the record's padded size reduced modulo
    [2^32]: exactly the padded size more whenever the sum fits 32 bits. *)
Theorem add_item_grows_chain (self : Builder.t) (item : list byte) (buffer : Buffer.t) :
  Builder.open_chain self buffer = true ->
  Z.to_nat (Item.padded_size item) <= length item ->
  Builder.add_item self item buffer
  = Builder.add_size self (Item.padded_size item) (Buffer.add_item item buffer) /\
  Buffer.written (Builder.add_item self item buffer)
  = Buffer.written buffer + Z.to_nat (Item.padded_size item) /\
  drop (Buffer.written buffer) (Buffer.m_bytes (Builder.add_item self item buffer))
  = take (Z.to_nat (Item.padded_size item)) item /\
  forall a, In a (Builder.chain self) ->
    Builder.size a (Builder.add_item self item buffer)
    = Mem.u32 (Builder.size a buffer + Item.padded_size item) /\
    ((Builder.size a buffer + Item.padded_size item < Mem.u32_modulus)%Z ->
     Builder.size a (Builder.add_item self item buffer)
     = (Builder.size a buffer + Item.padded_size item)%Z).
Proof.
intros Hc Hlen. destruct (add_item_chain self item buffer Hc Hlen) as (Hw & Hd & Hs).
split; [reflexivity|]. split; [exact Hw|]. split; [exact Hd|].
intros a Ha. split; [apply Hs; exact Ha|].
intros Hfit. rewrite Hs by exact Ha. apply u32_small.
pose proof (size_range a buffer). pose proof (padded_size_range item). lia.
Qed.

Lemma add_item_grows_chain_witness :
  Item.padded_size ex_item = 16%Z /\
  drop 24 (Buffer.m_bytes (Builder.add_item ex_child ex_item ex_arena24)) = ex_item /\
  Builder.size ex_parent (Builder.add_item ex_child ex_item ex_arena24) = 40%Z /\
  Builder.size ex_child (Builder.add_item ex_child ex_item ex_arena24) = 24%Z.
Proof.
destruct (add_item_grows_chain ex_child ex_item ex_arena24 eq_refl)
  as (_ & _ & Hd & Hs); [vm_compute; lia|].
split; [reflexivity|]. split; [exact Hd|]. split.
- apply (Hs ex_parent); [right; left; reflexivity | reflexivity].
- apply (Hs ex_child); [left; reflexivity | reflexivity].
Defined.

(** C5 as stated fails: a record of [2^32 - 8] bytes attached to a builder
    whose size is 8 leaves the size at 0, not at [2^32]. *)
Lemma add_item_wraps :
  Z.of_nat (length ex_huge_item) = 4294967288%Z /\
  Item.padded_size ex_huge_item = 4294967288%Z /\
  Builder.open_chain ex_top8 ex_arena8 = true /\
  Builder.size ex_top8 ex_arena8 = 8%Z /\
  Builder.size ex_top8 (Builder.add_item ex_top8 ex_huge_item ex_arena8) = 0%Z /\
  (8 + 4294967288 <> 0)%Z.
Proof.
assert (Hlen : Z.of_nat (length ex_huge_item) = 4294967288%Z).
{ unfold ex_huge_item. rewrite length_app, length_replicate.
  change (length (Mem.u32_bytes 4294967288)) with 4. lia. }
assert (Hpad : Item.padded_size ex_huge_item = 4294967288%Z).
{ unfold Item.padded_size, Item.byte_size, ex_huge_item.
  rewrite load_u32_head. reflexivity. }
split; [exact Hlen|]. split; [exact Hpad|]. split; [reflexivity|].
split; [reflexivity|]. split; [|discriminate].
destruct (add_item_chain ex_top8 ex_huge_item ex_arena8 eq_refl) as (_ & _ & Hs).
- rewrite Hpad. lia.
- rewrite (Hs ex_top8 (or_introl eq_refl)). rewrite Hpad. reflexivity.
Qed.

(** ** The append family (C6) *)

Section AppendFamilyFacts.
Import Mem.

Lemma puts_extend (b : Buffer.t) (tail : list byte) (ret : Z) :
  puts b tail ret (ret, Buffer.extend b tail).
Proof.
split; [reflexivity|]. split; [apply grown_by_extend|].
intros a Ha. apply size_extend. apply Nat.leb_le. exact Ha.
Qed.

Lemma strlen_replicate (n : nat) (c : byte) :
  c <> Byte.x00 -> Builder.strlen (replicate n c) = n.
Proof.
intros Hc. induction n as [|n IH]; [reflexivity|].
cbn [replicate Builder.strlen].
destruct (Byte.eqb c "000"%byte) eqn:E.
- apply Byte.byte_dec_bl in E. contradiction.
- rewrite IH. reflexivity.
Qed.

(** C6 (amended): for a source of [L] bytes, [append(bytes, L)] puts exactly
    those bytes at the tail and returns [L]; [append_with_zero(bytes, L)],
    when [L + 1] fits 32 bits, puts the bytes and one zero byte and returns
    [L + 1]; [append(str)], for a string of [L] non-zero bytes with [L + 1]
    fitting 32 bits, puts the string and its terminator and returns [L + 1].
    None of them changes a size field. *)
Theorem append_family_is_exact (data : list byte) (b : Buffer.t) :
  ((Z.of_nat (length data) < Mem.u32_modulus)%Z ->
   puts b data (Z.of_nat (length data))
     (Builder.append data (Z.of_nat (length data)) b)) /\
  ((Z.of_nat (length data) + 1 < Mem.u32_modulus)%Z ->
   puts b (data ++ [Byte.x00]) (Z.of_nat (length data) + 1)
     (Builder.append_with_zero data (Z.of_nat (length data)) b)) /\
  (Builder.strlen data = length data ->
   (Z.of_nat (length data) + 1 < Mem.u32_modulus)%Z ->
   puts b (data ++ [Byte.x00]) (Z.of_nat (length data) + 1)
     (Builder.append_str data b)).
Proof.
split; [|split].
- intros _. rewrite append_fits by reflexivity. apply puts_extend.
- intros Hfit. rewrite append_with_zero_fits by (reflexivity || exact Hfit).
  apply puts_extend.
- intros Hs Hfit. rewrite append_str_fits by assumption. apply puts_extend.
Qed.

Lemma append_str_returns (str : list byte) (b : Buffer.t) :
  fst (Builder.append_str str b) = u32 (Z.of_nat (Builder.strlen str) + 1) /\
  Buffer.written (snd (Builder.append_str str b))
  = Buffer.written b + Z.to_nat (u32 (Z.of_nat (Builder.strlen str) + 1)).
Proof.
unfold Builder.append_str.
destruct (append_extends (str ++ ["000"%byte])
            (u32 (Z.of_nat (Builder.strlen str) + 1)) b) as [tail [Hl [_ H]]].
rewrite H. cbn [fst snd]. rewrite written_extend, Hl. auto.
Qed.

Lemma append_with_zero_returns (data : list byte) (len : Z) (b : Buffer.t) :
  fst (Builder.append_with_zero data len b) = u32 (len + 1).
Proof.
destruct (append_with_zero_extends data len b) as [tail [_ [_ H]]].
rewrite H. reflexivity.
Qed.

End AppendFamilyFacts.

Lemma append_family_is_exact_witness :
  puts ex_arena8 ex_hello 5 (Builder.append ex_hello 5 ex_arena8) /\
  puts ex_arena8 (ex_hello ++ [Byte.x00]) 6
    (Builder.append_with_zero ex_hello 5 ex_arena8) /\
  puts ex_arena8 (ex_hello ++ [Byte.x00]) 6 (Builder.append_str ex_hello ex_arena8).
Proof.
destruct (append_family_is_exact ex_hello ex_arena8) as (H1 & H2 & H3).
split; [apply H1; reflexivity|].
split; [apply H2; reflexivity | apply H3; reflexivity].
Defined.

(** C6 as stated fails: for a string of [2^32 - 1] letters, [append(str)]
    returns 0 and puts nothing in the arena, and [append_with_zero] on those
    bytes returns 0 as well, where the claim has [2^32]. *)
Lemma append_terminated_wraps :
  Builder.strlen ex_long_string = length ex_long_string /\
  Z.of_nat (length ex_long_string) = 4294967295%Z /\
  fst (Builder.append_str ex_long_string arena0) = 0%Z /\
  Buffer.written (snd (Builder.append_str ex_long_string arena0))
  = Buffer.written arena0 /\
  fst (Builder.append_with_zero ex_long_string 4294967295 arena0) = 0%Z /\
  (4294967295 + 1 <> 0)%Z.
Proof.
assert (Hs : Builder.strlen ex_long_string = Z.to_nat 4294967295)
  by (apply strlen_replicate; discriminate).
assert (Hl : length ex_long_string = Z.to_nat 4294967295)
  by apply length_replicate.
destruct (append_str_returns ex_long_string arena0) as [Hret Hw].
rewrite Hs, Z2Nat.id in Hret, Hw by discriminate.
split; [congruence|]. split; [rewrite Hl; apply Z2Nat.id; discriminate|].
split; [exact Hret|]. split; [rewrite Hw; reflexivity|].
split; [|discriminate].
rewrite append_with_zero_returns. reflexivity.
Qed.

(** ** Offset-based addressing (C7) *)

Section AddressFacts.
Import Mem.

Lemma ctor_item_offset (NDEBUG : bool) (buffer : Buffer.t) (parent : option Builder.t)
    (size : Z) (self : Builder.t) (buffer' : Buffer.t) :
  Builder.ctor NDEBUG buffer parent size = Done (self, buffer') ->
  self = Builder.mk parent (Buffer.written buffer - Buffer.committed buffer).
Proof.
unfold Builder.ctor, Builder.reserve_space. rewrite reserve_space_extend.
destruct (assert NDEBUG _); cbn [bind]; [|discriminate].
destruct parent as [p|]; (destruct (assert NDEBUG _); cbn [bind]; [|discriminate]);
  intros [= <- _]; reflexivity.
Qed.

Lemma reserve_space_keeps_records (self : Builder.t) (n : nat) (buffer : Buffer.t) :
  Buffer.committed (snd (Builder.reserve_space n buffer)) = Buffer.committed buffer /\
  Builder.item_index self (snd (Builder.reserve_space n buffer))
  = Builder.item_index self buffer /\
  (forall i, i < Buffer.written buffer ->
     Buffer.m_bytes (snd (Builder.reserve_space n buffer)) !! i
     = Buffer.m_bytes buffer !! i) /\
  (Builder.header_in self buffer = true ->
   Builder.size self (snd (Builder.reserve_space n buffer)) = Builder.size self buffer).
Proof.
unfold Builder.reserve_space. rewrite reserve_space_extend. cbn [snd].
split; [reflexivity|]. split; [apply item_index_same; reflexivity|]. split.
- intros i Hi. cbn [Buffer.m_bytes Buffer.extend]. apply lookup_app_l. exact Hi.
- intros Hin. apply size_extend. apply Nat.leb_le. exact Hin.
Qed.

End AddressFacts.

(** C7: the constructor records [m_item_offset = written() - committed()];
    [item_pos()] is computed afresh from [data() + committed() +
    m_item_offset] on every use; no operation of an open chain changes
    [committed()]; so across a [reserve_space] that moves the storage the
    address moves by exactly the displacement of the storage, and it still
    designates the same offset of the arena, holding the same record. *)
Theorem item_pos_survives_relocation :
  (forall NDEBUG buffer parent size self buffer',
     Builder.ctor NDEBUG buffer parent size = Done (self, buffer') ->
     Builder.m_item_offset self = Buffer.written buffer - Buffer.committed buffer) /\
  (forall self buffer,
     Builder.item_pos self buffer
     = (Buffer.data buffer + Z.of_nat (Buffer.committed buffer)
        + Z.of_nat (Builder.m_item_offset self))%Z) /\
  (forall NDEBUG ops cur cur' b b',
     well_formed (cur, b) -> Forall header_fits ops ->
     run NDEBUG ops (cur, b) = Done (cur', b') ->
     Buffer.committed b' = Buffer.committed b) /\
  (forall self n buffer,
     let buffer' := snd (Builder.reserve_space n buffer) in
     (Builder.item_pos self buffer' - Builder.item_pos self buffer
      = Buffer.data buffer' - Buffer.data buffer)%Z /\
     Builder.item_index self buffer' = Builder.item_index self buffer /\
     (forall i, i < Buffer.written buffer ->
        Buffer.m_bytes buffer' !! i = Buffer.m_bytes buffer !! i) /\
     (Builder.header_in self buffer = true ->
      Builder.size self buffer' = Builder.size self buffer)).
Proof.
split; [|split; [|split]].
- intros NDEBUG buffer parent size self buffer' H.
  rewrite (ctor_item_offset _ _ _ _ _ _ H). reflexivity.
- reflexivity.
- intros NDEBUG ops cur cur' b b' Hwf Hfits Hrun.
  destruct (run_frame NDEBUG ops cur cur' b b' nowhere 0 Hwf Hfits Hrun)
    as (_ & Hc & _); [lia | intros i Hi; lia | exact Hc].
- intros self n buffer buffer'.
  destruct (reserve_space_keeps_records self n buffer) as (Hc & Hi & Hb & Hs).
  fold buffer' in Hc, Hi, Hb, Hs.
  split; [|split; [exact Hi|split; [exact Hb|exact Hs]]].
  unfold Builder.item_pos. rewrite Hc. lia.
Qed.

Lemma item_pos_survives_relocation_witness :
  Builder.m_item_offset ex_child = 16 /\
  Buffer.committed (arena_of (run false ex_ops (Some ex_parent, ex_arena16))) = 0 /\
  Buffer.data (snd (Builder.reserve_space 64 ex_arena24)) <> Buffer.data ex_arena24 /\
  Builder.item_index ex_child (snd (Builder.reserve_space 64 ex_arena24)) = 16 /\
  Builder.size ex_child (snd (Builder.reserve_space 64 ex_arena24)) = 8%Z.
Proof.
destruct item_pos_survives_relocation as (H1 & _ & H3 & H4).
split; [|split; [|split; [vm_compute; discriminate|]]].
- apply (H1 false ex_arena16 (Some ex_parent) 8%Z ex_child
           (snd (match Builder.ctor false ex_arena16 (Some ex_parent) 8 with
                 | Done r => r
                 | AssertionFailed => (ex_child, arena0)
                 end))).
  reflexivity.
- destruct (run false ex_ops (Some ex_parent, ex_arena16)) as [[cur' b']|] eqn:E;
    [|vm_compute in E; discriminate].
  cbn [arena_of].
  apply (H3 false ex_ops (Some ex_parent) cur' ex_arena16 b');
    [split; vm_compute; [lia | reflexivity]
    | unfold ex_ops;
      repeat (constructor 2;
                [first [exact I | split; [discriminate | reflexivity]] |]);
      constructor 1
    | exact E].
- destruct (H4 ex_child 64 ex_arena24) as (_ & Hi & _ & Hs).
  split; [rewrite Hi; reflexivity | rewrite Hs; reflexivity].
Defined.

(** ** The open-builder counter (C8) *)

Section CounterFacts.

Lemma ctor_asserts_count (buffer : Buffer.t) (parent : option Builder.t) (size : Z) :
  Buffer.builder_count buffer
  <> match parent with Some _ => 1%Z | None => 0%Z end ->
  Builder.ctor false buffer parent size = AssertionFailed.
Proof.
intros Hne. unfold Builder.ctor, Builder.reserve_space.
rewrite reserve_space_extend.
destruct (assert false _); cbn [bind]; [|reflexivity].
destruct parent as [p|];
  cbn [Buffer.builder_count Buffer.extend Buffer.m_builder_count];
  fold (Buffer.builder_count buffer);
  match goal with
  | |- context [assert false (?c =? ?k)%Z] =>
      assert (E : (c =? k)%Z = false) by (apply Z.eqb_neq; exact Hne);
      rewrite E
  end; reflexivity.
Qed.

Lemma ctor_increments (buffer : Buffer.t) (parent : option Builder.t) (size : Z)
    (self : Builder.t) (buffer' : Buffer.t) :
  Builder.ctor false buffer parent size = Done (self, buffer') ->
  Buffer.builder_count buffer' = (Buffer.builder_count buffer + 1)%Z.
Proof.
unfold Builder.ctor, Builder.reserve_space. rewrite reserve_space_extend.
destruct (assert false _); cbn [bind]; [|discriminate].
destruct parent as [p|]; (destruct (assert false _); cbn [bind]; [|discriminate]);
  intros [= _ <-].
- rewrite add_size_with_bytes. reflexivity.
- reflexivity.
Qed.

Lemma dtor_decrements (buffer : Buffer.t) :
  Buffer.builder_count (Builder.dtor false buffer)
  = (Buffer.builder_count buffer - 1)%Z.
Proof. reflexivity. Qed.

Lemma lifecycle_counts (es : list event) :
  forall live buffer live' buffer',
  Buffer.builder_count buffer = Z.of_nat (length live) ->
  lifecycle es (live, buffer) = Done (live', buffer') ->
  Buffer.builder_count buffer' = Z.of_nat (length live').
Proof.
induction es as [|e es IH]; intros live buffer live' buffer' Hinv Hrun.
- cbn [lifecycle] in Hrun. injection Hrun as <- <-. exact Hinv.
- cbn [lifecycle] in Hrun.
  destruct (lifecycle_step e (live, buffer)) as [[live1 buffer1]|] eqn:Hstep;
    [|discriminate].
  cbn [bind] in Hrun. apply (IH live1 buffer1); [|exact Hrun].
  destruct e as [parent size|i]; cbn [lifecycle_step] in Hstep.
  + destruct (Builder.ctor false buffer parent size) as [[self b1]|] eqn:Hctor;
      [|discriminate].
    cbn [bind fst snd] in Hstep. injection Hstep as <- <-.
    rewrite (ctor_increments _ _ _ _ _ Hctor), Hinv. cbn [length]. lia.
  + destruct (live !! i) as [x|] eqn:Hlook.
    * injection Hstep as <- <-. rewrite dtor_decrements, Hinv.
      rewrite length_delete by (rewrite Hlook; eauto).
      pose proof (lookup_lt_Some _ _ _ Hlook). lia.
    * injection Hstep as <- <-. exact Hinv.
Qed.

End CounterFacts.

(** C8: in an instrumented build the constructor fails an assertion when it
    is given no parent and the counter is not 0, or a parent and the counter
    is not 1; when it succeeds it has incremented the counter, and the
    destructor decrements it; so, starting from an arena without builders,
    the counter is the number of builders alive on the arena. *)
Theorem builder_count_counts_open_builders :
  (forall buffer size,
     Buffer.builder_count buffer <> 0%Z ->
     Builder.ctor false buffer None size = AssertionFailed) /\
  (forall buffer parent size,
     Buffer.builder_count buffer <> 1%Z ->
     Builder.ctor false buffer (Some parent) size = AssertionFailed) /\
  (forall buffer parent size self buffer',
     Builder.ctor false buffer parent size = Done (self, buffer') ->
     Buffer.builder_count buffer' = (Buffer.builder_count buffer + 1)%Z) /\
  (forall buffer,
     Buffer.builder_count (Builder.dtor false buffer)
     = (Buffer.builder_count buffer - 1)%Z) /\
  (forall es buffer live' buffer',
     Buffer.builder_count buffer = 0%Z ->
     lifecycle es ([], buffer) = Done (live', buffer') ->
     Buffer.builder_count buffer' = Z.of_nat (length live')).
Proof.
split; [|split; [|split; [|split]]].
- intros buffer size H. apply (ctor_asserts_count buffer None size H).
- intros buffer parent size H. apply (ctor_asserts_count buffer (Some parent) size H).
- apply ctor_increments.
- apply dtor_decrements.
- intros es buffer live' buffer' H0 Hrun.
  apply (lifecycle_counts es [] buffer live' buffer'); [exact H0 | exact Hrun].
Qed.

Lemma builder_count_counts_open_builders_witness :
  Builder.ctor false ex_arena16 None 16 = AssertionFailed /\
  Builder.ctor false ex_arena24 (Some ex_child) 8 = AssertionFailed /\
  match Builder.ctor false ex_arena16 (Some ex_parent) 8 with
  | Done (_, buffer') =>
      Buffer.builder_count buffer' = (Buffer.builder_count ex_arena16 + 1)%Z
  | AssertionFailed => False
  end /\
  match lifecycle ex_events ([], arena0) with
  | Done (live, buffer) =>
      live = [ex_parent] /\ Buffer.builder_count buffer = Z.of_nat (length live)
  | AssertionFailed => False
  end.
Proof.
destruct builder_count_counts_open_builders as (H1 & H2 & H3 & _ & H5).
split; [apply H1; vm_compute; discriminate|].
split; [apply H2; vm_compute; discriminate|].
split.
{ destruct (Builder.ctor false ex_arena16 (Some ex_parent) 8)
    as [[self buffer']|] eqn:E; [|vm_compute in E; discriminate].
  apply (H3 ex_arena16 (Some ex_parent) 8%Z self buffer' E). }
destruct (lifecycle ex_events ([], arena0)) as [[live buffer]|] eqn:E;
  [|vm_compute in E; discriminate].
pose proof (H5 ex_events arena0 live buffer eq_refl E) as Hc.
split; [|exact Hc].
vm_compute in E. injection E as <- _. reflexivity.
Defined.

(** ** Where content goes *)

Section PlacementFacts.
Import Mem.

(** After [tail] is put at the end and sizes are added along a chain whose
    size fields all lie below the old tail, the new bytes are [tail]. *)
Lemma add_size_after_extend_tail (a : Builder.t) (d : Z) (b : Buffer.t)
    (tail : list byte) :
  Builder.open_chain a b = true ->
  drop (Buffer.written b)
    (Buffer.m_bytes (Builder.add_size a d (Buffer.extend b tail))) = tail.
Proof.
intros Hc. apply list_eq. intros i. rewrite lookup_drop.
rewrite add_size_lookup_outside.
- cbn [Buffer.m_bytes Buffer.extend]. unfold Buffer.written.
  rewrite lookup_app_r by lia. f_equal. lia.
- intros x Hx. right.
  destruct (open_chain_all_in _ _ Hc x Hx) as [Hin _].
  rewrite (item_index_same x b (Buffer.extend b tail)) by reflexivity. lia.
Qed.

Lemma ctor_unfolded (NDEBUG : bool) (b : Buffer.t) (parent : option Builder.t)
    (size : Z) :
  let b1 := Buffer.extend b (map (Buffer.m_uninit b)
                               (seq (Buffer.written b) (Z.to_nat size))) in
  let b2 := match parent with
            | Some p => Builder.add_size p size b1
            | None => b1
            end in
  Builder.ctor NDEBUG b parent size
  = (_ <- assert NDEBUG (Buffer.is_aligned b1) ;;
     _ <- assert NDEBUG
            (Buffer.builder_count b
             =? match parent with Some _ => 1 | None => 0 end)%Z ;;
     Done (Builder.mk parent (Buffer.written b - Buffer.committed b),
           if NDEBUG then b2 else Buffer.increment_builder_count b2)).
Proof.
cbv zeta. unfold Builder.ctor, Builder.reserve_space. rewrite reserve_space_extend.
destruct (assert NDEBUG (Buffer.is_aligned _)); cbn [bind]; [|reflexivity].
destruct parent as [p|];
  cbn [Buffer.builder_count Buffer.extend Buffer.m_builder_count];
  fold (Buffer.builder_count b);
  destruct (assert NDEBUG _); reflexivity.
Qed.








End PlacementFacts.

(** ** Append-only arena (C9) *)



(** ** Connection strings (C10) *)

Section ConninfoFacts.
Import CommandLine.
Local Open Scope string_scope.

Lemma uchar_inj (a b : ascii) : uchar a = uchar b -> a = b.
Proof.
unfold uchar. intros H. apply N2Z.inj in H.
rewrite <- (ascii_N_embedding a), <- (ascii_N_embedding b), H. reflexivity.
Qed.

Lemma uchar_zero (a : ascii) : uchar a = 0%Z -> a = Ascii.zero.
Proof. intros H. apply uchar_inj. rewrite H. reflexivity. Qed.

Lemma c_str_fixed_cons (c : ascii) (p : string) :
  c_str (String c p) = String c p -> c <> Ascii.zero /\ c_str p = p.
Proof.
cbn [c_str]. destruct (Ascii.eqb c Ascii.zero) eqn:E; [discriminate|].
intros [= H]. split; [|exact H]. apply Ascii.eqb_neq. exact E.
Qed.

(** On a prefix without NUL, [compare_prefix] is the prefix test. *)
Lemma strncmp_is_prefix (p : string) :
  c_str p = p ->
  forall s, (strncmp (c_str s) p (String.length p) =? 0)%Z = String.prefix p s.
Proof.
induction p as [|c p IH]; intros Hp s.
- destruct s; reflexivity.
- destruct (c_str_fixed_cons c p Hp) as [Hc Hp'].
  assert (Hnz : ((0 - uchar c =? 0)%Z = false)).
  { apply Z.eqb_neq. intros H. apply Hc. apply uchar_zero. lia. }
  destruct s as [|a s]; cbn [c_str String.length strncmp String.prefix].
  + exact Hnz.
  + destruct (Ascii.eqb a Ascii.zero) eqn:Ea.
    * apply Ascii.eqb_eq in Ea. subst a. cbn [strncmp]. rewrite Hnz.
      destruct (ascii_dec c Ascii.zero); [contradiction | reflexivity].
    * cbn [strncmp]. destruct (Ascii.eqb a c) eqn:Eac.
      -- apply Ascii.eqb_eq in Eac. subst a.
         destruct (ascii_dec c c); [apply IH; exact Hp' | contradiction].
      -- apply Ascii.eqb_neq in Eac.
         destruct (ascii_dec c a); [congruence|].
         apply Z.eqb_neq. intros H. apply Eac. apply uchar_inj. lia.
Qed.

Lemma compare_prefix_is_prefix (str p : string) :
  c_str p = p -> compare_prefix str p = String.prefix p str.
Proof.
intros Hp. unfold compare_prefix. rewrite Hp. apply strncmp_is_prefix. exact Hp.
Qed.

(** [strchr] over [c_str] finds the character exactly when it occurs with no
    NUL before it. *)
Lemma strchr_c_str (s : string) (ch : ascii) :
  ch <> Ascii.zero ->
  (strchr (c_str s) ch <> None <-> occurs_before_nul ch s).
Proof.
intros Hch. assert (Hz : Ascii.eqb ch Ascii.zero = false) by (apply Ascii.eqb_neq; exact Hch).
induction s as [|a s IH]; cbn [c_str strchr].
- rewrite Hz. split; [congruence|]. intros [i [Hi _]]. destruct i; discriminate.
- destruct (Ascii.eqb a Ascii.zero) eqn:Ea.
  + apply Ascii.eqb_eq in Ea. subst a. cbn [strchr]. rewrite Hz.
    split; [congruence|]. intros [i [Hi Hj]]. destruct i as [|i].
    * cbn in Hi. congruence.
    * exfalso. apply (Hj 0); [lia | reflexivity].
  + apply Ascii.eqb_neq in Ea. cbn [strchr].
    destruct (Ascii.eqb a ch) eqn:Eac.
    * apply Ascii.eqb_eq in Eac. subst a. split; [|congruence].
      intros _. exists 0. split; [reflexivity | intros j Hj; lia].
    * apply Ascii.eqb_neq in Eac. split.
      -- intros H. destruct (strchr (c_str s) ch) as [k|] eqn:Ek; [|contradiction].
         destruct IH as [IH1 _]. destruct (IH1 ltac:(congruence)) as [i [Hi Hj]].
         exists (S i). split; [exact Hi|].
         intros j Hlt. destruct j as [|j]; cbn [String.get].
         ++ congruence.
         ++ apply Hj. lia.
      -- intros [i [Hi Hj]]. destruct i as [|i]; [cbn in Hi; congruence|].
         cbn [String.get] in Hi.
         destruct IH as [_ IH2].
         assert (Ho : occurs_before_nul ch s).
         { exists i. split; [exact Hi|]. intros j Hlt. apply (Hj (S j)). lia. }
         specialize (IH2 Ho). destruct (strchr (c_str s) ch); [discriminate|contradiction].
Qed.

Lemma build_conninfo_uri (opt : database_options_t) :
  String.prefix "postgresql://" (db opt) = true
  \/ String.prefix "postgres://" (db opt) = true ->
  build_conninfo opt = db opt.
Proof.
intros H. unfold build_conninfo.
rewrite !compare_prefix_is_prefix by reflexivity.
destruct H as [-> | ->]; [reflexivity | rewrite orb_true_r; reflexivity].
Qed.

Lemma build_conninfo_keywords (opt : database_options_t) :
  String.prefix "postgresql://" (db opt) = false ->
  String.prefix "postgres://" (db opt) = false ->
  occurs_before_nul "=" (db opt) ->
  build_conninfo opt = "fallback_application_name='osm2pgsql' " ++ db opt.
Proof.
intros H1 H2 Ho. unfold build_conninfo.
rewrite !compare_prefix_is_prefix by reflexivity. rewrite H1, H2. cbn [orb].
apply (strchr_c_str (db opt) "=") in Ho; [|discriminate].
destruct (strchr (c_str (db opt)) "="); [|contradiction].
reflexivity.
Qed.

Lemma append_empty_r (s : string) : s ++ EmptyString = s.
Proof. induction s as [|c s IH]; cbn; [reflexivity | rewrite IH; reflexivity]. Qed.

Lemma append_associative (s t u : string) : (s ++ t) ++ u = s ++ (t ++ u).
Proof. induction s as [|c s IH]; cbn; [reflexivity | rewrite IH; reflexivity]. Qed.

Lemma concat_snoc (sep x : string) (l : list string) :
  l <> [] ->
  String.concat sep (l ++ [x]) = String.concat sep l ++ sep ++ x.
Proof.
induction l as [|y l IH]; intros Hne; [contradiction|].
destruct l as [|z l].
- reflexivity.
- change (String.concat sep ((y :: z :: l) ++ [x]))
    with (y ++ sep ++ String.concat sep ((z :: l) ++ [x])).
  rewrite IH by discriminate.
  change (String.concat sep (y :: z :: l))
    with (y ++ sep ++ String.concat sep (z :: l)).
  rewrite !append_associative. reflexivity.
Qed.

(** What one conditional [add] does to the joined string. *)
Lemma joined_add (item : string) (j : string_joiner_t) :
  m_items j <> [] ->
  joined (add item j) = joined j ++ String (m_delim j) EmptyString ++ item.
Proof. intros H. unfold joined, add. cbn [m_delim m_items]. apply concat_snoc. exact H. Qed.

Lemma add_unless_empty_keeps (pattern value : string) (j : string_joiner_t) :
  m_items j <> [] ->
  m_items (add_unless_empty pattern value j) <> []
  /\ m_delim (add_unless_empty pattern value j) = m_delim j.
Proof.
intros H. unfold add_unless_empty. destruct (empty value); [auto|].
cbn [add m_items m_delim]. split; [|reflexivity].
destruct (m_items j); [contradiction | discriminate].
Qed.

Lemma joined_add_unless_empty (pattern value : string) (j : string_joiner_t) :
  m_items j <> [] ->
  joined (add_unless_empty pattern value j)
  = joined j ++ (if empty value then EmptyString
                 else String (m_delim j) EmptyString ++ format pattern value).
Proof.
intros H. unfold add_unless_empty. destruct (empty value).
- symmetry. apply append_empty_r.
- apply joined_add. exact H.
Qed.

Lemma build_conninfo_fields (opt : database_options_t) :
  String.prefix "postgresql://" (db opt) = false ->
  String.prefix "postgres://" (db opt) = false ->
  ~ occurs_before_nul "=" (db opt) ->
  build_conninfo opt = assembled opt.
Proof.
intros H1 H2 Ho. unfold build_conninfo.
rewrite !compare_prefix_is_prefix by reflexivity. rewrite H1, H2. cbn [orb].
destruct (strchr (c_str (db opt)) "=") eqn:E.
- exfalso. apply Ho. apply (strchr_c_str (db opt) "="); [discriminate | congruence].
- cbv zeta.
  set (j0 := add "client_encoding='UTF8'"
               (add "fallback_application_name='osm2pgsql'" (joiner " "))).
  assert (H0 : m_items j0 <> [] /\ m_delim j0 = " "%char)
    by (split; [discriminate | reflexivity]).
  set (j1 := add_unless_empty "dbname='{}'" (db opt) j0).
  destruct (add_unless_empty_keeps "dbname='{}'" (db opt) j0 (proj1 H0)) as [N1 D1].
  set (j2 := add_unless_empty "user='{}'" (username opt) j1).
  destruct (add_unless_empty_keeps "user='{}'" (username opt) j1 N1) as [N2 D2].
  set (j3 := add_unless_empty "password='{}'" (password opt) j2).
  destruct (add_unless_empty_keeps "password='{}'" (password opt) j2 N2) as [N3 D3].
  set (j4 := add_unless_empty "host='{}'" (host opt) j3).
  destruct (add_unless_empty_keeps "host='{}'" (host opt) j3 N3) as [N4 D4].
  fold j1 j2 j3 j4 in D1, D2, D3, D4, N1, N2, N3, N4.
  rewrite (joined_add_unless_empty _ _ j4 N4).
  unfold j4 at 1. rewrite (joined_add_unless_empty _ _ j3 N3).
  unfold j3 at 1. rewrite (joined_add_unless_empty _ _ j2 N2).
  unfold j2 at 1. rewrite (joined_add_unless_empty _ _ j1 N1).
  unfold j1 at 1. rewrite (joined_add_unless_empty _ _ j0 (proj1 H0)).
  rewrite D4, D3, D2, D1, (proj2 H0).
  unfold assembled. rewrite !append_associative.
  change (joined j0)
    with "fallback_application_name='osm2pgsql' client_encoding='UTF8'".
  unfold entry.
  destruct (empty (db opt)), (empty (username opt)), (empty (password opt)),
    (empty (host opt)), (empty (port opt)); reflexivity.
Qed.

Lemma contains_get (c : ascii) (s : string) :
  contains c s = true <-> exists i, String.get i s = Some c.
Proof.
unfold contains. induction s as [|a s IH]; cbn [list_ascii_of_string existsb].
- split; [discriminate|]. intros [i Hi]. destruct i; discriminate.
- rewrite orb_true_iff, IH. split.
  + intros [H|[i Hi]].
    * apply Ascii.eqb_eq in H. subst a. exists 0. reflexivity.
    * exists (S i). exact Hi.
  + intros [[|i] Hi]; cbn [String.get] in Hi.
    * left. apply Ascii.eqb_eq. congruence.
    * right. exists i. exact Hi.
Qed.

Lemma occurs_without_nul (c : ascii) (s : string) :
  contains Ascii.zero s = false ->
  (occurs_before_nul c s <-> contains c s = true).
Proof.
intros Hz. rewrite contains_get. split.
- intros [i [Hi _]]. exists i. exact Hi.
- intros [i Hi]. exists i. split; [exact Hi|].
  intros j _ Hj.
  assert (Ht : contains Ascii.zero s = true) by (apply contains_get; eauto).
  congruence.
Qed.

(** Without a NUL in [db], the code does what the claim says. *)
Lemma build_conninfo_without_nul (opt : database_options_t) :
  contains Ascii.zero (db opt) = false ->
  build_conninfo opt = conninfo_claimed opt.
Proof.
intros Hz. unfold conninfo_claimed.
destruct (String.prefix "postgresql://" (db opt)) eqn:H1;
  [apply build_conninfo_uri; auto|].
destruct (String.prefix "postgres://" (db opt)) eqn:H2;
  [apply build_conninfo_uri; auto|].
cbn [orb]. destruct (contains "=" (db opt)) eqn:Hc.
- apply build_conninfo_keywords; [assumption..|].
  apply occurs_without_nul; assumption.
- apply build_conninfo_fields; [assumption..|].
  intros Ho. apply (occurs_without_nul "=" (db opt) Hz) in Ho. congruence.
Qed.

End ConninfoFacts.

(** C10 (amended): if [db] begins with "postgresql://" or "postgres://",
    [build_conninfo] returns it unchanged; otherwise, if [db] contains an
    '=' with no NUL character before it (the search is [strchr] over the C
    string), it returns the fallback application name, a space and [db];
    otherwise it returns the fallback application name and the client
    encoding followed by the dbname, user, password, host and port entries
    of exactly the fields that are not empty, in that order, joined by
    spaces.  On every [db] that holds no NUL this is the claim as it was
    stated. *)
Theorem build_conninfo_by_cases (opt : CommandLine.database_options_t) :
  (String.prefix "postgresql://" (CommandLine.db opt) = true
   \/ String.prefix "postgres://" (CommandLine.db opt) = true ->
   CommandLine.build_conninfo opt = CommandLine.db opt) /\
  (String.prefix "postgresql://" (CommandLine.db opt) = false ->
   String.prefix "postgres://" (CommandLine.db opt) = false ->
   CommandLine.occurs_before_nul "=" (CommandLine.db opt) ->
   CommandLine.build_conninfo opt
   = ("fallback_application_name='osm2pgsql' " ++ CommandLine.db opt)%string) /\
  (String.prefix "postgresql://" (CommandLine.db opt) = false ->
   String.prefix "postgres://" (CommandLine.db opt) = false ->
   ~ CommandLine.occurs_before_nul "=" (CommandLine.db opt) ->
   CommandLine.build_conninfo opt = CommandLine.assembled opt) /\
  (CommandLine.contains Ascii.zero (CommandLine.db opt) = false ->
   CommandLine.build_conninfo opt = CommandLine.conninfo_claimed opt).
Proof.
split; [apply build_conninfo_uri|].
split; [apply build_conninfo_keywords|].
split; [apply build_conninfo_fields | apply build_conninfo_without_nul].
Qed.

Lemma build_conninfo_by_cases_witness :
  CommandLine.build_conninfo CommandLine.ex_uri
  = "postgres://gis@localhost/osm"%string /\
  CommandLine.build_conninfo CommandLine.ex_keywords
  = "fallback_application_name='osm2pgsql' dbname=osm host=db1"%string /\
  CommandLine.build_conninfo CommandLine.ex_nul
  = CommandLine.assembled CommandLine.ex_nul /\
  CommandLine.build_conninfo CommandLine.ex_fields
  = CommandLine.conninfo_claimed CommandLine.ex_fields.
Proof.
destruct (build_conninfo_by_cases CommandLine.ex_uri) as (U & _).
destruct (build_conninfo_by_cases CommandLine.ex_keywords) as (_ & K & _).
destruct (build_conninfo_by_cases CommandLine.ex_nul) as (_ & _ & N & _).
destruct (build_conninfo_by_cases CommandLine.ex_fields) as (_ & _ & _ & F).
split; [|split; [|split]].
- apply U. right. reflexivity.
- apply K; [reflexivity | reflexivity |].
  exists 6. split; [reflexivity|].
  intros j Hj.
  do 6 (destruct j as [|j]; [discriminate|]). lia.
- apply N; [reflexivity | reflexivity |].
  intros [i [Hi Hj]]. destruct i as [|i]; [discriminate|].
  apply (Hj 0); [lia | reflexivity].
- apply F. reflexivity.
Defined.

(** C10 as stated fails: a [db] that holds an '=' after a NUL does not begin
    with either prefix and contains '=', yet the result is the assembled
    string with a dbname entry, not the fallback application name followed
    by [db]. *)
Lemma build_conninfo_nul_before_eq :
  String.prefix "postgresql://" (CommandLine.db CommandLine.ex_nul) = false /\
  String.prefix "postgres://" (CommandLine.db CommandLine.ex_nul) = false /\
  CommandLine.contains "=" (CommandLine.db CommandLine.ex_nul) = true /\
  CommandLine.build_conninfo CommandLine.ex_nul
  <> ("fallback_application_name='osm2pgsql' "
      ++ CommandLine.db CommandLine.ex_nul)%string /\
  CommandLine.build_conninfo CommandLine.ex_nul
  <> CommandLine.conninfo_claimed CommandLine.ex_nul.
Proof. vm_compute. repeat split; discriminate. Qed.

(** * Further properties of the builder *)

Section PaddingFacts.
Import Mem.

Lemma padding_of_range (size : Z) :
  (size mod Item.align_bytes <> 0)%Z -> (1 <= padding_of size <= 7)%Z.
Proof.
unfold padding_of, Item.align_bytes. intros H.
pose proof (Z.mod_pos_bound size 8 ltac:(lia)). lia.
Qed.

Lemma u32_mod_align (z : Z) :
  (u32 z mod Item.align_bytes = z mod Item.align_bytes)%Z.
Proof.
unfold u32, u32_modulus, Item.align_bytes.
change (2 ^ 32)%Z with 4294967296%Z.
Z.div_mod_to_equations. lia.
Qed.

Lemma padded_is_aligned (size : Z) :
  (u32 (size + padding_of size) mod Item.align_bytes = 0)%Z.
Proof.
rewrite u32_mod_align. unfold padding_of, Item.align_bytes.
Z.div_mod_to_equations. lia.
Qed.

Lemma add_size_after_extend_sizes (a : Builder.t) (d : Z) (b : Buffer.t)
    (tail : list byte) :
  Builder.open_chain a b = true ->
  forall x, In x (Builder.chain a) ->
    Builder.size x (Builder.add_size a d (Buffer.extend b tail))
    = u32 (Builder.size x b + d).
Proof.
intros Hc x Hx.
rewrite add_size_chain by (try exact Hx; apply open_chain_extend; exact Hc).
f_equal. f_equal. apply size_extend. apply (open_chain_all_in _ _ Hc x Hx).
Qed.

(** X1: on a size that is not a multiple of the alignment boundary,
    [add_padding(true)] puts between 1 and 7 zero bytes at the tail, adds
    their number to the size of the builder and of every ancestor, and
    leaves the builder's own size a multiple of the boundary. *)
Theorem add_padding_self_aligns (NDEBUG : bool) (self : Builder.t) (b : Buffer.t) :
  Builder.open_chain self b = true ->
  (Builder.size self b mod Item.align_bytes <> 0)%Z ->
  exists b',
    Builder.add_padding NDEBUG true self b = Done b' /\
    (1 <= padding_of (Builder.size self b) <= 7)%Z /\
    drop (Buffer.written b) (Buffer.m_bytes b')
    = replicate (Z.to_nat (padding_of (Builder.size self b))) Byte.x00 /\
    (Builder.size self b' mod Item.align_bytes = 0)%Z /\
    forall a, In a (Builder.chain self) ->
      Builder.size a b' = u32 (Builder.size a b + padding_of (Builder.size self b)).
Proof.
intros Hc Hun. rewrite add_padding_unaligned by exact Hun. cbv zeta.
eexists. split; [reflexivity|]. split; [apply padding_of_range; exact Hun|].
split; [apply add_size_after_extend_tail; exact Hc|]. split.
- rewrite add_size_after_extend_sizes by (try exact Hc; apply chain_self).
  apply padded_is_aligned.
- intros a Ha. apply add_size_after_extend_sizes; assumption.
Qed.

End PaddingFacts.

Lemma add_padding_self_aligns_witness :
  exists b',
    Builder.add_padding false true ex_child ex_grown = Done b' /\
    Builder.size ex_child b' = 24%Z /\ Builder.size ex_parent b' = 40%Z /\
    drop 34 (Buffer.m_bytes b') = replicate 6 Byte.x00.
Proof.
destruct (add_padding_self_aligns false ex_child ex_grown eq_refl)
  as (b' & Hpad & _ & Hd & _ & Hs); [vm_compute; discriminate|].
exists b'. split; [exact Hpad|].
split; [rewrite (Hs ex_child); [reflexivity | left; reflexivity]|].
split; [rewrite (Hs ex_parent); [reflexivity | right; left; reflexivity]|].
exact Hd.
Defined.

Section PaddingFacts2.
Import Mem.

(** X2: on a size that is not aligned, [add_padding(false)] of a builder with
    a parent puts the zero bytes at the tail and adds their number to the
    parent and its ancestors, not to the builder itself; in an instrumented
    build it is an assertion failure exactly when that leaves the parent's
    size off the alignment boundary. *)
Theorem add_padding_counts_in_parent (NDEBUG : bool) (parent : Builder.t)
    (off : nat) (b : Buffer.t) :
  let self := Builder.mk (Some parent) off in
  let p := padding_of (Builder.size self b) in
  Builder.open_chain self b = true ->
  (Builder.size self b mod Item.align_bytes <> 0)%Z ->
  (NDEBUG = false ->
   (u32 (Builder.size parent b + p) mod Item.align_bytes <> 0)%Z ->
   Builder.add_padding NDEBUG false self b = AssertionFailed) /\
  (NDEBUG = true \/ (u32 (Builder.size parent b + p) mod Item.align_bytes = 0)%Z ->
   exists b',
     Builder.add_padding NDEBUG false self b = Done b' /\
     drop (Buffer.written b) (Buffer.m_bytes b') = replicate (Z.to_nat p) Byte.x00 /\
     Builder.size self b' = Builder.size self b /\
     forall a, In a (Builder.chain parent) ->
       Builder.size a b' = u32 (Builder.size a b + p)).
Proof.
intros self p Hc Hun.
destruct (open_chain_parent _ _ _ Hc) as [Hoff Hp].
rewrite (add_padding_unaligned NDEBUG false self b Hun). cbv zeta.
fold p. cbn [Builder.m_parent self].
set (b1 := Buffer.extend b (replicate (Z.to_nat p) "000"%byte)).
assert (Hps : Builder.size parent (Builder.add_size parent p b1)
              = u32 (Builder.size parent b + p)).
{ apply add_size_after_extend_sizes; [exact Hp | apply chain_self]. }
rewrite Hps. split.
- intros -> Hmis. apply Z.eqb_neq in Hmis. cbn [assert]. rewrite Hmis. reflexivity.
- intros Hok.
  assert (Ha : assert NDEBUG
                 (u32 (Builder.size parent b + p) mod Item.align_bytes =? 0)%Z
               = Done tt).
  { destruct Hok as [->|Hal]; [reflexivity|].
    rewrite Hal. destruct NDEBUG; reflexivity. }
  rewrite Ha. cbn [bind]. eexists. split; [reflexivity|].
  split; [apply add_size_after_extend_tail; exact Hp|]. split.
  + unfold self. rewrite add_size_parent_keeps_sub
      by (apply open_chain_extend; exact Hc).
    apply size_extend. apply (open_chain_header_in _ _ Hc).
  + intros a Ha'. apply add_size_after_extend_sizes; assumption.
Qed.

(** X3: [add_padding(false)] of a builder without parent, on a size that is
    not aligned, still puts the zero bytes at the tail, and counts them
    nowhere: every size field in the arena keeps its value. *)
Theorem add_padding_top_level_uncounted (NDEBUG : bool) (off : nat) (b : Buffer.t) :
  let self := Builder.mk None off in
  (Builder.size self b mod Item.align_bytes <> 0)%Z ->
  exists b',
    Builder.add_padding NDEBUG false self b = Done b' /\
    Buffer.m_bytes b'
    = Buffer.m_bytes b
      ++ replicate (Z.to_nat (padding_of (Builder.size self b))) Byte.x00 /\
    forall a, Builder.header_in a b = true -> Builder.size a b' = Builder.size a b.
Proof.
intros self Hun. rewrite (add_padding_unaligned NDEBUG false self b Hun).
cbv zeta. cbn [Builder.m_parent self]. eexists. split; [reflexivity|].
split; [reflexivity|].
intros a Ha. apply size_extend. apply Nat.leb_le. exact Ha.
Qed.

(** X4: when the record starts on the alignment boundary, reaches to the tail
    of the arena, has all its bytes counted in its size, and its size is at
    most 2^32 - 8 (so that the padded size still fits the size field), then
    after [add_padding(true)] the tail of the arena is aligned and the
    record, padding included, still reaches exactly to the tail. *)
Theorem add_padding_aligns_tail (NDEBUG : bool) (self : Builder.t) (b : Buffer.t) :
  Builder.open_chain self b = true ->
  (Z.of_nat (Builder.item_index self b) mod Item.align_bytes = 0)%Z ->
  Z.of_nat (Buffer.written b)
  = (Z.of_nat (Builder.item_index self b) + Builder.size self b)%Z ->
  (Builder.size self b + Item.align_bytes <= u32_modulus)%Z ->
  exists b',
    Builder.add_padding NDEBUG true self b = Done b' /\
    Buffer.is_aligned b' = true /\
    Z.of_nat (Buffer.written b')
    = (Z.of_nat (Builder.item_index self b') + Builder.size self b')%Z.
Proof.
intros Hc Hstart Hfull Hfit.
pose proof (size_range self b) as Hr.
destruct (Z.eq_dec (Builder.size self b mod Item.align_bytes)%Z 0%Z) as [Hal|Hun].
- exists b. rewrite add_padding_aligned by exact Hal.
  split; [reflexivity|]. split; [|exact Hfull].
  unfold Buffer.is_aligned. apply Z.eqb_eq. rewrite Hfull.
  unfold Item.align_bytes in *. Z.div_mod_to_equations. lia.
- rewrite add_padding_unaligned by exact Hun. cbv zeta.
  pose proof (padding_of_range _ Hun) as Hp.
  set (p := padding_of (Builder.size self b)) in *.
  eexists. split; [reflexivity|].
  assert (Hs : Builder.size self
                 (Builder.add_size self p
                    (Buffer.extend b (replicate (Z.to_nat p) "000"%byte)))
               = (Builder.size self b + p)%Z).
  { rewrite add_size_after_extend_sizes by (try exact Hc; apply chain_self).
    apply u32_small. unfold Item.align_bytes in Hfit. lia. }
  assert (Hw : Buffer.written
                 (Builder.add_size self p
                    (Buffer.extend b (replicate (Z.to_nat p) "000"%byte)))
               = Buffer.written b + Z.to_nat p).
  { rewrite add_size_written, written_extend, length_replicate. reflexivity. }
  assert (Hi : Builder.item_index self
                 (Builder.add_size self p
                    (Buffer.extend b (replicate (Z.to_nat p) "000"%byte)))
               = Builder.item_index self b).
  { apply item_index_same. rewrite add_size_committed. reflexivity. }
  split.
  + unfold Buffer.is_aligned. apply Z.eqb_eq. rewrite Hw.
    rewrite Nat2Z.inj_add, Z2Nat.id, Hfull by lia.
    unfold p, padding_of, Item.align_bytes in *. Z.div_mod_to_equations. lia.
  + rewrite Hw, Hi, Hs. lia.
Qed.

End PaddingFacts2.

Lemma add_padding_counts_in_parent_witness :
  exists b',
    Builder.add_padding false false ex_child ex_grown = Done b' /\
    Builder.size ex_child b' = 18%Z /\ Builder.size ex_parent b' = 40%Z /\
    Builder.add_padding false false ex_child
      (Builder.add_size ex_parent 1 ex_grown) = AssertionFailed.
Proof.
destruct (add_padding_counts_in_parent false ex_parent 16 ex_grown eq_refl)
  as (_ & Hok); [vm_compute; discriminate|].
destruct Hok as (b' & Hpad & _ & Hself & Hs); [right; reflexivity|].
exists b'. split; [exact Hpad|]. split; [exact (eq_trans Hself eq_refl)|].
split; [rewrite (Hs ex_parent); [reflexivity | left; reflexivity]|].
destruct (add_padding_counts_in_parent false ex_parent 16
            (Builder.add_size ex_parent 1 ex_grown) eq_refl) as (Hfail & _);
  [vm_compute; discriminate|].
apply Hfail; [reflexivity | vm_compute; discriminate].
Defined.

Lemma add_padding_top_level_uncounted_witness :
  exists b',
    Builder.add_padding false false ex_top8
      (Builder.add_size ex_top8 5 (snd (Builder.append ex_hello 5 ex_arena8)))
    = Done b' /\
    Builder.size ex_top8 b' = 13%Z /\ Buffer.written b' = 16.
Proof.
destruct (add_padding_top_level_uncounted false 0
            (Builder.add_size ex_top8 5 (snd (Builder.append ex_hello 5 ex_arena8))))
  as (b' & Hpad & Hb & Hs); [vm_compute; discriminate|].
exists b'. split; [exact Hpad|].
split; [rewrite (Hs ex_top8); reflexivity|].
unfold Buffer.written. rewrite Hb. reflexivity.
Defined.

Lemma add_padding_aligns_tail_witness :
  exists b',
    Builder.add_padding false true ex_top8
      (Builder.add_size ex_top8 5 (snd (Builder.append ex_hello 5 ex_arena8)))
    = Done b' /\
    Buffer.is_aligned b' = true /\
    Z.of_nat (Buffer.written b')
    = (Z.of_nat (Builder.item_index ex_top8 b') + Builder.size ex_top8 b')%Z.
Proof.
destruct (add_padding_aligns_tail false ex_top8
            (Builder.add_size ex_top8 5 (snd (Builder.append ex_hello 5 ex_arena8))))
  as (b' & Hpad & Hal & Hw); [reflexivity | reflexivity | reflexivity
                              | vm_compute; discriminate |].
exists b'. split; [exact Hpad|]. split; [exact Hal|]. exact Hw.
Defined.

Section SizeFacts.
Import Mem.

Lemma byte_of_Z_of_byte (z : Z) (b : byte) :
  (z mod 256 = Z_of_byte b)%Z -> byte_of_Z z = b.
Proof.
intros H. unfold byte_of_Z, Z_of_byte in *. rewrite H, N2Z.id, Byte.of_to_N.
reflexivity.
Qed.

(** Four bytes read as a number and written back are the same four bytes. *)
Lemma u32_bytes_u32_of_bytes (bs : list byte) :
  length bs = 4 -> u32_bytes (u32_of_bytes bs) = bs.
Proof.
intros Hlen.
destruct bs as [|b0 [|b1 [|b2 [|b3 [|b4 bs]]]]]; try discriminate.
unfold u32_bytes, u32_of_bytes. cbn [fold_right].
pose proof (Z_of_byte_range b0). pose proof (Z_of_byte_range b1).
pose proof (Z_of_byte_range b2). pose proof (Z_of_byte_range b3).
rewrite !Z.shiftr_div_pow2 by lia.
change (2 ^ 8)%Z with 256%Z. change (2 ^ 16)%Z with 65536%Z.
change (2 ^ 24)%Z with 16777216%Z.
repeat f_equal; apply byte_of_Z_of_byte; Z.div_mod_to_equations; lia.
Qed.

Lemma store_u32_same (mem : list byte) (pos : nat) :
  pos + 4 <= length mem -> store_u32 mem pos (load_u32 mem pos) = mem.
Proof.
intros H. rewrite store_u32_split by exact H. unfold load_u32.
rewrite u32_bytes_u32_of_bytes by (rewrite length_take, length_drop; lia).
rewrite <- (take_drop pos mem) at 4.
f_equal. rewrite <- (take_drop 4 (drop pos mem)) at 2.
f_equal. rewrite drop_drop. reflexivity.
Qed.

Lemma with_bytes_same (b : Buffer.t) : Buffer.with_bytes b (Buffer.m_bytes b) = b.
Proof. destruct b. reflexivity. Qed.

(** X5: [add_size(0)] leaves the arena exactly as it was. *)
Theorem add_size_zero_is_noop (self : Builder.t) (b : Buffer.t) :
  Builder.open_chain self b = true -> Builder.add_size self 0 b = b.
Proof.
induction self as [off|parent off IH] using Builder_ind; intros Hc;
  pose proof (open_chain_header_in _ _ Hc) as Hin;
  cbn [Builder.add_size Builder.m_parent]; unfold Item.add_size, Item.byte_size.
- rewrite Z.add_0_r, u32_small by apply load_u32_range.
  rewrite store_u32_same by exact Hin. apply with_bytes_same.
- rewrite Z.add_0_r, u32_small by apply load_u32_range.
  rewrite store_u32_same by exact Hin. rewrite with_bytes_same.
  apply IH. apply (open_chain_parent _ _ _ Hc).
Qed.

(** X6: two [add_size] calls in a row leave every size of the chain where
    one call with the sum leaves it, in either order of the two. *)
Theorem add_size_composes (self : Builder.t) (d1 d2 : Z) (b : Buffer.t) :
  Builder.open_chain self b = true ->
  forall a, In a (Builder.chain self) ->
    Builder.size a (Builder.add_size self d2 (Builder.add_size self d1 b))
    = Builder.size a (Builder.add_size self (d1 + d2) b) /\
    Builder.size a (Builder.add_size self d2 (Builder.add_size self d1 b))
    = Builder.size a (Builder.add_size self d1 (Builder.add_size self d2 b)).
Proof.
intros Hc a Ha.
rewrite !add_size_chain by (try exact Ha; try apply add_size_open_chain; exact Hc).
unfold u32. rewrite !Zplus_mod_idemp_l. split; f_equal; lia.
Qed.

End SizeFacts.

Lemma add_size_zero_is_noop_witness :
  Builder.add_size ex_child 0 ex_grown = ex_grown.
Proof. apply (add_size_zero_is_noop ex_child ex_grown). reflexivity. Defined.

Lemma add_size_composes_witness :
  Builder.size ex_parent
    (Builder.add_size ex_child 4294967295 (Builder.add_size ex_child 7 ex_grown))
  = Builder.size ex_parent (Builder.add_size ex_child (7 + 4294967295) ex_grown).
Proof.
apply (add_size_composes ex_child 7 4294967295 ex_grown);
  [reflexivity | right; left; reflexivity].
Defined.

Section AppendCompositionFacts.
Import Mem.

Lemma extend_extend (b : Buffer.t) (t1 t2 : list byte) :
  Buffer.extend (Buffer.extend b t1) t2 = Buffer.extend b (t1 ++ t2).
Proof.
unfold Buffer.extend, Buffer.written. cbn.
rewrite !length_app, <- app_assoc, Nat.add_assoc. reflexivity.
Qed.

Lemma append_zero_extend (b : Buffer.t) :
  Builder.append_zero b = (1%Z, Buffer.extend b [Byte.x00]).
Proof.
unfold Builder.append_zero, Builder.reserve_space. rewrite reserve_space_extend.
cbn [Buffer.m_bytes Buffer.extend seq map].
rewrite <- (Nat.add_0_r (Buffer.written b)) at 2. rewrite insert_written.
cbn. reflexivity.
Qed.

(** X7: the deprecated [append_zero()] does what its replacement
    [append_with_zero(data, 0)] does, whatever [data] is: one zero byte at
    the tail, 1 returned, no size field changed. *)
Theorem append_zero_is_append_with_zero (data : list byte) (b : Buffer.t) :
  Builder.append_zero b = Builder.append_with_zero data 0 b /\
  puts b [Byte.x00] 1 (Builder.append_zero b).
Proof.
split.
- rewrite append_zero_extend.
  destruct (append_with_zero_extends data 0 b) as [tail [_ [Ht H]]].
  rewrite H. change (u32 (0 + 1)) with 1%Z. f_equal. f_equal.
  rewrite Ht. reflexivity.
- rewrite append_zero_extend. apply puts_extend.
Qed.

(** X8: for [a] and [c] whose lengths together are below 2^32, so that all
    three lengths are values of [item_size_type], appending [a] and then [c]
    leaves the arena as appending [a ++ c] in one call does, and the two
    returned lengths add up to the one. *)
Theorem append_append (a c : list byte) (b : Buffer.t) :
  (Z.of_nat (length a) + Z.of_nat (length c) < u32_modulus)%Z ->
  let r1 := Builder.append a (Z.of_nat (length a)) b in
  let r2 := Builder.append c (Z.of_nat (length c)) (snd r1) in
  let r := Builder.append (a ++ c) (Z.of_nat (length (a ++ c))) b in
  snd r2 = snd r /\ (fst r1 + fst r2 = fst r)%Z.
Proof.
intros _. cbv zeta. repeat (rewrite append_fits by reflexivity; cbn [fst snd]).
rewrite extend_extend, length_app. split; [reflexivity | lia].
Qed.

(** X9: [append_with_zero(data, L)], for [L + 1] fitting 32 bits, leaves the
    arena as [append(data, L)] followed by [append_zero()] does, and returns
    the sum of what they return. *)
Theorem append_with_zero_splits (data : list byte) (b : Buffer.t) :
  (Z.of_nat (length data) + 1 < u32_modulus)%Z ->
  let r1 := Builder.append data (Z.of_nat (length data)) b in
  let r2 := Builder.append_zero (snd r1) in
  Builder.append_with_zero data (Z.of_nat (length data)) b
  = ((fst r1 + fst r2)%Z, snd r2).
Proof.
intros Hfit. cbv zeta.
rewrite append_with_zero_fits by (reflexivity || exact Hfit).
rewrite append_fits by reflexivity. cbn [fst snd].
rewrite append_zero_extend. cbn [fst snd]. rewrite extend_extend. reflexivity.
Qed.

Lemma strlen_le (str : list byte) : Builder.strlen str <= length str.
Proof.
induction str as [|c str IH]; cbn; [lia|].
destruct (Byte.eqb c "000"%byte); lia.
Qed.

Lemma take_strlen_terminated (str : list byte) :
  take (S (Builder.strlen str)) (str ++ [Byte.x00])
  = take (Builder.strlen str) str ++ [Byte.x00].
Proof.
induction str as [|c str IH]; [reflexivity|].
cbn [Builder.strlen app]. destruct (Byte.eqb c "000"%byte) eqn:E.
- apply Byte.byte_dec_bl in E. subst c. reflexivity.
- cbn [take app]. f_equal. exact IH.
Qed.

Lemma copy_n_snoc (l : list byte) (x : byte) (t : nat) (mem : list byte) :
  copy_n (l ++ [x]) t mem = <[t + length l := x]> (copy_n l t mem).
Proof.
revert t mem. induction l as [|y l IH]; intros t mem; cbn [app copy_n length].
- rewrite Nat.add_0_r. reflexivity.
- rewrite IH. f_equal. lia.
Qed.

(** X10: [append(str)] is [append_with_zero(str, strlen(str))], for every
    string whose length with the terminator fits 32 bits. *)
Theorem append_str_is_append_with_zero (str : list byte) (b : Buffer.t) :
  (Z.of_nat (Builder.strlen str) + 1 < u32_modulus)%Z ->
  Builder.append_str str b
  = Builder.append_with_zero str (Z.of_nat (Builder.strlen str)) b.
Proof.
intros Hfit. unfold Builder.append_str.
set (n := Builder.strlen str) in *.
destruct (append_extends (str ++ ["000"%byte]) (u32 (Z.of_nat n + 1)) b)
  as [t1 [_ [Ht1 H1]]].
destruct (append_with_zero_extends str (Z.of_nat n) b) as [t2 [_ [Ht2 H2]]].
rewrite H1, H2. f_equal. f_equal. rewrite Ht1, Ht2.
rewrite u32_small by lia.
replace (Z.to_nat (Z.of_nat n + 1)) with (S n) by lia.
rewrite Nat2Z.id. unfold n. rewrite take_strlen_terminated, copy_n_snoc.
rewrite length_take. pose proof (strlen_le str).
rewrite Nat.add_0_l. f_equal. lia.
Qed.

End AppendCompositionFacts.

Lemma append_append_witness :
  snd (Builder.append ex_payload 10 (snd (Builder.append ex_hello 5 arena0)))
  = snd (Builder.append (ex_hello ++ ex_payload) 15 arena0) /\
  (fst (Builder.append ex_hello 5 arena0)
   + fst (Builder.append ex_payload 10 (snd (Builder.append ex_hello 5 arena0)))
   = 15)%Z.
Proof.
destruct (append_append ex_hello ex_payload arena0 eq_refl) as [H1 H2].
split; [exact H1 | exact H2].
Defined.

Lemma append_with_zero_splits_witness :
  Builder.append_with_zero ex_hello 5 ex_arena8
  = (6%Z, snd (Builder.append_zero (snd (Builder.append ex_hello 5 ex_arena8)))).
Proof. apply (append_with_zero_splits ex_hello ex_arena8). reflexivity. Defined.

Lemma append_str_is_append_with_zero_witness :
  Builder.append_str (ex_hello ++ [Byte.x00; Byte.x41]) ex_arena8
  = Builder.append_with_zero (ex_hello ++ [Byte.x00; Byte.x41]) 5 ex_arena8.
Proof.
apply (append_str_is_append_with_zero (ex_hello ++ [Byte.x00; Byte.x41]) ex_arena8).
reflexivity.
Defined.

Section ConstructorFacts.
Import Mem.

(** X11: in an instrumented build the constructor succeeds exactly when the
    tail of the arena is aligned once the header is reserved and the counter
    of open builders is 0 (no parent) or 1 (parent); in a build with
    [NDEBUG] it always succeeds and leaves the counter alone. *)
Theorem ctor_succeeds_exactly (b : Buffer.t) (parent : option Builder.t) (size : Z) :
  ((exists r, Builder.ctor false b parent size = Done r) <->
   (Z.of_nat (Buffer.written b + Z.to_nat size) mod Item.align_bytes = 0)%Z /\
   Buffer.builder_count b = match parent with Some _ => 1%Z | None => 0%Z end) /\
  (exists r, Builder.ctor true b parent size = Done r /\
             Buffer.builder_count (snd r) = Buffer.builder_count b).
Proof.
split.
- rewrite ctor_unfolded. cbv zeta. cbn [assert].
  unfold Buffer.is_aligned. rewrite written_extend, length_map, length_seq.
  destruct (Z.of_nat (Buffer.written b + Z.to_nat size) mod Item.align_bytes =? 0)%Z
    eqn:Ea; cbn [bind].
  + destruct (Buffer.builder_count b
              =? match parent with Some _ => 1 | None => 0 end)%Z eqn:Ec; cbn [bind].
    * apply Z.eqb_eq in Ea, Ec. split; [auto | eauto].
    * apply Z.eqb_neq in Ec. split; [intros [r Hr]; discriminate | tauto].
  + apply Z.eqb_neq in Ea. split; [intros [r Hr]; discriminate | tauto].
- rewrite ctor_unfolded. cbv zeta. cbn [assert bind]. eexists. split; [reflexivity|].
  cbn [snd]. destruct parent as [p|]; [|reflexivity].
  rewrite add_size_with_bytes. reflexivity.
Qed.

(** X12: a successful constructor has taken the item offset at the old tail,
    so the new record starts exactly where the arena ended; it has reserved
    [size] bytes there and left them as the storage had them (the size field
    of the new record is not set); it has added [size] to the parent and to
    every ancestor; and it has changed no other byte. *)
Theorem ctor_reserves_header (NDEBUG : bool) (b : Buffer.t)
    (parent : option Builder.t) (size : Z) (self : Builder.t) (b' : Buffer.t) :
  Builder.ctor NDEBUG b parent size = Done (self, b') ->
  Buffer.committed b <= Buffer.written b ->
  open_chain_opt parent b = true ->
  Builder.m_parent self = parent /\
  Builder.item_index self b' = Buffer.written b /\
  drop (Buffer.written b) (Buffer.m_bytes b')
  = map (Buffer.m_uninit b) (seq (Buffer.written b) (Z.to_nat size)) /\
  (forall p, parent = Some p -> forall a, In a (Builder.chain p) ->
     Builder.size a b' = u32 (Builder.size a b + size)) /\
  preserves (size_fields parent b) b b'.
Proof.
intros Hctor Hcw Hchain. rewrite ctor_unfolded in Hctor. cbv zeta in Hctor.
destruct (assert NDEBUG (Buffer.is_aligned _)); cbn [bind] in Hctor; [|discriminate].
destruct (assert NDEBUG (_ =? _)%Z); cbn [bind] in Hctor; [|discriminate].
injection Hctor as <- <-.
set (region := map (Buffer.m_uninit b) (seq (Buffer.written b) (Z.to_nat size))).
set (b2 := match parent with
           | Some p => Builder.add_size p size (Buffer.extend b region)
           | None => Buffer.extend b region
           end).
assert (Hb3 : forall x, Builder.size x (if NDEBUG then b2
                                        else Buffer.increment_builder_count b2)
                        = Builder.size x b2) by (destruct NDEBUG; reflexivity).
assert (Hbytes : Buffer.m_bytes (if NDEBUG then b2
                                 else Buffer.increment_builder_count b2)
                 = Buffer.m_bytes b2) by (destruct NDEBUG; reflexivity).
assert (Hcomm : Buffer.committed (if NDEBUG then b2
                                  else Buffer.increment_builder_count b2)
                = Buffer.committed b).
{ transitivity (Buffer.committed b2); [destruct NDEBUG; reflexivity|].
  unfold b2. destruct parent; [rewrite add_size_committed|]; reflexivity. }
split; [reflexivity|]. split; [|split; [|split]].
- rewrite item_index_eq, Hcomm. cbn [Builder.m_item_offset]. lia.
- rewrite Hbytes. unfold b2. destruct parent as [p|].
  + apply add_size_after_extend_tail. exact Hchain.
  + cbn [Buffer.m_bytes Buffer.extend]. apply drop_app_length.
- intros p -> x Hx. rewrite Hb3. unfold b2.
  apply add_size_after_extend_sizes; assumption.
- assert (Hp : preserves (size_fields parent b) b b2).
  { unfold b2. destruct parent as [p|]; [|apply extend_preserves].
    apply add_size_after_extend_preserves. auto. }
  destruct Hp as (P1 & P2 & P3). repeat split.
  + exact Hcomm.
  + unfold Buffer.written in *. rewrite Hbytes. exact P2.
  + intros i Hi Ht. rewrite Hbytes. apply P3; assumption.
Qed.

(** X13: the destructor undoes what the constructor did to the counter of
    open builders and nothing else: the bytes the constructor reserved and
    the sizes it added to the ancestors stay. *)
Theorem dtor_restores_count_only (NDEBUG : bool) (b : Buffer.t)
    (parent : option Builder.t) (size : Z) (self : Builder.t) (b' : Buffer.t) :
  Builder.ctor NDEBUG b parent size = Done (self, b') ->
  Buffer.builder_count (Builder.dtor NDEBUG b') = Buffer.builder_count b /\
  Buffer.m_bytes (Builder.dtor NDEBUG b') = Buffer.m_bytes b' /\
  Buffer.committed (Builder.dtor NDEBUG b') = Buffer.committed b' /\
  Buffer.data (Builder.dtor NDEBUG b') = Buffer.data b'.
Proof.
intros Hctor. rewrite ctor_unfolded in Hctor. cbv zeta in Hctor.
destruct (assert NDEBUG (Buffer.is_aligned _)); cbn [bind] in Hctor; [|discriminate].
destruct (assert NDEBUG (_ =? _)%Z); cbn [bind] in Hctor; [|discriminate].
injection Hctor as _ <-.
assert (Hc : forall x, Buffer.builder_count
                         match parent with
                         | Some p => Builder.add_size p size (Buffer.extend b x)
                         | None => Buffer.extend b x
                         end = Buffer.builder_count b).
{ intros x. destruct parent as [p|]; [rewrite add_size_with_bytes|]; reflexivity. }
unfold Builder.dtor. destruct NDEBUG.
- rewrite Hc. auto.
- cbn. fold (Buffer.builder_count
               match parent with
               | Some p =>
                   Builder.add_size p size
                     (Buffer.extend b (map (Buffer.m_uninit b)
                                         (seq (Buffer.written b) (Z.to_nat size))))
               | None =>
                   Buffer.extend b (map (Buffer.m_uninit b)
                                      (seq (Buffer.written b) (Z.to_nat size)))
               end).
  rewrite Hc. repeat split. unfold Buffer.builder_count. lia.
Qed.

(** X14: [reserve_space_for<T>()] in an instrumented build is an assertion
    failure exactly when the tail of the arena is not aligned; when it
    succeeds it returns the old tail, the arena has grown by [sizeof(T)]
    bytes and kept every byte it had, and its tail is aligned again exactly
    when [sizeof(T)] is a multiple of the alignment boundary. *)
Theorem reserve_space_for_needs_alignment (sizeof_T : nat) (b : Buffer.t) :
  (Builder.reserve_space_for false sizeof_T b = AssertionFailed <->
   Buffer.is_aligned b = false) /\
  (forall NDEBUG target b',
     Builder.reserve_space_for NDEBUG sizeof_T b = Done (target, b') ->
     target = Buffer.written b /\
     Buffer.written b' = Buffer.written b + sizeof_T /\
     take (Buffer.written b) (Buffer.m_bytes b') = Buffer.m_bytes b /\
     (Buffer.is_aligned b = true ->
      (Buffer.is_aligned b' = true <->
       (Z.of_nat sizeof_T mod Item.align_bytes = 0)%Z))).
Proof.
split.
- unfold Builder.reserve_space_for. cbn [assert].
  destruct (Buffer.is_aligned b); cbn [bind]; split; congruence.
- intros NDEBUG target b'. unfold Builder.reserve_space_for, Builder.reserve_space.
  rewrite reserve_space_extend.
  destruct (assert NDEBUG (Buffer.is_aligned b)); cbn [bind]; [|discriminate].
  intros [= <- <-]. split; [reflexivity|].
  split; [rewrite written_extend, length_map, length_seq; reflexivity|].
  split; [cbn [Buffer.m_bytes Buffer.extend]; apply take_app_length|].
  unfold Buffer.is_aligned. rewrite written_extend, length_map, length_seq.
  rewrite !Z.eqb_eq. intros Hal. unfold Item.align_bytes in *.
  rewrite Nat2Z.inj_add. split; intros H; Z.div_mod_to_equations; lia.
Qed.

End ConstructorFacts.

Lemma ctor_succeeds_exactly_witness :
  (exists r, Builder.ctor false arena0 None 16 = Done r) /\
  Builder.ctor false arena0 None 12 = AssertionFailed.
Proof.
destruct (ctor_succeeds_exactly arena0 None 16) as [[_ Hok] _].
destruct (ctor_succeeds_exactly arena0 None 12) as [[Hfail _] _].
split; [apply Hok; split; reflexivity|].
destruct (Builder.ctor false arena0 None 12) as [r|] eqn:E; [|reflexivity].
exfalso. destruct Hfail as [Hmod _]; [eauto | vm_compute in Hmod; discriminate].
Defined.

Lemma ctor_reserves_header_witness :
  exists self b',
    Builder.ctor false ex_arena16 (Some ex_parent) 8 = Done (self, b') /\
    Builder.item_index self b' = 16 /\
    drop 16 (Buffer.m_bytes b') = replicate 8 Byte.xcd /\
    Builder.size ex_parent b' = 24%Z.
Proof.
destruct (Builder.ctor false ex_arena16 (Some ex_parent) 8) as [[self b']|] eqn:E;
  [|vm_compute in E; discriminate].
destruct (ctor_reserves_header false ex_arena16 (Some ex_parent) 8 self b' E)
  as (_ & Hi & Hd & Hs & _); [vm_compute; lia | reflexivity |].
exists self, b'. split; [reflexivity|]. split; [exact Hi|]. split; [exact Hd|].
rewrite (Hs ex_parent eq_refl ex_parent); [reflexivity | left; reflexivity].
Defined.

Lemma dtor_restores_count_only_witness :
  exists self b',
    Builder.ctor false ex_arena16 (Some ex_parent) 8 = Done (self, b') /\
    Buffer.builder_count b' = 2%Z /\
    Buffer.builder_count (Builder.dtor false b') = 1%Z /\
    Buffer.m_bytes (Builder.dtor false b') = Buffer.m_bytes b'.
Proof.
destruct (Builder.ctor false ex_arena16 (Some ex_parent) 8) as [[self b']|] eqn:E;
  [|vm_compute in E; discriminate].
destruct (dtor_restores_count_only false ex_arena16 (Some ex_parent) 8 self b' E)
  as (Hc & Hb & _).
exists self, b'. split; [reflexivity|].
split; [vm_compute in E; injection E as _ <-; reflexivity|].
split; [exact Hc | exact Hb].
Defined.

Lemma reserve_space_for_needs_alignment_witness :
  Builder.reserve_space_for false 8 (snd (Builder.append ex_hello 5 ex_arena8))
  = AssertionFailed /\
  exists target b',
    Builder.reserve_space_for false 12 ex_arena8 = Done (target, b') /\
    target = 8 /\ Buffer.written b' = 20.
Proof.
destruct (reserve_space_for_needs_alignment 8
            (snd (Builder.append ex_hello 5 ex_arena8))) as [[_ Hfail] _].
destruct (reserve_space_for_needs_alignment 12 ex_arena8) as [_ Hok].
split; [apply Hfail; reflexivity|].
destruct (Builder.reserve_space_for false 12 ex_arena8) as [[target b']|] eqn:E;
  [|vm_compute in E; discriminate].
destruct (Hok false target b' E) as (Ht & Hw & _).
exists target, b'. split; [reflexivity|]. split; [exact Ht | exact Hw].
Defined.

Section AttachAlignmentFacts.
Import Mem.

Lemma padded_size_aligned (item : list byte) :
  (Item.padded_size item mod Item.align_bytes = 0)%Z.
Proof.
unfold Item.padded_size. rewrite u32_mod_align.
unfold Item.padded_length, Item.align_bytes. apply Z.mod_mul. lia.
Qed.

(** X15: [add_item] keeps things aligned: an arena whose tail was aligned has
    an aligned tail afterwards, and every size of the chain that was a
    multiple of the alignment boundary still is one. *)
Theorem add_item_keeps_alignment (self : Builder.t) (item : list byte) (b : Buffer.t) :
  Builder.open_chain self b = true ->
  (Buffer.is_aligned b = true ->
   Buffer.is_aligned (Builder.add_item self item b) = true) /\
  (forall a, In a (Builder.chain self) ->
     (Builder.size a b mod Item.align_bytes = 0)%Z ->
     (Builder.size a (Builder.add_item self item b) mod Item.align_bytes = 0)%Z).
Proof.
intros Hc. unfold Builder.add_item.
destruct (buffer_add_item_grows item b) as [tail [Hlen ->]].
pose proof (padded_size_aligned item) as Hpad.
pose proof (padded_size_range item) as Hr.
split.
- unfold Buffer.is_aligned. rewrite !Z.eqb_eq.
  rewrite add_size_written, written_extend, Hlen, Nat2Z.inj_add, Z2Nat.id by lia.
  intros Hal. unfold Item.align_bytes in *. Z.div_mod_to_equations. lia.
- intros a Ha Hal. rewrite add_size_after_extend_sizes by assumption.
  rewrite u32_mod_align. unfold Item.align_bytes in *.
  Z.div_mod_to_equations. lia.
Qed.


End AttachAlignmentFacts.

Lemma add_item_keeps_alignment_witness :
  Buffer.is_aligned (Builder.add_item ex_child ex_item ex_arena24) = true /\
  (Builder.size ex_parent (Builder.add_item ex_child ex_item ex_arena24)
   mod Item.align_bytes = 0)%Z.
Proof.
destruct (add_item_keeps_alignment ex_child ex_item ex_arena24 eq_refl) as [Ht Hs].
split; [apply Ht; reflexivity|].
apply (Hs ex_parent); [right; left; reflexivity | reflexivity].
Defined.


(** * Further properties of the command line parser *)

Section ProgramNameFacts.
Import CommandLine.
Local Open Scope string_scope.

Lemma contains_cons (c a : ascii) (s : string) :
  contains c (String a s) = Ascii.eqb c a || contains c s.
Proof. reflexivity. Qed.

(** Where [strrchr] finds the character, the string splits there and the
    character does not occur after it; where it finds nothing, the character
    does not occur. *)
Lemma strrchr_split (ch : ascii) (s : string) :
  ch <> Ascii.zero ->
  match strrchr s ch with
  | Some i =>
      exists pre post, s = pre ++ String ch post /\ String.length pre = i /\
                       contains ch post = false
  | None => contains ch s = false
  end.
Proof.
intros Hch. assert (Hz : Ascii.eqb ch Ascii.zero = false) by (apply Ascii.eqb_neq; exact Hch).
induction s as [|c s IH]; cbn [strrchr].
- rewrite Hz. reflexivity.
- destruct (strrchr s ch) as [i|].
  + destruct IH as (pre & post & -> & <- & Hpost).
    exists (String c pre), post. auto.
  + destruct (Ascii.eqb c ch) eqn:E.
    * apply Ascii.eqb_eq in E. subst c. exists EmptyString, s. auto.
    * rewrite contains_cons, IH, orb_false_r.
      rewrite Ascii.eqb_sym. exact E.
Qed.

Lemma advance_past (pre : string) (c : ascii) (post : string) :
  advance (String.length pre + 1) (pre ++ String c post) = post.
Proof. induction pre as [|a pre IH]; [reflexivity | exact IH]. Qed.

(** X17: [program_name] returns the part of the name after its last '/': the
    name is a directory part, empty or ending in '/', followed by the result,
    and the result holds no '/'. *)
Theorem program_name_is_basename (name : string) :
  contains "/" (program_name name) = false /\
  exists dir, name = dir ++ program_name name /\
              (dir = EmptyString \/ exists d, dir = d ++ "/").
Proof.
unfold program_name.
pose proof (strrchr_split "/" name ltac:(discriminate)) as H.
destruct (strrchr name "/") as [i|].
- destruct H as (pre & post & -> & <- & Hpost). rewrite advance_past.
  split; [exact Hpost|]. exists (pre ++ "/"). split.
  + rewrite append_associative. reflexivity.
  + right. exists pre. reflexivity.
- split; [exact H|]. exists EmptyString. auto.
Qed.

(** X18: [program_name] is idempotent, and a name without '/' is returned as
    it is. *)
Theorem program_name_idempotent (name : string) :
  program_name (program_name name) = program_name name /\
  (contains "/" name = false -> program_name name = name).
Proof.
assert (Hno : forall s, contains "/" s = false -> program_name s = s).
{ intros s Hs. unfold program_name.
  pose proof (strrchr_split "/" s ltac:(discriminate)) as H.
  destruct (strrchr s "/") as [i|]; [|reflexivity].
  destruct H as (pre & post & -> & _ & _). exfalso.
  assert (Ht : contains "/" (pre ++ String "/" post) = true).
  { apply contains_get. exists (String.length pre).
    clear Hs. induction pre as [|a pre IH]; [reflexivity | exact IH]. }
  congruence. }
split; [|apply Hno].
apply Hno. unfold program_name.
pose proof (strrchr_split "/" name ltac:(discriminate)) as H.
destruct (strrchr name "/") as [i|]; [|exact H].
destruct H as (pre & post & -> & <- & Hpost). rewrite advance_past. exact Hpost.
Qed.

Lemma prefix_iff (p s : string) :
  String.prefix p s = true <-> exists rest, s = p ++ rest.
Proof.
revert s. induction p as [|c p IH]; intros s.
- split; [intros _; exists s; reflexivity | destruct s; reflexivity].
- destruct s as [|a s]; cbn [String.prefix].
  + split; [discriminate | intros [rest H]; discriminate].
  + destruct (ascii_dec c a) as [->|Hne].
    * rewrite IH. split; intros [rest H]; exists rest; cbn in *; congruence.
    * split; [discriminate|]. intros [rest H]. cbn in H. congruence.
Qed.

(** X19: for a prefix without NUL, [compare_prefix(str, prefix)] holds exactly
    when [str] is [prefix] followed by something; in particular every such
    prefix is a prefix of itself and the empty prefix fits every string. *)
Theorem compare_prefix_iff (str p : string) :
  c_str p = p ->
  (compare_prefix str p = true <-> exists rest, str = p ++ rest).
Proof.
intros Hp. rewrite compare_prefix_is_prefix by exact Hp. apply prefix_iff.
Qed.

(** X20: when [db] is a connection URI or holds an '=' with no NUL before it,
    [build_conninfo] looks at nothing but [db]: user, password, host and
    port do not reach the result. *)
Theorem build_conninfo_ignores_other_fields (opt opt' : database_options_t) :
  db opt = db opt' ->
  String.prefix "postgresql://" (db opt) = true
  \/ String.prefix "postgres://" (db opt) = true
  \/ occurs_before_nul "=" (db opt) ->
  build_conninfo opt = build_conninfo opt'.
Proof.
intros Hdb H.
destruct (String.prefix "postgresql://" (db opt)) eqn:H1.
{ rewrite !build_conninfo_uri by (rewrite <- ?Hdb; auto). exact Hdb. }
destruct (String.prefix "postgres://" (db opt)) eqn:H2.
{ rewrite !build_conninfo_uri by (rewrite <- ?Hdb; auto). exact Hdb. }
destruct H as [H|[H|H]]; try discriminate.
rewrite !build_conninfo_keywords by (rewrite <- ?Hdb; assumption).
rewrite Hdb. reflexivity.
Qed.

End ProgramNameFacts.

Lemma compare_prefix_iff_witness :
  CommandLine.compare_prefix "postgres://gis@db/osm" "postgres://" = true /\
  CommandLine.compare_prefix "postgres:/" "postgres://" = false.
Proof.
destruct (CommandLine.compare_prefix "postgres:/" "postgres://") eqn:E.
- exfalso.
  apply (compare_prefix_iff "postgres:/" "postgres://" eq_refl) in E.
  destruct E as [rest E]. discriminate.
- split; [|reflexivity].
  apply (compare_prefix_iff "postgres://gis@db/osm" "postgres://" eq_refl).
  exists "gis@db/osm"%string. reflexivity.
Defined.

Lemma build_conninfo_ignores_other_fields_witness :
  CommandLine.build_conninfo CommandLine.ex_keywords
  = CommandLine.build_conninfo
      (CommandLine.mk_options "dbname=osm host=db1" "gis" "secret" "db2" "5433").
Proof.
apply build_conninfo_ignores_other_fields; [reflexivity|].
right. right. exists 6. split; [reflexivity|].
intros j Hj. do 6 (destruct j as [|j]; [discriminate|]). lia.
Defined.

Section NumberFacts.
Import CommandLine.
Local Open Scope string_scope.

Lemma is_c_string_cons (c : ascii) (s : string) :
  is_c_string (String c s) = true -> c <> Ascii.zero /\ is_c_string s = true.
Proof.
unfold is_c_string. cbn [list_ascii_of_string existsb].
rewrite negb_orb. intros H. apply andb_prop in H. destruct H as [H1 H2].
split; [|exact H2]. intros ->. discriminate.
Qed.

(** On C strings [strcmp] returns 0 exactly for equal strings. *)
Lemma strcmp_eqb (s1 s2 : string) :
  is_c_string s1 = true -> is_c_string s2 = true ->
  (strcmp s1 s2 =? 0)%Z = String.eqb s1 s2.
Proof.
revert s2. induction s1 as [|c1 s1 IH]; intros [|c2 s2] H1 H2; cbn [strcmp String.eqb].
- reflexivity.
- apply is_c_string_cons in H2. destruct H2 as [Hc _].
  apply Z.eqb_neq. intros H. apply Hc. apply uchar_zero. lia.
- apply is_c_string_cons in H1. destruct H1 as [Hc _].
  apply Z.eqb_neq. intros H. apply Hc. apply uchar_zero. lia.
- apply is_c_string_cons in H1. apply is_c_string_cons in H2.
  destruct (Ascii.eqb c1 c2) eqn:E; [apply IH; tauto|].
  apply Z.eqb_neq. intros H. apply Ascii.eqb_neq in E. apply E.
  apply uchar_inj. lia.
Qed.

Lemma format_log_level (arg : string) :
  format "Unknown value for --log-level option: {}" arg
  = "Unknown value for --log-level option: " ++ arg.
Proof. cbn. rewrite append_empty_r. reflexivity. Qed.

(** X21: [parse_log_level_param] accepts exactly the names debug, info, warn,
    warning and error, as written; warn and warning both give the level
    warn; any other argument throws, the message carrying the argument. *)
Theorem parse_log_level_param_accepts (arg : string) :
  is_c_string arg = true ->
  (parse_log_level_param arg = Ok log_level_debug <-> arg = "debug") /\
  (parse_log_level_param arg = Ok log_level_info <-> arg = "info") /\
  (parse_log_level_param arg = Ok log_level_warn
   <-> arg = "warn" \/ arg = "warning") /\
  (parse_log_level_param arg = Ok log_level_error <-> arg = "error") /\
  (arg <> "debug" -> arg <> "info" -> arg <> "warn" -> arg <> "warning" ->
   arg <> "error" ->
   parse_log_level_param arg
   = Throw ("Unknown value for --log-level option: " ++ arg)).
Proof.
intros Hc. unfold parse_log_level_param.
rewrite !strcmp_eqb by (exact Hc || reflexivity). rewrite format_log_level.
destruct (String.eqb_spec arg "debug") as [->|N1];
  [repeat split; try discriminate; try reflexivity; try tauto;
   intros [H|H]; discriminate|].
destruct (String.eqb_spec arg "info") as [->|N2];
  [repeat split; try discriminate; try reflexivity; try tauto;
   intros [H|H]; discriminate|].
destruct (String.eqb_spec arg "warn") as [->|N3];
  [cbn [orb]; repeat split; try discriminate; try reflexivity; try tauto|].
destruct (String.eqb_spec arg "warning") as [->|N4];
  [cbn [orb]; repeat split; try discriminate; try reflexivity; try tauto|].
cbn [orb].
destruct (String.eqb_spec arg "error") as [->|N5];
  [repeat split; try discriminate; try reflexivity; try tauto;
   intros [H|H]; discriminate|].
repeat split; try discriminate; try tauto.
Qed.

Lemma isdigit_not_space (c : ascii) : isdigit c = true -> isspace c = false.
Proof.
unfold isdigit, isspace. intros H. apply andb_prop in H. destruct H as [H1 H2].
apply Z.leb_le in H1, H2. apply orb_false_intro.
- apply Z.eqb_neq. lia.
- apply andb_false_intro2. apply Z.leb_gt. lia.
Qed.

Lemma all_digits_cons (c : ascii) (ds : string) :
  all_digits (String c ds) = true -> isdigit c = true /\ all_digits ds = true.
Proof. unfold all_digits. cbn. apply andb_prop. Qed.

Lemma read_digits_app (ds rest : string) (acc : Z) :
  all_digits ds = true -> no_digit_ahead rest = true ->
  read_digits (ds ++ rest) acc
  = (fold_left (fun a c => (10 * a + (uchar c - 48))%Z) (list_ascii_of_string ds) acc,
     rest).
Proof.
revert acc. induction ds as [|c ds IH]; intros acc Hd Hr.
- cbn. destruct rest as [|c r]; [reflexivity|].
  unfold no_digit_ahead in Hr. cbn in *. apply negb_true_iff in Hr.
  rewrite Hr. reflexivity.
- apply all_digits_cons in Hd. destruct Hd as [Hc Hd].
  cbn [String.append read_digits list_ascii_of_string fold_left].
  rewrite Hc. apply IH; assumption.
Qed.

Lemma decimal_nonneg_acc (l : list ascii) (acc : Z) :
  forallb isdigit l = true -> (0 <= acc)%Z ->
  (0 <= fold_left (fun a c => (10 * a + (uchar c - 48))%Z) l acc)%Z.
Proof.
revert acc. induction l as [|c l IH]; intros acc Hd Ha; [exact Ha|].
cbn in *. apply andb_prop in Hd. destruct Hd as [Hc Hd].
apply IH; [exact Hd|]. unfold isdigit in Hc. apply andb_prop in Hc.
destruct Hc as [H1 _]. apply Z.leb_le in H1. lia.
Qed.

Lemma decimal_nonneg (ds : string) : all_digits ds = true -> (0 <= decimal ds)%Z.
Proof. intros H. apply decimal_nonneg_acc; [exact H | lia]. Qed.

Lemma skip_spaces_digits (ds rest : string) :
  all_digits ds = true -> ds <> EmptyString ->
  skip_spaces (ds ++ rest) = ds ++ rest /\
  isdigit (first_char (ds ++ rest)) = true.
Proof.
intros Hd Hne. destruct ds as [|c ds]; [contradiction|].
pose proof (all_digits_cons _ _ Hd) as [Hc _].
cbn [String.append skip_spaces first_char].
rewrite (isdigit_not_space c Hc). auto.
Qed.

Lemma isdigit_not (c x : ascii) :
  isdigit c = true -> isdigit x = false -> Ascii.eqb c x = false.
Proof. intros Hc Hx. apply Ascii.eqb_neq. intros ->. congruence. Qed.

Lemma to_int_range (z : Z) : (- INT_MAX - 1 <= to_int z <= INT_MAX)%Z.
Proof.
unfold to_int, INT_MAX.
change (2 ^ 31)%Z with 2147483648%Z. change (2 ^ 32)%Z with 4294967296%Z.
pose proof (Z.mod_pos_bound (z + 2147483648) 4294967296 ltac:(lia)). lia.
Qed.

Lemma to_int_small (z : Z) : (- INT_MAX - 1 <= z <= INT_MAX)%Z -> to_int z = z.
Proof.
unfold to_int, INT_MAX.
change (2 ^ 31)%Z with 2147483648%Z. change (2 ^ 32)%Z with 4294967296%Z.
intros H. rewrite Z.mod_small by lia. lia.
Qed.

Lemma atoi_digits (ds rest : string) :
  all_digits ds = true -> ds <> EmptyString -> no_digit_ahead rest = true ->
  atoi (ds ++ rest) = to_int (Z.min LONG_MAX (decimal ds)).
Proof.
intros Hd Hne Hr. destruct (skip_spaces_digits ds rest Hd Hne) as [Hs Hc].
unfold atoi, strtol. rewrite Hs.
rewrite !(isdigit_not _ _ Hc) by reflexivity.
rewrite read_digits_app by assumption. cbn [fst]. fold (decimal ds).
pose proof (decimal_nonneg ds Hd) as Hn. f_equal.
apply Z.max_r. unfold LONG_MAX. change (2 ^ 63)%Z with 9223372036854775808%Z. lia.
Qed.

(** X22: [parse_number_processes_param] never returns less than 1 or more
    than 32, and warns exactly when it does not return what [atoi] gave; an
    argument of decimal digits gives what [atoi] makes of their value (cut
    off at [LONG_MAX], then the low 32 bits as an [int]) brought into
    1..32, which is the value itself brought into 1..32 as long as it fits
    [int]; and an argument that starts with neither white space, a sign nor
    a digit gives 1. *)
Theorem parse_number_processes_param_clamps (arg : string) :
  ((1 <= fst (parse_number_processes_param arg) <= 32)%Z /\
   (snd (parse_number_processes_param arg) = []
    <-> fst (parse_number_processes_param arg) = atoi arg)) /\
  (forall ds rest,
     arg = ds ++ rest -> all_digits ds = true -> ds <> EmptyString ->
     no_digit_ahead rest = true ->
     fst (parse_number_processes_param arg)
     = Z.max 1 (Z.min 32 (to_int (Z.min LONG_MAX (decimal ds)))) /\
     ((decimal ds <= INT_MAX)%Z ->
      fst (parse_number_processes_param arg) = Z.max 1 (Z.min 32 (decimal ds)))) /\
  (forall c rest,
     arg = String c rest -> isspace c = false -> isdigit c = false ->
     c <> "-"%char -> c <> "+"%char ->
     parse_number_processes_param arg
     = (1%Z, ["--number-processes must be at least 1. Using 1."])).
Proof.
assert (Hclamp : forall a,
          fst (parse_number_processes_param a) = Z.max 1 (Z.min 32 (atoi a))).
{ intros a. unfold parse_number_processes_param.
  destruct (atoi a <? 1)%Z eqn:E1; cbn [fst].
  - apply Z.ltb_lt in E1. lia.
  - apply Z.ltb_ge in E1. destruct (32 <? atoi a)%Z eqn:E2; cbn [fst].
    + apply Z.ltb_lt in E2. lia.
    + apply Z.ltb_ge in E2. lia. }
split; [|split].
- unfold parse_number_processes_param.
  destruct (atoi arg <? 1)%Z eqn:E1; cbn [fst snd].
  + apply Z.ltb_lt in E1. split; [lia|]. split; [discriminate | lia].
  + apply Z.ltb_ge in E1. destruct (32 <? atoi arg)%Z eqn:E2; cbn [fst snd].
    * apply Z.ltb_lt in E2. split; [lia|]. split; [discriminate | lia].
    * apply Z.ltb_ge in E2. split; [lia|]. split; reflexivity.
- intros ds rest -> Hd Hne Hr. rewrite Hclamp, atoi_digits by assumption.
  split; [reflexivity|]. intros Hfit.
  pose proof (decimal_nonneg ds Hd) as Hn.
  rewrite (Z.min_r LONG_MAX (decimal ds))
    by (unfold LONG_MAX, INT_MAX in *;
        change (2 ^ 63)%Z with 9223372036854775808%Z; lia).
  rewrite to_int_small by (unfold INT_MAX in *; lia). reflexivity.
- intros c rest -> Hs Hd Hm Hp.
  assert (E : atoi (String c rest) = 0%Z).
  { unfold atoi, strtol. cbn [skip_spaces]. rewrite Hs. cbn [first_char].
    apply Ascii.eqb_neq in Hm, Hp. rewrite Hm, Hp.
    cbn [read_digits]. rewrite Hd. reflexivity. }
  unfold parse_number_processes_param. rewrite E. reflexivity.
Qed.

End NumberFacts.

Lemma parse_log_level_param_accepts_witness :
  CommandLine.parse_log_level_param "warning" = CommandLine.Ok CommandLine.log_level_warn /\
  CommandLine.parse_log_level_param "Debug"
  = CommandLine.Throw "Unknown value for --log-level option: Debug".
Proof.
split.
- apply (parse_log_level_param_accepts "warning" eq_refl). right. reflexivity.
- apply (parse_log_level_param_accepts "Debug" eq_refl); discriminate.
Defined.

Lemma parse_number_processes_param_clamps_witness :
  fst (CommandLine.parse_number_processes_param "64 threads") = 32%Z /\
  fst (CommandLine.parse_number_processes_param "2147483648") = 1%Z /\
  CommandLine.parse_number_processes_param "4294967297" = (1%Z, []) /\
  CommandLine.parse_number_processes_param "many"
  = (1%Z, ["--number-processes must be at least 1. Using 1."%string]) /\
  (1 <= fst (CommandLine.parse_number_processes_param "  -7") <= 32)%Z.
Proof.
split; [|split; [|split; [|split]]].
- apply (parse_number_processes_param_clamps "64 threads") with (ds := "64"%string)
      (rest := " threads"%string); try reflexivity; discriminate.
- destruct (parse_number_processes_param_clamps "2147483648") as (_ & H & _).
  destruct (H "2147483648"%string EmptyString eq_refl eq_refl) as [Hv _];
    [discriminate | reflexivity | exact Hv].
- destruct (parse_number_processes_param_clamps "4294967297") as ((_ & Hw) & H & _).
  destruct (H "4294967297"%string EmptyString eq_refl eq_refl) as [Hv _];
    [discriminate | reflexivity |].
  destruct (CommandLine.parse_number_processes_param "4294967297") as [n log].
  cbn [fst snd] in *. f_equal; [exact Hv | apply Hw; rewrite Hv; reflexivity].
- apply (parse_number_processes_param_clamps "many") with (c := "m"%char)
      (rest := "any"%string); try reflexivity; discriminate.
- apply (parse_number_processes_param_clamps "  -7").
Defined.

Section ExpireFacts.
Import CommandLine.
Local Open Scope string_scope.

Lemma strtoul_digits (ds rest : string) :
  all_digits ds = true -> ds <> EmptyString -> no_digit_ahead rest = true ->
  strtoul (ds ++ rest)
  = (if (ULONG_MAX <? decimal ds)%Z then ULONG_MAX else decimal ds, rest).
Proof.
intros Hd Hne Hr. destruct (skip_spaces_digits ds rest Hd Hne) as [Hs Hc].
unfold strtoul. rewrite Hs.
rewrite !(isdigit_not _ _ Hc) by reflexivity. cbn [orb].
rewrite Hc, read_digits_app by assumption. reflexivity.
Qed.

Lemma first_char_digits (ds rest : string) :
  all_digits ds = true -> ds <> EmptyString ->
  Ascii.eqb (first_char (ds ++ rest)) "-" = false.
Proof.
intros Hd Hne. destruct (skip_spaces_digits ds rest Hd Hne) as [_ Hc].
apply (isdigit_not _ _ Hc). reflexivity.
Qed.

Lemma no_digit_ahead_minus (rest : string) : no_digit_ahead (String "-" rest) = true.
Proof. reflexivity. Qed.

Lemma no_digit_ahead_empty : no_digit_ahead EmptyString = true.
Proof. reflexivity. Qed.

(** The first conversion of [parse_expire_tiles_param] on an argument that
    starts with digits. *)
Ltac minimum_read Hd Hne Hr Hmax :=
  cbn [String.append]; unfold parse_expire_tiles_param;
  rewrite (first_char_digits _ _ Hd Hne);
  rewrite (strtoul_digits _ _ Hd Hne Hr);
  apply Z.leb_le in Hmax; apply Z.leb_le, Z.ltb_ge in Hmax; rewrite Hmax.

(** X23: the zoom levels [parse_expire_tiles_param] hands out are never 0:
    both lie between 1 and 2^32 - 1. *)
Theorem parse_expire_tiles_param_range (arg : option string) (zoom_min zoom : Z) :
  parse_expire_tiles_param arg = Ok (zoom_min, zoom) ->
  (0 < zoom_min < 2 ^ 32 /\ 0 < zoom < 2 ^ 32)%Z.
Proof.
unfold parse_expire_tiles_param. destruct arg as [a|]; [|discriminate].
destruct (Ascii.eqb (first_char a) "-"); [discriminate|].
destruct (strtoul a) as [v next].
destruct (Mem.u32 v =? 0)%Z eqn:E1; [discriminate|].
apply Z.eqb_neq in E1. pose proof (u32_range v) as R1.
unfold Mem.u32_modulus in R1.
destruct (Ascii.eqb (first_char next) "-").
- destruct (negb _ && _); [|discriminate].
  destruct (strtoul (advance 1 next)) as [v2 after].
  destruct ((Mem.u32 v2 =? 0)%Z || _) eqn:E2; [discriminate|].
  apply orb_false_iff in E2. destruct E2 as [E2 _]. apply Z.eqb_neq in E2.
  pose proof (u32_range v2) as R2. unfold Mem.u32_modulus in R2.
  intros [= <- <-]. lia.
- destruct (Ascii.eqb (first_char next) Ascii.zero); [|discriminate].
  intros [= <- <-]. lia.
Qed.

(** X24: an argument N, and an argument N-M, of decimal digits whose values
    fit [unsigned long] and are not multiples of 2^32 is accepted: the zoom
    levels are the values cut to 32 bits, with M taken as it is, whether or
    not it is below N. *)
Theorem parse_expire_tiles_param_accepts (ds ds' : string) :
  all_digits ds = true -> ds <> EmptyString ->
  (decimal ds <= ULONG_MAX)%Z -> Mem.u32 (decimal ds) <> 0%Z ->
  all_digits ds' = true -> ds' <> EmptyString ->
  (decimal ds' <= ULONG_MAX)%Z -> Mem.u32 (decimal ds') <> 0%Z ->
  parse_expire_tiles_param (Some ds)
  = Ok (Mem.u32 (decimal ds), Mem.u32 (decimal ds)) /\
  parse_expire_tiles_param (Some (ds ++ "-" ++ ds'))
  = Ok (Mem.u32 (decimal ds), Mem.u32 (decimal ds')).
Proof.
intros Hd Hne Hmax Hz Hd' Hne' Hmax' Hz'.
apply Z.eqb_neq in Hz, Hz'. split.
- rewrite <- (append_empty_r ds) at 1.
  minimum_read Hd Hne no_digit_ahead_empty Hmax.
  rewrite Hz. reflexivity.
- minimum_read Hd Hne (no_digit_ahead_minus ds') Hmax.
  rewrite Hz. cbn [String.append first_char advance]. cbn [Ascii.eqb Bool.eqb andb].
  rewrite <- (append_empty_r ds').
  rewrite (first_char_digits _ _ Hd' Hne').
  destruct (skip_spaces_digits ds' EmptyString Hd' Hne') as [_ Hc]. rewrite Hc.
  cbn [negb andb].
  rewrite (strtoul_digits _ _ Hd' Hne' no_digit_ahead_empty).
  apply Z.leb_le in Hmax'. apply Z.leb_le, Z.ltb_ge in Hmax'. rewrite Hmax'.
  rewrite Hz'. rewrite append_empty_r. reflexivity.
Qed.

(** X25: after the digits of the minimum only the end of the argument or a
    '-' may follow: any other character there is refused. *)
Theorem parse_expire_tiles_param_needs_separator (ds rest : string) :
  all_digits ds = true -> ds <> EmptyString ->
  (decimal ds <= ULONG_MAX)%Z -> Mem.u32 (decimal ds) <> 0%Z ->
  no_digit_ahead rest = true ->
  first_char rest <> "-"%char -> first_char rest <> Ascii.zero ->
  parse_expire_tiles_param (Some (ds ++ rest))
  = Throw "Minimum and maximum zoom level for tile expiry must be separated by '-'.".
Proof.
intros Hd Hne Hmax Hz Hr Hm H0.
apply Z.eqb_neq in Hz. apply Ascii.eqb_neq in Hm, H0.
minimum_read Hd Hne Hr Hmax.
rewrite Hz, Hm, H0. reflexivity.
Qed.

(** X26: after the separating '-' the maximum has to start with a digit at
    once and to run to the end of the argument: a missing maximum, a sign or
    a blank before it, and anything after its digits are refused. *)
Theorem parse_expire_tiles_param_rejects_bad_maximum (ds junk ds' trail : string) :
  all_digits ds = true -> ds <> EmptyString ->
  (decimal ds <= ULONG_MAX)%Z -> Mem.u32 (decimal ds) <> 0%Z ->
  no_digit_ahead junk = true ->
  all_digits ds' = true -> ds' <> EmptyString ->
  no_digit_ahead trail = true -> first_char trail <> Ascii.zero ->
  parse_expire_tiles_param (Some (ds ++ "-" ++ junk))
  = Throw "Invalid maximum zoom level given for tile expiry." /\
  parse_expire_tiles_param (Some (ds ++ "-" ++ ds' ++ trail))
  = Throw "Invalid maximum zoom level given for tile expiry.".
Proof.
intros Hd Hne Hmax Hz Hj Hd' Hne' Ht H0.
apply Z.eqb_neq in Hz. apply Ascii.eqb_neq in H0.
pose proof Hmax as Hmax2. split.
- minimum_read Hd Hne (no_digit_ahead_minus junk) Hmax.
  rewrite Hz. cbn [String.append first_char advance]. cbn [Ascii.eqb Bool.eqb andb].
  unfold no_digit_ahead in Hj. apply negb_true_iff in Hj. rewrite Hj.
  rewrite andb_false_r. reflexivity.
- minimum_read Hd Hne (no_digit_ahead_minus (ds' ++ trail)) Hmax2.
  rewrite Hz. cbn [String.append first_char advance]. cbn [Ascii.eqb Bool.eqb andb].
  rewrite (first_char_digits _ _ Hd' Hne').
  destruct (skip_spaces_digits ds' trail Hd' Hne') as [_ Hc]. rewrite Hc.
  cbn [negb andb].
  rewrite (strtoul_digits _ _ Hd' Hne' Ht).
  rewrite H0. cbn [negb]. rewrite orb_true_r. reflexivity.
Qed.

(** X27: without a minimum there is no result: digits worth 0, or a
    multiple of 2^32 that still fits [unsigned long], whatever follows them,
    and an argument that starts with neither blank, sign nor digit (the
    empty one too) are refused as a bad minimum. *)
Theorem parse_expire_tiles_param_rejects_no_minimum (ds rest other : string) :
  all_digits ds = true -> ds <> EmptyString ->
  (decimal ds <= ULONG_MAX)%Z -> Mem.u32 (decimal ds) = 0%Z ->
  no_digit_ahead rest = true ->
  isspace (first_char other) = false -> isdigit (first_char other) = false ->
  first_char other <> "-"%char -> first_char other <> "+"%char ->
  parse_expire_tiles_param (Some (ds ++ rest))
  = Throw "Bad argument for option --expire-tiles. Minimum zoom level must be larger than 0." /\
  parse_expire_tiles_param (Some other)
  = Throw "Bad argument for option --expire-tiles. Minimum zoom level must be larger than 0.".
Proof.
intros Hd Hne Hmax Hz Hr Hs Hdig Hm Hp. split.
- minimum_read Hd Hne Hr Hmax. rewrite Hz. reflexivity.
- apply Ascii.eqb_neq in Hm, Hp.
  unfold parse_expire_tiles_param. rewrite Hm.
  assert (E : strtoul other = (0%Z, other)).
  { unfold strtoul.
    assert (Hsk : skip_spaces other = other).
    { destruct other as [|c r]; [reflexivity|].
      cbn [first_char] in Hs. cbn [skip_spaces]. rewrite Hs. reflexivity. }
    rewrite Hsk, Hm, Hp. cbn [orb]. rewrite Hdig. reflexivity. }
  rewrite E. reflexivity.
Qed.

(** X28: the test for a negative argument looks at the first character
    only: behind a blank, a minus sign reaches [strtoul], which negates in
    [unsigned long], and the argument is accepted with both zoom levels
    2^32 - N. *)
Theorem parse_expire_tiles_param_minus_after_blank (blank : ascii) (ds : string) :
  isspace blank = true ->
  all_digits ds = true -> ds <> EmptyString ->
  (0 < decimal ds < 2 ^ 32)%Z ->
  parse_expire_tiles_param (Some (String blank ("-" ++ ds)))
  = Ok ((2 ^ 32 - decimal ds)%Z, (2 ^ 32 - decimal ds)%Z).
Proof.
intros Hb Hd Hne Hrange.
assert (Hbm : Ascii.eqb blank "-" = false).
{ apply Ascii.eqb_neq. intros ->. discriminate. }
assert (E : strtoul (String blank ("-" ++ ds))
            = (((ULONG_MAX + 1 - decimal ds) mod (ULONG_MAX + 1))%Z, EmptyString)).
{ assert (Hsk : skip_spaces (String blank (String "-" ds)) = String "-" ds)
    by (cbn [skip_spaces]; rewrite Hb; reflexivity).
  unfold strtoul. cbn [String.append]. rewrite Hsk.
  cbn [first_char advance]. cbn [Ascii.eqb Bool.eqb andb orb].
  destruct (skip_spaces_digits ds EmptyString Hd Hne) as [_ Hc].
  rewrite append_empty_r in Hc. rewrite Hc.
  rewrite <- (append_empty_r ds) at 1.
  rewrite read_digits_app by (assumption || reflexivity).
  fold (decimal ds).
  assert (Hlt : (ULONG_MAX <? decimal ds)%Z = false).
  { apply Z.ltb_ge. unfold ULONG_MAX.
    change (2 ^ 64)%Z with 18446744073709551616%Z.
    change (2 ^ 32)%Z with 4294967296%Z in Hrange. lia. }
  rewrite Hlt. reflexivity. }
unfold parse_expire_tiles_param. cbn [first_char]. rewrite Hbm, E.
assert (V : Mem.u32 ((ULONG_MAX + 1 - decimal ds) mod (ULONG_MAX + 1))
            = (2 ^ 32 - decimal ds)%Z).
{ unfold Mem.u32, Mem.u32_modulus, ULONG_MAX.
  change (2 ^ 64 - 1 + 1)%Z with 18446744073709551616%Z.
  change (2 ^ 32)%Z with 4294967296%Z in *.
  rewrite (Z.mod_small (18446744073709551616 - decimal ds)) by lia.
  replace (18446744073709551616 - decimal ds)%Z
    with (4294967296 - decimal ds + 4294967295 * 4294967296)%Z by lia.
  rewrite Z.mod_add by lia. apply Z.mod_small. lia. }
rewrite V.
assert (Hnz : (2 ^ 32 - decimal ds =? 0)%Z = false) by (apply Z.eqb_neq; lia).
rewrite Hnz. reflexivity.
Qed.

End ExpireFacts.

Lemma program_name_idempotent_witness :
  CommandLine.program_name (CommandLine.program_name "/usr/bin/osm2pgsql")
  = CommandLine.program_name "/usr/bin/osm2pgsql" /\
  CommandLine.program_name "osm2pgsql" = "osm2pgsql"%string.
Proof.
split.
- apply (program_name_idempotent "/usr/bin/osm2pgsql").
- apply (program_name_idempotent "osm2pgsql"). reflexivity.
Defined.

Lemma parse_expire_tiles_param_range_witness :
  (0 < 10 < 2 ^ 32 /\ 0 < 18 < 2 ^ 32)%Z.
Proof.
apply (parse_expire_tiles_param_range (Some "10-18"%string) 10 18). reflexivity.
Defined.

Lemma parse_expire_tiles_param_accepts_witness :
  CommandLine.parse_expire_tiles_param (Some "4294967297"%string)
  = CommandLine.Ok (1%Z, 1%Z) /\
  CommandLine.parse_expire_tiles_param (Some "4294967297-18"%string)
  = CommandLine.Ok (1%Z, 18%Z).
Proof.
apply (parse_expire_tiles_param_accepts "4294967297" "18");
  try reflexivity; try discriminate; vm_compute; discriminate.
Defined.

Lemma parse_expire_tiles_param_needs_separator_witness :
  CommandLine.parse_expire_tiles_param (Some "12:14"%string)
  = CommandLine.Throw
      "Minimum and maximum zoom level for tile expiry must be separated by '-'.".
Proof.
apply (parse_expire_tiles_param_needs_separator "12" ":14");
  try reflexivity; try discriminate; vm_compute; discriminate.
Defined.

Lemma parse_expire_tiles_param_rejects_bad_maximum_witness :
  CommandLine.parse_expire_tiles_param (Some "12--3"%string)
  = CommandLine.Throw "Invalid maximum zoom level given for tile expiry." /\
  CommandLine.parse_expire_tiles_param (Some "12-14x"%string)
  = CommandLine.Throw "Invalid maximum zoom level given for tile expiry.".
Proof.
apply (parse_expire_tiles_param_rejects_bad_maximum "12" "-3" "14" "x");
  try reflexivity; try discriminate; vm_compute; discriminate.
Defined.

Lemma parse_expire_tiles_param_rejects_no_minimum_witness :
  CommandLine.parse_expire_tiles_param (Some "0-5"%string)
  = CommandLine.Throw
      "Bad argument for option --expire-tiles. Minimum zoom level must be larger than 0." /\
  CommandLine.parse_expire_tiles_param (Some "abc"%string)
  = CommandLine.Throw
      "Bad argument for option --expire-tiles. Minimum zoom level must be larger than 0.".
Proof.
apply (parse_expire_tiles_param_rejects_no_minimum "0" "-5" "abc");
  try reflexivity; try discriminate; vm_compute; discriminate.
Defined.

Lemma parse_expire_tiles_param_minus_after_blank_witness :
  CommandLine.parse_expire_tiles_param (Some " -5"%string)
  = CommandLine.Ok (4294967291%Z, 4294967291%Z).
Proof.
apply (parse_expire_tiles_param_minus_after_blank " " "5");
  try reflexivity; try discriminate. split; reflexivity.
Defined.

Section CheckOptionsFacts.
Import CommandLine.
Local Open Scope string_scope.

Lemma adjust_keeps {A : Type} (g : options_t -> A) (c : options_t -> bool)
    (f : options_t -> options_t) (w : string) (st : options_t * list string) :
  (forall o, g (f o) = g o) -> g (fst (adjust c f w st)) = g (fst st).
Proof. intros H. unfold adjust. destruct (c (fst st)); [apply H | reflexivity]. Qed.

Lemma adjust_sets {A : Type} (g : options_t -> A) (c : options_t -> bool)
    (f : options_t -> options_t) (w : string) (st : options_t * list string) :
  g (fst (adjust c f w st)) = if c (fst st) then g (f (fst st)) else g (fst st).
Proof. unfold adjust. destruct (c (fst st)); reflexivity. Qed.

Lemma options_eta (o : options_t) :
  o = mk_options_t (append o) (create o) (slim o) (droptemp o)
        (middle_database_format o) (hstore_mode o) (hstore_columns o)
        (hstore_match_only o) (enable_hstore_index o) (cache o) (flat_node_file o)
        (expire_tiles_zoom_min o) (expire_tiles_zoom o) (target_srs o)
        (output_backend o).
Proof. destruct o; reflexivity. Qed.

Lemma ok_split (st : options_t * list string) (o : options_t) :
  fst st = o -> exists log, Ok st = Ok (o, log).
Proof. intros <-. exists (snd st). destruct st; reflexivity. Qed.

(** A field read through the [if]s of [check_options]. *)
Ltac keep g := rewrite (adjust_keeps g) by (intros; reflexivity).

Ltac field_step :=
  first
    [ keep append | keep create | keep slim | keep droptemp
    | keep middle_database_format | keep hstore_mode | keep hstore_columns
    | keep hstore_match_only | keep enable_hstore_index | keep cache
    | keep flat_node_file | keep expire_tiles_zoom_min | keep expire_tiles_zoom
    | keep target_srs | keep output_backend
    | rewrite (adjust_sets hstore_match_only)
    | rewrite (adjust_sets enable_hstore_index)
    | rewrite (adjust_sets cache)
    | rewrite (adjust_sets expire_tiles_zoom_min)
    | rewrite (adjust_sets expire_tiles_zoom) ].

Ltac fields :=
  repeat (field_step;
          cbn beta;
          cbn [fst snd append create slim droptemp middle_database_format
               hstore_mode hstore_columns hstore_match_only enable_hstore_index
               cache flat_node_file expire_tiles_zoom_min expire_tiles_zoom
               target_srs output_backend
               set_hstore_match_only set_enable_hstore_index set_cache
               set_expire_tiles_zoom_min set_expire_tiles_zoom]).

(** Comparisons of integers as propositions, then linear arithmetic. *)
Ltac compare_lia :=
  repeat match goal with
         | H : (_ <? _)%Z = true |- _ => apply Z.ltb_lt in H
         | H : (_ <? _)%Z = false |- _ => apply Z.ltb_ge in H
         | H : (_ <=? _)%Z = true |- _ => apply Z.leb_le in H
         | H : (_ <=? _)%Z = false |- _ => apply Z.leb_gt in H
         | H : (_ =? _)%Z = true |- _ => apply Z.eqb_eq in H
         | H : (_ =? _)%Z = false |- _ => apply Z.eqb_neq in H
         end;
  try reflexivity; try discriminate; try lia.

Ltac split_ifs :=
  repeat match goal with
         | |- context [if ?c then _ else _] => destruct c eqn:?
         end.

Lemma cache_check (c : Z) :
  ((if (c <? 0)%Z then 0 else c) =? 0)%Z = (c <=? 0)%Z.
Proof.
destruct (c <? 0)%Z eqn:E1, (c <=? 0)%Z eqn:E2;
  try (apply Z.eqb_eq); try (apply Z.eqb_neq); compare_lia.
Qed.

Lemma check_options_returns (o : options_t) :
  refused o = false -> exists log, check_options o = Ok (checked o, log).
Proof.
intros Hr. unfold refused in Hr.
apply orb_false_iff in Hr as [Hr R5]. apply orb_false_iff in Hr as [Hr R4].
apply orb_false_iff in Hr as [Hr R3]. apply orb_false_iff in Hr as [R1 R2].
unfold check_options. rewrite R1, R2, R3, R4. cbv zeta. fields.
rewrite cache_check, R5. apply ok_split.
rewrite (options_eta (fst _)). unfold checked. cbv zeta.
f_equal; fields; try reflexivity.
- destruct (is_hstore_none (hstore_mode o)), (no_columns (hstore_columns o)),
    (hstore_match_only o); reflexivity.
- destruct (is_hstore_none (hstore_mode o)), (no_columns (hstore_columns o)),
    (enable_hstore_index o); reflexivity.
- split_ifs; compare_lia.
- split_ifs; compare_lia.
- split_ifs; cbn [negb andb] in *; try discriminate; compare_lia.
Qed.

Lemma check_options_throws (o : options_t) :
  refused o = true -> exists msg, check_options o = Throw msg.
Proof.
intros Hr. unfold refused in Hr. unfold check_options.
destruct (append o && create o); [eexists; reflexivity|].
destruct (append o && negb (slim o)); [eexists; reflexivity|].
destruct (droptemp o && negb (slim o)); [eexists; reflexivity|].
destruct (append o && negb (middle_database_format o =? 1)%Z);
  [eexists; reflexivity|].
cbn [orb] in Hr. cbv zeta. fields. rewrite cache_check, Hr.
eexists; reflexivity.
Qed.

Lemma checked_is_settled (o : options_t) :
  refused o = false -> settled (checked o) = true.
Proof.
intros Hr. unfold refused in Hr.
apply orb_false_iff in Hr as [Hr R5]. apply orb_false_iff in Hr as [Hr R4].
apply orb_false_iff in Hr as [Hr R3]. apply orb_false_iff in Hr as [R1 R2].
unfold settled, checked.
cbn [append create slim droptemp middle_database_format hstore_mode
     hstore_columns hstore_match_only enable_hstore_index cache flat_node_file
     expire_tiles_zoom_min expire_tiles_zoom target_srs output_backend].
repeat (apply andb_true_intro; split).
- rewrite R1. reflexivity.
- destruct (append o), (slim o); try reflexivity; discriminate.
- destruct (droptemp o), (slim o); try reflexivity; discriminate.
- destruct (append o), (middle_database_format o =? 1)%Z; try reflexivity; discriminate.
- destruct (hstore_match_only o), (is_hstore_none (hstore_mode o)),
    (no_columns (hstore_columns o)); reflexivity.
- destruct (enable_hstore_index o), (is_hstore_none (hstore_mode o)),
    (no_columns (hstore_columns o)); reflexivity.
- apply Z.leb_le. lia.
- destruct (slim o); [apply implb_true_r|].
  rewrite andb_true_r in R5. apply Z.leb_gt in R5.
  replace (Z.max 0 (cache o) =? 0)%Z with false; [reflexivity|].
  symmetry. apply Z.eqb_neq. lia.
- apply Z.leb_le. lia.
- destruct (target_srs o =? 3857)%Z; apply Z.leb_le; lia.
- destruct (target_srs o =? 3857)%Z; [apply implb_true_r | reflexivity].
Qed.

Lemma settled_is_fixed (o : options_t) :
  settled o = true -> refused o = false /\ checked o = o.
Proof.
unfold settled. intros Hs.
rewrite !andb_true_iff in Hs.
destruct Hs as [[[[[[[[[[S1 S2] S3] S4] S5] S6] S7] S8] S9] S10] S11].
split.
- unfold refused.
  assert (C : (cache o <=? 0)%Z && negb (slim o) = false).
  { destruct (slim o); [apply andb_false_r|]. rewrite andb_true_r.
    destruct (cache o =? 0)%Z eqn:E; [discriminate S8|].
    apply Z.leb_gt. compare_lia. }
  rewrite C.
  destruct (append o), (create o), (slim o), (droptemp o),
    (middle_database_format o =? 1)%Z; try discriminate; reflexivity.
- rewrite (options_eta o) at 2. unfold checked. cbv zeta. f_equal.
  + destruct (hstore_match_only o); [|reflexivity].
    cbn [implb] in S5. apply negb_true_iff in S5. rewrite S5. reflexivity.
  + destruct (enable_hstore_index o); [|reflexivity].
    cbn [implb] in S6. apply negb_true_iff in S6. rewrite S6. reflexivity.
  + compare_lia.
  + compare_lia.
  + destruct (target_srs o =? 3857)%Z; [compare_lia|].
    destruct (expire_tiles_zoom o =? 0)%Z eqn:E; [compare_lia | discriminate].
Qed.

(** X29: when [check_options] returns, the options it leaves are the given
    ones with the cache raised to 0, the zoom levels for tile expiry cut to 31
    (the maximum set to 0 unless the target SRS is 3857) and the two hstore
    flags cleared when hstore is off; nothing else is changed, and checking
    the result again returns it as it is. *)
Theorem check_options_settles (o o' : options_t) (log : list string) :
  check_options o = Ok (o', log) ->
  o' = checked o /\ settled o' = true /\
  exists log', check_options o' = Ok (o', log').
Proof.
intros H.
assert (Hr : refused o = false).
{ destruct (refused o) eqn:E; [|reflexivity].
  destruct (check_options_throws o E) as [msg Hm]. congruence. }
destruct (check_options_returns o Hr) as [log0 H0].
assert (E : o' = checked o) by congruence. subst o'.
pose proof (checked_is_settled o Hr) as Hs.
destruct (settled_is_fixed _ Hs) as [Hr' Hfix].
split; [reflexivity|]. split; [exact Hs|].
destruct (check_options_returns _ Hr') as [log' H']. exists log'.
rewrite H', Hfix. reflexivity.
Qed.

(** X30: [check_options] throws exactly on --append with --create, --append
    or --drop without --slim, --append with a middle database format other
    than 1, and a cache of 0 or less without --slim: a negative cache counts
    as a disabled one. *)
Theorem check_options_throws_exactly (o : options_t) :
  (exists msg, check_options o = Throw msg) <-> refused o = true.
Proof.
split.
- intros [msg H]. destruct (refused o) eqn:E; [reflexivity|].
  destruct (check_options_returns o E) as [log H']. congruence.
- apply check_options_throws.
Qed.

End CheckOptionsFacts.

Lemma check_options_settles_witness :
  CommandLine.checked CommandLine.ex_options
  = CommandLine.mk_options_t false true true false 1 CommandLine.hstore_column_none []
      false false 0 EmptyString 31 0 4326 "pgsql" /\
  CommandLine.settled (CommandLine.checked CommandLine.ex_options) = true.
Proof.
destruct (check_options_settles CommandLine.ex_options _ _ eq_refl) as (H1 & H2 & _).
split; [reflexivity | exact H2].
Defined.

Lemma check_options_throws_exactly_witness :
  exists msg,
    CommandLine.check_options
      (CommandLine.mk_options_t false true false false 1 CommandLine.hstore_column_none []
         false false (-5) EmptyString 0 0 3857 "pgsql")
    = CommandLine.Throw msg.
Proof.
apply check_options_throws_exactly. reflexivity.
Defined.
